(** * miniapi.process.subprocess: command execution, tokenisation and
      executable lookup

    A shallow embedding of [src/miniapi/process/subprocess.py] and of the
    [ProcessError] class of [src/miniapi/core/exceptions.py].

    Python text ([str]) is modelled by [string]; a character stands for the
    code point of the same number (U+0000 .. U+00FF).  Everything the module
    obtains from the interpreter or the operating system (the platform flag,
    [time.time()], [subprocess.run], the file system, [pathlib], the text
    produced by formatting a float) is a field of the record [World]; the
    functions of the module are translated line by line on top of it, in a
    small state-and-exception monad.

    Python floats (the clock readings, the timeout, the execution time) are
    the binary64 numbers of IEEE 754, that is the primitive floats
    [PrimFloat.float]; the subtraction of two clock readings is
    [PrimFloat.sub], which rounds to the nearest float as the interpreter
    does. *)

From Stdlib Require Import String Ascii List Bool ZArith Lia.
From Stdlib Require Import DecimalString.
From Stdlib Require Import Floats.
Import ListNotations.

Local Open Scope nat_scope.
Local Open Scope list_scope.
Local Open Scope string_scope.

(* ------------------------------------------------------------------ *)
(** ** Python's text primitives used by the module *)

Module PyStr.

(** [str.isspace] on one character, for the code points below 256:
    TAB, LF, VT, FF, CR, FS, GS, RS, US, SPACE, NEL and NBSP. *)
Definition isspace (c : ascii) : bool :=
  let n := nat_of_ascii c in
  (((9 <=? n) && (n <=? 13)) || ((28 <=? n) && (n <=? 32))
   || (n =? 133) || (n =? 160))%nat.

Definition is_empty (s : string) : bool :=
  match s with EmptyString => true | String _ _ => false end.

(** [s.lstrip()] *)
Fixpoint lstrip (s : string) : string :=
  match s with
  | EmptyString => EmptyString
  | String c s' => if isspace c then lstrip s' else s
  end.

(** [s.rstrip()] *)
Fixpoint rstrip (s : string) : string :=
  match s with
  | EmptyString => EmptyString
  | String c s' =>
      let r := rstrip s' in
      if is_empty r && isspace c then EmptyString else String c r
  end.

(** [s.strip()]: whitespace is removed at both ends. *)
Definition strip (s : string) : string := rstrip (lstrip s).

(** [s.split()] with no argument: the maximal runs of non-whitespace
    characters, in order; [tok] is the run being read. *)
Fixpoint split_from (tok : string) (s : string) : list string :=
  match s with
  | EmptyString => if is_empty tok then [] else [tok]
  | String c s' =>
      if isspace c
      then (if is_empty tok then split_from EmptyString s'
            else tok :: split_from EmptyString s')
      else split_from (tok ++ String c EmptyString) s'
  end.

Definition split (s : string) : list string := split_from EmptyString s.

(** [s.split(sep)] for a one-character separator: empty fields are kept. *)
Fixpoint split_sep_from (sep : ascii) (tok : string) (s : string)
  : list string :=
  match s with
  | EmptyString => [tok]
  | String c s' =>
      if Ascii.eqb c sep
      then tok :: split_sep_from sep EmptyString s'
      else split_sep_from sep (tok ++ String c EmptyString) s'
  end.

Definition split_sep (sep : ascii) (s : string) : list string :=
  split_sep_from sep EmptyString s.

(** [sep.join(l)] *)
Fixpoint join (sep : string) (l : list string) : string :=
  match l with
  | [] => EmptyString
  | [x] => x
  | x :: rest => x ++ sep ++ join sep rest
  end.

(** [str(n)] for an integer. *)
Definition str_of_int (n : Z) : string :=
  NilEmpty.string_of_int (Z.to_int n).

(** Every character of [s] satisfies [p]. *)
Fixpoint all_chars (p : ascii -> bool) (s : string) : bool :=
  match s with
  | EmptyString => true
  | String c s' => p c && all_chars p s'
  end.

Definition newline : string := String (ascii_of_nat 10) EmptyString.

(** [str.isprintable] on one character, for the code points below 256:
    the ASCII characters from the space to the tilde, and the Latin-1
    characters from U+00A1 on, the soft hyphen U+00AD apart. *)
Definition isprintable (c : ascii) : bool :=
  let n := nat_of_ascii c in
  (((32 <=? n) && (n <=? 126)) || ((161 <=? n) && negb (n =? 173)))%nat.

(** One hexadecimal digit, in lower case. *)
Definition hex_digit (n : nat) : ascii :=
  nth n (list_ascii_of_string "0123456789abcdef") "0"%char.

(** Whether the character [c] occurs in [s]. *)
Fixpoint has_char (c : ascii) (s : string) : bool :=
  match s with
  | EmptyString => false
  | String d s' => Ascii.eqb c d || has_char c s'
  end.

(** One character of [repr(s)], [quote] being the quote chosen: the
    quote and the backslash get a backslash, TAB, LF and CR their
    letter, any other character that is not printable its code in
    hexadecimal. *)
Definition repr_char (quote : ascii) (c : ascii) : string :=
  if Ascii.eqb c quote || Ascii.eqb c "\"
  then String "\" (String c EmptyString)
  else if Ascii.eqb c (ascii_of_nat 9) then "\t"
  else if Ascii.eqb c (ascii_of_nat 10) then "\n"
  else if Ascii.eqb c (ascii_of_nat 13) then "\r"
  else if isprintable c then String c EmptyString
  else
    let n := nat_of_ascii c in
    String "\" (String "x" (String (hex_digit (n / 16))
                              (String (hex_digit (n mod 16)) EmptyString))).

Fixpoint repr_chars (quote : ascii) (s : string) : string :=
  match s with
  | EmptyString => EmptyString
  | String c s' => repr_char quote c ++ repr_chars quote s'
  end.

(** [repr(s)] for a text: between single quotes, or between double
    quotes when the text holds a single quote and no double quote. *)
Definition repr (s : string) : string :=
  let quote :=
    if has_char "'" s && negb (has_char (ascii_of_nat 34) s)
    then ascii_of_nat 34 else "'"%char in
  String quote (repr_chars quote s ++ String quote EmptyString).

(** [str(l)] for a list of texts. *)
Definition str_of_list (l : list string) : string :=
  "[" ++ join ", " (map repr l) ++ "]".

End PyStr.

(* ------------------------------------------------------------------ *)
(** ** Python exceptions *)

Inductive ExcType :=
| TyProcessError | TyTimeoutExpired | TyFileNotFoundError
| TyPermissionError | TyValueError | TyTypeError | TyOtherException.

(** An exception value.  [ProcessError] is the class of
    [core/exceptions.py]; the others are the built-in and [subprocess]
    exceptions that can arise inside the functions of the module, each
    with its [str(e)]. *)
Inductive PyExc :=
| ProcessError (message : string) (command : string) (exit_code : option Z)
| TimeoutExpired (text : string)
| FileNotFoundError (text : string)
| PermissionError (text : string)
| ValueError (text : string)
| TypeError (text : string)
| OtherException (text : string).

Definition exc_type (e : PyExc) : ExcType :=
  match e with
  | ProcessError _ _ _ => TyProcessError
  | TimeoutExpired _ => TyTimeoutExpired
  | FileNotFoundError _ => TyFileNotFoundError
  | PermissionError _ => TyPermissionError
  | ValueError _ => TyValueError
  | TypeError _ => TyTypeError
  | OtherException _ => TyOtherException
  end.

(** [ProcessError.__init__(message, command="", exit_code=None)] *)
Definition new_ProcessError (message : string) (command : string)
    (exit_code : option Z) : PyExc :=
  let message :=
    if PyStr.is_empty command then message
    else "An error occurred while executing the command '" ++ command
         ++ "': " ++ message in
  ProcessError message command exit_code.

(** [str(e)]; for a [MiniapiError] it is [self.message]. *)
Definition exc_str (e : PyExc) : string :=
  match e with
  | ProcessError message _ _ => message
  | TimeoutExpired t | FileNotFoundError t | PermissionError t
  | ValueError t | TypeError t | OtherException t => t
  end.

(** The result of evaluating a Python expression that may raise. *)
Inductive Outcome (A : Type) : Type :=
| Return (a : A)
| Raise (e : PyExc).
Arguments Return {A} a.
Arguments Raise {A} e.

Definition outcome_map {A B : Type} (f : A -> B) (r : Outcome A)
  : Outcome B :=
  match r with
  | Return a => Return (f a)
  | Raise e => Raise e
  end.

(* ------------------------------------------------------------------ *)
(** ** [shlex.split]

    [shlex.split(s)] runs the standard library's lexer in POSIX mode with
    [whitespace_split = True], no comment characters and no punctuation
    characters.  [tokens] follows [shlex.read_token] character by character
    and restarts it after each token, as iterating the lexer does; the
    lexer's [state] survives from one token to the next, while [token],
    [quoted] and [escapedstate] are reset. *)

Module Shlex.

Definition squote : ascii := ascii_of_nat 39.
Definition dquote : ascii := ascii_of_nat 34.
Definition backslash : ascii := ascii_of_nat 92.

(** [self.whitespace = ' \t\r\n'] *)
Definition is_whitespace (c : ascii) : bool :=
  Ascii.eqb c " " || Ascii.eqb c (ascii_of_nat 9)
  || Ascii.eqb c (ascii_of_nat 13) || Ascii.eqb c (ascii_of_nat 10).
(** [self.quotes] *)
Definition is_quote (c : ascii) : bool :=
  Ascii.eqb c squote || Ascii.eqb c dquote.
(** [self.escape] *)
Definition is_escape (c : ascii) : bool := Ascii.eqb c backslash.
(** [self.escapedquotes] *)
Definition is_escapedquote (c : ascii) : bool := Ascii.eqb c dquote.

(** [self.state]: [' '], ['a'], a quote character or an escape
    character.  ([None] is only entered at the end of the input.) *)
Inductive LexState :=
| Space
| Word
| Quote (q : ascii)
| Escape (e : ascii).

(** What the last [read_token] yields at the end of the input:
    [None] (no token) when nothing was read and nothing was quoted. *)
Definition at_end (quoted : bool) (token : string) : list string :=
  if negb quoted && PyStr.is_empty token then [] else [token].

Definition emit (token : string) (r : Outcome (list string))
  : Outcome (list string) :=
  outcome_map (cons token) r.

Definition snoc (token : string) (c : ascii) : string :=
  token ++ String c EmptyString.

Fixpoint tokens (state escapedstate : LexState) (quoted : bool)
    (token : string) (input : string) : Outcome (list string) :=
  match input with
  | EmptyString =>
      match state with
      | Space | Word => Return (at_end quoted token)
      | Quote _ => Raise (ValueError "No closing quotation")
      | Escape _ => Raise (ValueError "No escaped character")
      end
  | String nextchar rest =>
      match state with
      | Space =>
          if is_whitespace nextchar then
            if negb (PyStr.is_empty token) || quoted
            then emit token (tokens Space Space false EmptyString rest)
            else tokens Space escapedstate quoted token rest
          else if is_escape nextchar then
            tokens (Escape nextchar) Word quoted token rest
          else if is_quote nextchar then
            tokens (Quote nextchar) escapedstate quoted token rest
          else
            tokens Word escapedstate quoted
                   (String nextchar EmptyString) rest
      | Quote q =>
          if Ascii.eqb nextchar q then
            tokens Word escapedstate true token rest
          else if is_escape nextchar && is_escapedquote q then
            tokens (Escape nextchar) (Quote q) true token rest
          else
            tokens (Quote q) escapedstate true (snoc token nextchar) rest
      | Escape e =>
          let token :=
            match escapedstate with
            | Quote q =>
                if negb (Ascii.eqb nextchar e)
                   && negb (Ascii.eqb nextchar q)
                then snoc token e else token
            | _ => token
            end in
          tokens escapedstate escapedstate quoted
                 (snoc token nextchar) rest
      | Word =>
          if is_whitespace nextchar then
            if negb (PyStr.is_empty token) || quoted
            then emit token (tokens Space Space false EmptyString rest)
            else tokens Space escapedstate quoted token rest
          else if is_quote nextchar then
            tokens (Quote nextchar) escapedstate quoted token rest
          else if is_escape nextchar then
            tokens (Escape nextchar) Word quoted token rest
          else
            tokens Word escapedstate quoted (snoc token nextchar) rest
      end
  end.

Definition split (s : string) : Outcome (list string) :=
  tokens Space Space false EmptyString s.

(** A character with no special meaning for the lexer. *)
Definition plain (c : ascii) : bool :=
  negb (is_whitespace c) && negb (is_quote c) && negb (is_escape c).

(** A character that may stand inside a quotation opened by [q]. *)
Definition inside (q : ascii) (c : ascii) : bool :=
  negb (Ascii.eqb c q) && negb (is_escape c && is_escapedquote q).

End Shlex.

(* ------------------------------------------------------------------ *)
(** ** Data of the module *)

Definition Path := string.
Definition Env := list (string * string).

(** A Python [float] is a binary64 number, a [PrimFloat.float]. *)

(** The [command] argument: [Union[str, List[str]]]. *)
Inductive Command :=
| CmdStr (s : string)
| CmdList (l : list string).

(** What is handed to [subprocess.run] as [cmd_args]: an argument vector
    or one string for the shell. *)
Inductive CmdArgs :=
| Argv (l : list string)
| ShellLine (s : string).

Inductive Redirect := PIPE | DEVNULL.

(** The keyword arguments built for [subprocess.run]; the keys [text],
    [encoding] and [errors] are present only when output is captured. *)
Record RunKwargs := {
  rk_cwd : option string;
  rk_env : option Env;
  rk_timeout : option float;
  rk_shell : bool;
  rk_stdout : Redirect;
  rk_stderr : Redirect;
  rk_text : option bool;
  rk_encoding : option string;
  rk_errors : option string
}.

(** [subprocess.CompletedProcess]; [stdout] and [stderr] are the decoded
    text, or [None] when the stream was not captured; [cp_pid] is the [pid]
    attribute if the object has one. *)
Record CompletedProcess := {
  cp_returncode : Z;
  cp_stdout : option string;
  cp_stderr : option string;
  cp_pid : option Z
}.

(** The dataclass [CommandResult]. *)
Record CommandResult := {
  success : bool;
  returncode : Z;
  stdout : string;
  stderr : string;
  command : string;
  execution_time : float;
  pid : option Z
}.

(** The keyword parameters of [run_safe]. *)
Record Options := {
  cwd : option string;
  env : option Env;
  timeout : option float;
  capture_output : bool;
  shell : bool;
  encoding : string;
  errors : string;
  check : bool
}.

Definition default_options : Options :=
  {| cwd := None; env := None; timeout := None; capture_output := true;
     shell := false; encoding := "utf-8"; errors := "replace";
     check := true |}.

(** What the module gets from the interpreter and the operating system. *)
Record World := {
  (** [core.platform.IS_WINDOWS], i.e. [sys.platform == "win32"] *)
  IS_WINDOWS : bool;
  (** the successive values returned by [time.time()] *)
  clock : nat -> float;
  (** [subprocess.run(cmd_args, **kwargs)] *)
  os_run : CmdArgs -> RunKwargs -> Outcome CompletedProcess;
  (** [Path.is_file]: it answers [False] for a path that does not exist
      and raises the [OSError] of [stat] for another failure (a directory
      that may not be searched, a name that is too long) *)
  is_file : Path -> Outcome bool;
  (** [os.access(path, os.X_OK)] *)
  os_access_X_OK : Path -> Outcome bool;
  (** [os.environ.get('PATH')] *)
  environ_PATH : option string;
  (** [Path(path_dir) / possible_name] *)
  path_join : string -> string -> Path;
  (** [str(x)] for a float *)
  str_of_float : float -> string;
  (** [format(x, ".2f")] *)
  format_2f : float -> string
}.

(* ------------------------------------------------------------------ *)
(** ** The execution monad

    The state is the trace of what the call has done so far to the outside:
    the readings of the clock and the spawn attempts, in order. *)

Inductive Event :=
| ClockRead (t : float)
| SpawnAttempt (cmd_args : CmdArgs) (kwargs : RunKwargs).

Definition State := list Event.

Definition initial_state : State := [].

(** How many times the clock has been read. *)
Fixpoint ticks (s : State) : nat :=
  match s with
  | [] => 0
  | ClockRead _ :: s' => S (ticks s')
  | SpawnAttempt _ _ :: s' => ticks s'
  end.

Definition M (A : Type) : Type := State -> Outcome A * State.

Definition ret {A : Type} (a : A) : M A := fun s => (Return a, s).

Definition raise {A : Type} (e : PyExc) : M A := fun s => (Raise e, s).

Definition bind {A B : Type} (m : M A) (k : A -> M B) : M B :=
  fun s =>
    match m s with
    | (Return a, s') => k a s'
    | (Raise e, s') => (Raise e, s')
    end.

Definition lift {A : Type} (r : Outcome A) : M A := fun s => (r, s).

(** [try: body  except Exception as e: handler e] *)
Definition try_except {A : Type} (body : M A) (handler : PyExc -> M A)
  : M A :=
  fun s =>
    match body s with
    | (Return a, s') => (Return a, s')
    | (Raise e, s') => handler e s'
    end.

Declare Scope py_scope.
Delimit Scope py_scope with py.
Notation "x <- m ;; k" := (bind m (fun x => k))
  (at level 61, m at next level, right associativity) : py_scope.
Notation "m ;;; k" := (bind m (fun _ => k))
  (at level 61, right associativity) : py_scope.

(* ------------------------------------------------------------------ *)
(** ** The functions of [process/subprocess.py] *)

Section Subprocess.

Variable w : World.

Local Open Scope py_scope.

(** [time.time()] *)
Definition time_time : M float :=
  fun s => let t := clock w (ticks s) in
           (Return t, (s ++ [ClockRead t])%list).

(** [subprocess.run(cmd_args, **kwargs)]: one spawn attempt. *)
Definition subprocess_run (cmd_args : CmdArgs) (kwargs : RunKwargs)
  : M CompletedProcess :=
  fun s => (os_run w cmd_args kwargs,
            (s ++ [SpawnAttempt cmd_args kwargs])%list).

(** [str(command)], also what [{command}] gives in an f-string. *)
Definition str_of_command (command : Command) : string :=
  match command with
  | CmdStr s => s
  | CmdList l => PyStr.str_of_list l
  end.

(** [{timeout}] in an f-string. *)
Definition str_of_timeout (timeout : option float) : string :=
  match timeout with
  | None => "None"
  | Some t => str_of_float w t
  end.

(** [CommandResult.output] *)
Definition output (self : CommandResult) : string :=
  stdout self
  ++ (if negb (PyStr.is_empty (stderr self))
      then PyStr.newline ++ stderr self else "").

(** [CommandResult.raise_if_failed] *)
Definition raise_if_failed (self : CommandResult) : M unit :=
  if negb (success self) then
    raise (new_ProcessError
             ("Command execution failed (code="
              ++ PyStr.str_of_int (returncode self) ++ "): "
              ++ command self ++ PyStr.newline
              ++ "Error Output: " ++ stderr self) "" None)
  else ret tt.

(** Lines 76-91 of [run_safe]: the command is turned into [cmd_args]. *)
Definition cmd_args_of (command : Command) (shell : bool)
  : Outcome CmdArgs :=
  match command with
  | CmdStr command =>
      if shell then Return (ShellLine command)
      else if IS_WINDOWS w then Return (Argv (PyStr.split command))
      else outcome_map Argv (Shlex.split command)
  | CmdList command =>
      if shell then Return (ShellLine (PyStr.join " " command))
      else Return (Argv command)
  end.

(** Lines 94-113 of [run_safe]: the keyword arguments of the spawn. *)
Definition kwargs_of (o : Options) : RunKwargs :=
  let cwd' :=
    match cwd o with
    | Some c => if PyStr.is_empty c then None else Some c
    | None => None
    end in
  if capture_output o then
    {| rk_cwd := cwd'; rk_env := env o; rk_timeout := timeout o;
       rk_shell := shell o; rk_stdout := PIPE; rk_stderr := PIPE;
       rk_text := Some true; rk_encoding := Some (encoding o);
       rk_errors := Some (errors o) |}
  else
    {| rk_cwd := cwd'; rk_env := env o; rk_timeout := timeout o;
       rk_shell := shell o; rk_stdout := DEVNULL; rk_stderr := DEVNULL;
       rk_text := None; rk_encoding := None; rk_errors := None |}.

(** [x.strip() if x else ""] for an optional text. *)
Definition strip_or_empty (x : option string) : string :=
  match x with
  | Some t => if PyStr.is_empty t then "" else PyStr.strip t
  | None => ""
  end.

(** The body of the [try] block of [run_safe]. *)
Definition run_safe_body (start_time : float) (command : Command)
    (o : Options) : M CommandResult :=
  cmd_args <- lift (cmd_args_of command (shell o)) ;;
  let kwargs := kwargs_of o in
  process <- subprocess_run cmd_args kwargs ;;
  now <- time_time ;;
  let execution_time := PrimFloat.sub now start_time in
  let stdout := if capture_output o then cp_stdout process else Some "" in
  let stderr := if capture_output o then cp_stderr process else Some "" in
  let pid := cp_pid process in
  let result :=
    {| success := Z.eqb (cp_returncode process) 0;
       returncode := cp_returncode process;
       stdout := strip_or_empty stdout;
       stderr := strip_or_empty stderr;
       command := str_of_command command;
       execution_time := execution_time;
       pid := pid |} in
  (if check o && negb (success result)
   then raise_if_failed result else ret tt) ;;;
  ret result.

(** The three [except] clauses of [run_safe], tried in order. *)
Definition run_safe_handler (start_time : float) (command : Command)
    (o : Options) (e : PyExc) : M CommandResult :=
  match e with
  | TimeoutExpired _ =>
      now <- time_time ;;
      let execution_time := PrimFloat.sub now start_time in
      raise (new_ProcessError
               ("Command execution timed out ("
                ++ str_of_timeout (timeout o) ++ "sec ): "
                ++ str_of_command command ++ PyStr.newline
                ++ "Elapsed Time: " ++ format_2f w execution_time
                ++ "sec") "" None)
  | FileNotFoundError _ =>
      raise (new_ProcessError
               ("Command not found: " ++ str_of_command command
                ++ PyStr.newline
                ++ "Please ensure the command is installed and in PATH")
               "" None)
  | _ =>
      raise (new_ProcessError
               ("Error executing command " ++ str_of_command command
                ++ ": " ++ exc_str e) "" None)
  end.

Definition run_safe (command : Command) (o : Options) : M CommandResult :=
  start_time <- time_time ;;
  try_except (run_safe_body start_time command o)
             (run_safe_handler start_time command o).

(** The [**kwargs] of [run_capture]: for each keyword parameter of
    [run_safe], the value passed, if any. *)
Record Kwargs := {
  kw_cwd : option string;
  kw_env : option Env;
  kw_timeout : option float;
  kw_capture_output : option bool;
  kw_shell : option bool;
  kw_encoding : option string;
  kw_errors : option string;
  kw_check : option bool
}.

Definition or_default {A : Type} (x : option A) (d : A) : A :=
  match x with Some a => a | None => d end.

(** The call [run_safe(command, capture_output=True, **kwargs)]: a
    second value for [capture_output] is refused by the interpreter
    before [run_safe] is entered (the text is that of CPython 3.11). *)
Definition run_safe_capture_call (command : Command) (kwargs : Kwargs)
  : M CommandResult :=
  match kw_capture_output kwargs with
  | Some _ =>
      raise (TypeError
        ("miniapi.process.subprocess.run_safe() got multiple values "
         ++ "for keyword argument 'capture_output'"))
  | None =>
      run_safe command
        {| cwd := kw_cwd kwargs;
           env := kw_env kwargs;
           timeout := kw_timeout kwargs;
           capture_output := true;
           shell := or_default (kw_shell kwargs) (shell default_options);
           encoding :=
             or_default (kw_encoding kwargs) (encoding default_options);
           errors :=
             or_default (kw_errors kwargs) (errors default_options);
           check := or_default (kw_check kwargs) (check default_options)
        |}
  end.

Definition run_capture (command : Command) (kwargs : Kwargs) : M string :=
  result <- run_safe_capture_call command kwargs ;;
  ret (PyStr.strip (stdout result)).

(** [command_exists]; the bare [except:] turns every exception into
    [False]. *)
Definition command_exists (command : string) : M bool :=
  try_except
    (if IS_WINDOWS w then
       result <- run_safe (CmdList ["where"; command])
                   {| cwd := None; env := None; timeout := None;
                      capture_output := true; shell := true;
                      encoding := encoding default_options;
                      errors := errors default_options;
                      check := false |} ;;
       ret (success result
            && negb (String.eqb (PyStr.strip (stdout result)) ""))
     else
       result <- run_safe (CmdList ["which"; command])
                   {| cwd := None; env := None; timeout := None;
                      capture_output := true;
                      shell := shell default_options;
                      encoding := encoding default_options;
                      errors := errors default_options;
                      check := false |} ;;
       ret (success result))
    (fun _ => ret false).

(** [os.pathsep] *)
Definition pathsep : ascii := if IS_WINDOWS w then ";" else ":".

(** The candidate file names of [find_executable]. *)
Definition possible_names (name : string) : list string :=
  name :: (if IS_WINDOWS w
           then [name ++ ".exe"; name ++ ".bat"; name ++ ".cmd"]
           else []).

(** The inner loop of [find_executable], over the candidate names.
    [is_file] is called outside the [try]: an exception it raises leaves
    the function.  [os.access] is called inside the [try] and its value
    is not looked at: the path is returned whatever the value, and the
    next name is tried only if the call raises.  The value is [None]
    when the loop ends without a [return]. *)
Fixpoint find_in_dir (path_dir : string) (names : list string)
  : Outcome (option Path) :=
  match names with
  | [] => Return None
  | possible_name :: names' =>
      let exe_path := path_join w path_dir possible_name in
      match is_file w exe_path with
      | Raise e => Raise e
      | Return true =>
          match os_access_X_OK w exe_path with
          | Return _ => Return (Some exe_path)
          | Raise _ => find_in_dir path_dir names'
          end
      | Return false => find_in_dir path_dir names'
      end
  end.

(** The outer loop of [find_executable], over the directories. *)
Fixpoint find_in_paths (paths : list string) (names : list string)
  : Outcome (option Path) :=
  match paths with
  | [] => Return None
  | path_dir :: paths' =>
      match find_in_dir path_dir names with
      | Raise e => Raise e
      | Return (Some exe_path) => Return (Some exe_path)
      | Return None => find_in_paths paths' names
      end
  end.

Definition find_executable (name : string) (paths : option (list string))
  : Outcome (option Path) :=
  let paths :=
    match paths with
    | Some paths => paths
    | None =>
        let path_str := or_default (environ_PATH w) "" in
        PyStr.split_sep pathsep path_str
    end in
  find_in_paths paths (possible_names name).

End Subprocess.

(* ------------------------------------------------------------------ *)
(** ** Notions used to state the properties *)

(** The file names [find_executable] probes, in the order of the two
    loops: directory by directory, and name by name inside a directory. *)
Definition candidates (w : World) (name : string) (paths : list string)
  : list Path :=
  flat_map (fun path_dir => map (path_join w path_dir) (possible_names w name))
           paths.

(** [os.access] raises on [p]. *)
Definition access_raises (w : World) (p : Path) : bool :=
  match os_access_X_OK w p with
  | Return _ => false
  | Raise _ => true
  end.


(** What the search does when it comes to the probe [p]: it ends with
    a value or an exception, or goes on ([None]). *)
Definition probe (w : World) (p : Path) : option (Outcome (option Path)) :=
  match is_file w p with
  | Raise e => Some (Raise e)
  | Return true => if access_raises w p then None else Some (Return (Some p))
  | Return false => None
  end.

(** The first probe of a list at which the search ends, if any. *)
Fixpoint first_probe (w : World) (probes : list Path)
  : Outcome (option Path) :=
  match probes with
  | [] => Return None
  | p :: probes' =>
      match probe w p with
      | Some r => r
      | None => first_probe w probes'
      end
  end.

(** A character that [repr] writes as it is, between single quotes:
    printable, and neither the single quote nor the backslash. *)
Definition literal (c : ascii) : bool :=
  PyStr.isprintable c && negb (Ascii.eqb c "'") && negb (Ascii.eqb c "\").

(** No character of [s] is whitespace for [str.split]. *)
Definition no_space (s : string) : bool :=
  PyStr.all_chars (fun c => negb (PyStr.isspace c)) s.

(** [s] neither starts nor ends with whitespace. *)
Definition trimmed (s : string) : Prop :=
  PyStr.lstrip s = s /\ PyStr.rstrip s = s.

(** The exception an outcome raised, if it raised. *)
Definition raised {A : Type} (r : Outcome A * State) : option PyExc :=
  match fst r with
  | Raise e => Some e
  | Return _ => None
  end.

(** The value an outcome returned, if it returned. *)
Definition returned {A : Type} (r : Outcome A * State) : option A :=
  match fst r with
  | Return a => Some a
  | Raise _ => None
  end.

(** The spawn attempts recorded in a trace. *)
Fixpoint spawns (s : State) : list (CmdArgs * RunKwargs) :=
  match s with
  | [] => []
  | SpawnAttempt a k :: s' => (a, k) :: spawns s'
  | ClockRead _ :: s' => spawns s'
  end.

(** The record [run_safe] builds from a completed process, given the two
    clock readings. *)
Definition completed_result (w : World) (command : Command) (o : Options)
    (start_time now : float) (process : CompletedProcess) : CommandResult :=
  {| success := Z.eqb (cp_returncode process) 0;
     returncode := cp_returncode process;
     stdout := strip_or_empty
                 (if capture_output o then cp_stdout process else Some "");
     stderr := strip_or_empty
                 (if capture_output o then cp_stderr process else Some "");
     command := str_of_command command;
     execution_time := PrimFloat.sub now start_time;
     pid := cp_pid process |}.

(** The trace of one [run_safe] call that reaches the second clock
    reading. *)
Definition run_trace (w : World) (s : State) (cmd_args : CmdArgs)
    (o : Options) : State :=
  (s ++ [ClockRead (clock w (ticks s));
         SpawnAttempt cmd_args (kwargs_of o);
         ClockRead (clock w (S (ticks s)))])%list.

(** The message of the error raised for a non-zero exit code. *)
Definition failure_message (w : World) (command : Command)
    (code : Z) (err : string) : string :=
  "Error executing command " ++ str_of_command command ++ ": "
  ++ "Command execution failed (code=" ++ PyStr.str_of_int code ++ "): "
  ++ str_of_command command ++ PyStr.newline
  ++ "Error Output: " ++ err.

(** The message of the error raised when the executable is not found. *)
Definition not_found_message (w : World) (command : Command) : string :=
  "Command not found: " ++ str_of_command command ++ PyStr.newline
  ++ "Please ensure the command is installed and in PATH".

(** The message of the error raised on a timeout. *)
Definition timeout_message (w : World) (command : Command)
    (timeout : option float) (elapsed : float) : string :=
  "Command execution timed out (" ++ str_of_timeout w timeout ++ "sec ): "
  ++ str_of_command command ++ PyStr.newline
  ++ "Elapsed Time: " ++ format_2f w elapsed ++ "sec".

(** The one spawn [command_exists] makes: [which name] as an argument
    vector, or on Windows [where name] as a shell line. *)
Definition lookup_args (w : World) (name : string) : CmdArgs :=
  if IS_WINDOWS w then ShellLine ("where " ++ name)
  else Argv ["which"; name].

Definition lookup_kwargs (w : World) : RunKwargs :=
  {| rk_cwd := None; rk_env := None; rk_timeout := None;
     rk_shell := IS_WINDOWS w; rk_stdout := PIPE; rk_stderr := PIPE;
     rk_text := Some true; rk_encoding := Some "utf-8";
     rk_errors := Some "replace" |}.

(** The answer [command_exists] reads off the outcome of that spawn. *)
Definition lookup_answer (w : World)
    (outcome : Outcome CompletedProcess) : bool :=
  match outcome with
  | Return process =>
      Z.eqb (cp_returncode process) 0
      && (if IS_WINDOWS w
          then match cp_stdout process with
               | Some t => negb (String.eqb (PyStr.strip t) "")
               | None => false
               end
          else true)
  | Raise _ => false
  end.

(* ------------------------------------------------------------------ *)
(** ** Notions on floats

    [Prim2SF] gives the sign, the mantissa and the exponent of a float,
    on which the standard library specifies the operations. *)

Module Ieee.

(** The least exponent of a binary64 number. *)
Definition emin : Z := SpecFloat.emin prec emax.

(** Neither infinite nor a NaN. *)
Definition SFfinite (x : spec_float) : bool :=
  match x with
  | S754_zero _ | S754_finite _ _ _ => true
  | _ => false
  end.

(** How a number compares with zero. *)
Definition SFsign (x : spec_float) : option comparison :=
  SFcompare x (S754_zero false).

End Ieee.

(* ------------------------------------------------------------------ *)
(** ** Example worlds *)

Module Demo.

(** The texts of a float, for the examples, whose floats are small whole
    numbers: the digits of the whole part of [x] followed by [suffix];
    [show_float] is [str] and [show_2f] is [format(x, ".2f")] on such
    floats. *)
Definition show_whole (suffix : string) (x : float) : string :=
  match Prim2SF x with
  | S754_zero s => (if s then "-" else "") ++ "0" ++ suffix
  | S754_infinity s => (if s then "-" else "") ++ "inf"
  | S754_nan => "nan"
  | S754_finite s m e =>
      (if s then "-" else "")
      ++ PyStr.str_of_int (Z.shiftl (Zpos m) e) ++ suffix
  end.

Definition show_float : float -> string := show_whole ".0".

Definition show_2f : float -> string := show_whole ".00".

Definition argv0 (cmd_args : CmdArgs) : string :=
  match cmd_args with
  | Argv (x :: _) => x
  | Argv [] => ""
  | ShellLine s => s
  end.

Definition captured (r : Redirect) (text : string) : option string :=
  match r with PIPE => Some text | DEVNULL => None end.

(** A machine on which [missing] is not installed, [locked] may not be
    executed, [sleep] outlives any timeout, [false] exits with code 1 and
    everything else succeeds. *)
Definition run (cmd_args : CmdArgs) (kwargs : RunKwargs)
  : Outcome CompletedProcess :=
  if String.eqb (argv0 cmd_args) "missing" then
    Raise (FileNotFoundError "[Errno 2] No such file or directory: 'missing'")
  else if String.eqb (argv0 cmd_args) "locked" then
    Raise (PermissionError "[Errno 13] Permission denied: 'locked'")
  else if String.eqb (argv0 cmd_args) "sleep" then
    Raise (TimeoutExpired "Command '['sleep', '60']' timed out after 2.0 seconds")
  else if String.eqb (argv0 cmd_args) "false" then
    Return {| cp_returncode := 1;
              cp_stdout := captured (rk_stdout kwargs) "";
              cp_stderr := captured (rk_stderr kwargs)
                             ("boom" ++ PyStr.newline);
              cp_pid := None |}
  else
    Return {| cp_returncode := 0;
              cp_stdout := captured (rk_stdout kwargs)
                             ("  hello" ++ PyStr.newline);
              cp_stderr := captured (rk_stderr kwargs) "";
              cp_pid := None |}.

(** A machine without any lookup helper: no program can be started. *)
Definition run_nothing (cmd_args : CmdArgs) (kwargs : RunKwargs)
  : Outcome CompletedProcess :=
  Raise (FileNotFoundError "[Errno 2] No such file or directory").

(** A clock that advances by one second at each reading. *)
Fixpoint steady (n : nat) : float :=
  match n with
  | O => 0%float
  | S n' => (steady n' + 1)%float
  end.

(** A clock set back by two seconds after its first reading. *)
Definition set_back (n : nat) : float :=
  match n with
  | O => 5%float
  | S _ => 3%float
  end.

(** A clock that jumps from [0.1] (the float nearest to a tenth) to
    [1e16]. *)
Definition jump (n : nat) : float :=
  match n with
  | O => 0x1.999999999999ap-4%float
  | S _ => 1e16%float
  end.

Definition files : list Path := ["/usr/bin/probe"; "/bin/probe"].

(** The directory [/secret] may not be searched: [is_file] raises on
    what it holds. *)
Definition file_test (p : Path) : Outcome bool :=
  if String.prefix "/secret/" p
  then Raise (PermissionError
                ("[Errno 13] Permission denied: '" ++ p ++ "'"))
  else Return (existsb (String.eqb p) files).

Definition world (windows : bool) (clk : nat -> float)
    (spawn : CmdArgs -> RunKwargs -> Outcome CompletedProcess) : World :=
  {| IS_WINDOWS := windows;
     clock := clk;
     os_run := spawn;
     is_file := file_test;
     os_access_X_OK := fun p => Return (String.eqb p "/usr/bin/probe");
     environ_PATH := Some "/usr/bin:/bin";
     path_join := fun d n => d ++ "/" ++ n;
     str_of_float := show_float;
     format_2f := show_2f |}.

Definition posix : World := world false steady run.
Definition bare : World := world false steady run_nothing.
Definition unsteady : World := world false set_back run.
Definition jumpy : World := world false jump run.
Definition windows : World := world true steady run.

(** The default options with [check=False]. *)
Definition no_check : Options :=
  {| cwd := None; env := None; timeout := None; capture_output := true;
     shell := false; encoding := "utf-8"; errors := "replace";
     check := false |}.

(** The default options with [timeout=2]. *)
Definition two_seconds : Options :=
  {| cwd := None; env := None; timeout := Some 2%float;
     capture_output := true; shell := false; encoding := "utf-8";
     errors := "replace"; check := true |}.

(** What [run] answers for [false] when both streams are captured. *)
Definition exit_1 : CompletedProcess :=
  {| cp_returncode := 1; cp_stdout := Some "";
     cp_stderr := Some ("boom" ++ PyStr.newline); cp_pid := None |}.

(** What [run] answers for [echo] when both streams are captured. *)
Definition exit_0 : CompletedProcess :=
  {| cp_returncode := 0; cp_stdout := Some ("  hello" ++ PyStr.newline);
     cp_stderr := Some ""; cp_pid := None |}.

End Demo.

(* ------------------------------------------------------------------ *)
(** ** [run_background] *)

(** What [run_background] hands to [subprocess.Popen]: an argument list,
    or (on Windows, for a command given as a string) the string itself. *)
Inductive PopenArgs :=
| ArgList (l : list string)
| ArgText (s : string).

(** The keyword arguments of the [subprocess.Popen] call. *)
Record PopenKwargs := {
  pk_cwd : option string;
  pk_env : option Env;
  pk_stdout : Redirect;
  pk_stderr : Redirect;
  pk_text : bool;
  pk_encoding : string;
  pk_start_new_session : bool
}.

Section Background.

Variable w : World.

(** The type of the [subprocess.Popen] objects. *)
Variable Popen : Type.

(** [subprocess.Popen(cmd_args, ...)]: the object, or the exception. *)
Variable os_popen : PopenArgs -> PopenKwargs -> Outcome Popen.

(** Lines 195-201 of [run_background]. *)
Definition background_args (command : Command) : Outcome PopenArgs :=
  match command with
  | CmdStr command =>
      if IS_WINDOWS w then Return (ArgText command)
      else outcome_map ArgList (Shlex.split command)
  | CmdList command => Return (ArgList command)
  end.

Definition background_kwargs (cwd : option string) (env : option Env)
  : PopenKwargs :=
  {| pk_cwd := match cwd with
               | Some c => if PyStr.is_empty c then None else Some c
               | None => None
               end;
     pk_env := env;
     pk_stdout := PIPE;
     pk_stderr := PIPE;
     pk_text := true;
     pk_encoding := "utf-8";
     pk_start_new_session := true |}.

Definition run_background (command : Command) (cwd : option string)
    (env : option Env) : Outcome Popen :=
  let body :=
    match background_args command with
    | Return cmd_args => os_popen cmd_args (background_kwargs cwd env)
    | Raise e => Raise e
    end in
  match body with
  | Return process => Return process
  | Raise e =>
      Raise (new_ProcessError
               ("Unable to start background process "
                ++ str_of_command command ++ ": " ++ exc_str e) "" None)
  end.

End Background.

(* ------------------------------------------------------------------ *)
(** ** More notions used to state properties *)

(** A character that both tokenisers read alike: no quote, no backslash,
    and whitespace for [str.split] only if it is whitespace for [shlex]. *)
Definition simple (c : ascii) : bool :=
  negb (Shlex.is_quote c) && negb (Shlex.is_escape c)
  && (Shlex.is_whitespace c || negb (PyStr.isspace c)).

(** A character that is neither a quote nor a backslash. *)
Definition unquoted (c : ascii) : bool :=
  negb (Shlex.is_quote c) && negb (Shlex.is_escape c).

(** The character [sep] does not occur in [s]. *)
Definition free_of (sep : ascii) (s : string) : bool :=
  PyStr.all_chars (fun c => negb (Ascii.eqb c sep)) s.

(** The world [w] with another [os.access], one that answers [f p]. *)
Definition with_access (w : World) (f : Path -> bool) : World :=
  {| IS_WINDOWS := IS_WINDOWS w;
     clock := clock w;
     os_run := os_run w;
     is_file := is_file w;
     os_access_X_OK := fun p => Return (f p);
     environ_PATH := environ_PATH w;
     path_join := path_join w;
     str_of_float := str_of_float w;
     format_2f := format_2f w |}.

(** An argument of [subprocess.run] seen as an argument of
    [subprocess.Popen]. *)
Definition as_popen_args (cmd_args : CmdArgs) : PopenArgs :=
  match cmd_args with
  | Argv l => ArgList l
  | ShellLine text => ArgText text
  end.

(** The options [run_capture] calls [run_safe] with, when its keyword
    arguments do not name [capture_output]. *)
Definition capture_options (kwargs : Kwargs) : Options :=
  {| cwd := kw_cwd kwargs;
     env := kw_env kwargs;
     timeout := kw_timeout kwargs;
     capture_output := true;
     shell := or_default (kw_shell kwargs) false;
     encoding := or_default (kw_encoding kwargs) "utf-8";
     errors := or_default (kw_errors kwargs) "replace";
     check := or_default (kw_check kwargs) true |}.

(** The message of the error raised by [run_background]. *)
Definition background_message (w : World) (command : Command) (e : PyExc)
  : string :=
  "Unable to start background process " ++ str_of_command command
  ++ ": " ++ exc_str e.

(** An example of [subprocess.Popen]: the object is the process
    identifier; [missing] is not installed. *)
Definition demo_popen (cmd_args : PopenArgs) (kwargs : PopenKwargs)
  : Outcome nat :=
  match cmd_args with
  | ArgList ("missing" :: _) =>
      Raise (FileNotFoundError
               "[Errno 2] No such file or directory: 'missing'")
  | _ => Return 4242
  end.

(** No keyword argument at all. *)
Definition no_kwargs : Kwargs :=
  {| kw_cwd := None; kw_env := None; kw_timeout := None;
     kw_capture_output := None; kw_shell := None; kw_encoding := None;
     kw_errors := None; kw_check := None |}.

(** The message starts with one of the three texts of [run_safe]. *)
Definition known_start (message : string) : bool :=
  String.prefix "Command not found: " message
  || String.prefix "Command execution timed out (" message
  || String.prefix "Error executing command " message.

(* ------------------------------------------------------------------ *)
(** ** Command lines, as they are written

    A command line is a sequence of words, each followed by a gap of
    whitespace.  On a POSIX platform a word is made of pieces: a
    character that stands for itself, a backslash and the character it
    protects, a text between single quotes, or a text between double
    quotes, inside which a backslash protects the next character.  Each
    piece has a source, the characters that are written, and a value,
    the characters that are meant. *)

Module Line.

(** Inside double quotes: a character, or a backslash and a character. *)
Inductive Quoted :=
| QChar (c : ascii)
| QEscaped (c : ascii).

Inductive Piece :=
| Plain (c : ascii)
| Escaped (c : ascii)
| SingleQuoted (body : string)
| DoubleQuoted (body : list Quoted).

Definition char (c : ascii) : string := String c EmptyString.

Fixpoint concat_map {A : Type} (f : A -> string) (l : list A) : string :=
  match l with
  | [] => EmptyString
  | x :: l' => f x ++ concat_map f l'
  end.

Definition quoted_source (x : Quoted) : string :=
  match x with
  | QChar c => char c
  | QEscaped c => String Shlex.backslash (char c)
  end.

(** Between double quotes a backslash is dropped before a backslash and
    before a double quote, and kept before anything else. *)
Definition quoted_value (x : Quoted) : string :=
  match x with
  | QChar c => char c
  | QEscaped c =>
      if Ascii.eqb c Shlex.backslash || Ascii.eqb c Shlex.dquote
      then char c
      else String Shlex.backslash (char c)
  end.

Definition quoted_ok (x : Quoted) : bool :=
  match x with
  | QChar c =>
      negb (Ascii.eqb c Shlex.dquote) && negb (Ascii.eqb c Shlex.backslash)
  | QEscaped _ => true
  end.

Definition source (p : Piece) : string :=
  match p with
  | Plain c => char c
  | Escaped c => String Shlex.backslash (char c)
  | SingleQuoted body => String Shlex.squote (body ++ char Shlex.squote)
  | DoubleQuoted body =>
      String Shlex.dquote (concat_map quoted_source body ++ char Shlex.dquote)
  end.

Definition value (p : Piece) : string :=
  match p with
  | Plain c => char c
  | Escaped c => char c
  | SingleQuoted body => body
  | DoubleQuoted body => concat_map quoted_value body
  end.

(** Whether the piece is written between quotes. *)
Definition is_quotation (p : Piece) : bool :=
  match p with
  | SingleQuoted _ | DoubleQuoted _ => true
  | _ => false
  end.

(** A plain character is no whitespace, quote or backslash; a text
    between single quotes holds no single quote. *)
Definition piece_ok (p : Piece) : bool :=
  match p with
  | Plain c => Shlex.plain c
  | Escaped _ => true
  | SingleQuoted body => free_of Shlex.squote body
  | DoubleQuoted body => forallb quoted_ok body
  end.

Definition Word := list Piece.

Definition word_source (word : Word) : string := concat_map source word.

Definition word_value (word : Word) : string := concat_map value word.

Definition word_ok (word : Word) : bool :=
  match word with
  | [] => false
  | _ => forallb piece_ok word
  end.

(** The words of a line, each written out and followed by its gap. *)
Fixpoint layout {A : Type} (src : A -> string) (l : list (A * string))
  : string :=
  match l with
  | [] => EmptyString
  | (a, gap) :: l' => src a ++ gap ++ layout src l'
  end.

(** Every gap is whitespace, and only the last one may be empty. *)
Fixpoint spaced {A : Type} (is_space : ascii -> bool)
    (l : list (A * string)) : bool :=
  match l with
  | [] => true
  | (_, gap) :: l' =>
      PyStr.all_chars is_space gap
      && match l' with
         | [] => true
         | _ => negb (PyStr.is_empty gap)
         end
      && spaced is_space l'
  end.

(** A word for [str.split()]: a non-empty text without whitespace. *)
Definition text_ok (t : string) : bool :=
  negb (PyStr.is_empty t) && no_space t.

End Line.

(* ------------------------------------------------------------------ *)
(** ** [core/platform.py]: the platform flags *)

Module Platform.

(** [str.lower] on one character, for the code points below 256: the
    letters A-Z and the letters U+00C0 .. U+00DE, the multiplication sign
    U+00D7 apart, are moved up by 32. *)
Definition lower_char (c : ascii) : ascii :=
  let n := nat_of_ascii c in
  if (((65 <=? n) && (n <=? 90))
      || ((192 <=? n) && (n <=? 222) && negb (n =? 215)))%nat
  then ascii_of_nat (n + 32) else c.

(** [s.lower()] *)
Fixpoint lower (s : string) : string :=
  match s with
  | EmptyString => EmptyString
  | String c s' => String (lower_char c) (lower s')
  end.

(** [sub in s] *)
Fixpoint contains (sub s : string) : bool :=
  String.prefix sub s
  || match s with
     | EmptyString => false
     | String _ s' => contains sub s'
     end.

(** The four constants, as functions of [sys.platform]. *)
Definition IS_WINDOWS (sys_platform : string) : bool :=
  String.eqb sys_platform "win32".

Definition IS_LINUX (sys_platform : string) : bool :=
  contains "linux" (lower sys_platform).

Definition IS_MACOS (sys_platform : string) : bool :=
  String.eqb sys_platform "darwin".

Definition IS_UNIX (sys_platform : string) : bool :=
  negb (IS_WINDOWS sys_platform).

(** [Platform.line_separator] *)
Definition line_separator (sys_platform : string) : string :=
  if IS_WINDOWS sys_platform
  then String (ascii_of_nat 13) PyStr.newline else PyStr.newline.

(** [Platform.path_separator] *)
Definition path_separator (sys_platform : string) : string :=
  if IS_WINDOWS sys_platform then ";" else ":".

End Platform.

(* ------------------------------------------------------------------ *)
(** ** [core/compat.py]: the platform decorators *)

Module Compat.

(** What calling a decorated function gives: the [RuntimeError] of the
    wrapper, or what the function itself gives. *)
Inductive Guarded (B : Type) : Type :=
| RuntimeError (message : string)
| Ran (result : B).
Arguments RuntimeError {B} message.
Arguments Ran {B} result.

Section Decorators.

Variable sys_platform : string.

(** [str(platforms)], the text of a list in a message. *)
Variable str_of_list : list string -> string.

(** [platform_names.get(key, False)] *)
Definition platform_names_get (key : string) : bool :=
  if String.eqb key "windows" then Platform.IS_WINDOWS sys_platform
  else if String.eqb key "linux" then Platform.IS_LINUX sys_platform
  else if String.eqb key "macos" then
    negb (Platform.IS_WINDOWS sys_platform)
    && negb (Platform.IS_LINUX sys_platform)
  else false.

(** [any(platform_names.get(p.lower(), False) for p in platforms)] *)
Definition supported (platforms : list string) : bool :=
  existsb (fun p => platform_names_get (Platform.lower p)) platforms.

Definition current_platform : string :=
  if Platform.IS_WINDOWS sys_platform then "windows"
  else if Platform.IS_LINUX sys_platform then "linux"
  else "macos".

(** The wrapper [platform_specific(platforms)(func)], called with [args];
    [name] is [func.__name__]. *)
Definition platform_specific {A B : Type} (platforms : list string)
    (name : string) (func : A -> B) (args : A) : Guarded B :=
  if negb (supported platforms) then
    RuntimeError ("Function " ++ name ++ " can only run at "
                  ++ str_of_list platforms ++ ",current platform: "
                  ++ current_platform)
  else Ran (func args).

Definition linux_only {A B : Type} := @platform_specific A B ["linux"].
Definition windows_only {A B : Type} := @platform_specific A B ["windows"].
Definition macos_only {A B : Type} := @platform_specific A B ["macos"].

End Decorators.

End Compat.

(* ------------------------------------------------------------------ *)
(** ** [files/operations.py]: removing, copying and moving

    The file system is a state of an arbitrary type [FS]; what [pathlib],
    [os] and [shutil] do to it is given by functions of the section.  A
    path is its text. *)

Module Files.

(** The exceptions of the module, by what its [except] clauses tell
    apart: [OSError] stands for [OSError] and all its subclasses
    ([PermissionError], [FileNotFoundError], [IOError], [shutil.Error]),
    [OtherError] for any exception that is neither. *)
Inductive FsExc :=
| OSError (text : string)
| FileOperationError (message : string)
| OtherError (text : string).

(** [str(e)] *)
Definition exc_text (e : FsExc) : string :=
  match e with
  | OSError t | FileOperationError t | OtherError t => t
  end.

Inductive FsOutcome (A : Type) : Type :=
| Done (a : A)
| Failed (e : FsExc).
Arguments Done {A} a.
Arguments Failed {A} e.

(** The results dictionary of [bulk_remove] and [bulk_copy]. *)
Record BulkResult := {
  success : nat;
  failed : nat;
  errors : list string
}.

Section Operations.

(** [IS_WINDOWS] *)
Variable is_windows : bool.

Variable FS : Type.

(** [Path.exists] and [Path.is_dir]: they read the state. *)
Variable path_exists : Path -> FS -> FsOutcome bool.
Variable path_is_dir : Path -> FS -> FsOutcome bool.

(** [os.chmod(path, stat.S_IWRITE)] *)
Variable os_chmod : Path -> FS -> FsOutcome unit * FS.
(** [shutil.rmtree(path, ignore_errors=True)] *)
Variable shutil_rmtree : Path -> FS -> FsOutcome unit * FS.
(** [Path.rmdir] and [Path.unlink] *)
Variable path_rmdir : Path -> FS -> FsOutcome unit * FS.
Variable path_unlink : Path -> FS -> FsOutcome unit * FS.
(** [shutil.copytree(src, dst, dirs_exist_ok=b, copy_function=f)];
    the last flag tells [copy2] (the default) from [copy]. *)
Variable shutil_copytree :
  Path -> Path -> bool -> bool -> FS -> FsOutcome unit * FS.
(** [dst.parent.mkdir(parents=True, exist_ok=True)] *)
Variable mkdir_parent : Path -> FS -> FsOutcome unit * FS.
(** [shutil.copy2], [shutil.copy] and [shutil.move] *)
Variable shutil_copy2 : Path -> Path -> FS -> FsOutcome unit * FS.
Variable shutil_copy : Path -> Path -> FS -> FsOutcome unit * FS.
Variable shutil_move : Path -> Path -> FS -> FsOutcome unit * FS.

Definition FM (A : Type) : Type := FS -> FsOutcome A * FS.

Definition ret {A : Type} (a : A) : FM A := fun fs => (Done a, fs).

Definition fail {A : Type} (e : FsExc) : FM A := fun fs => (Failed e, fs).

Definition bind {A B : Type} (m : FM A) (k : A -> FM B) : FM B :=
  fun fs =>
    match m fs with
    | (Done a, fs') => k a fs'
    | (Failed e, fs') => (Failed e, fs')
    end.

(** A call that only reads the state. *)
Definition read {A : Type} (f : FS -> FsOutcome A) : FM A :=
  fun fs => (f fs, fs).

(** [try: body  except (OSError, ...) as e: handler str(e)]: another
    exception goes through. *)
Definition except_OSError {A : Type} (body : FM A)
    (handler : string -> FM A) : FM A :=
  fun fs =>
    match body fs with
    | (Failed (OSError text), fs') => handler text fs'
    | other => other
    end.

(** [try: body  except: pass] *)
Definition except_pass (body : FM unit) : FM unit :=
  fun fs =>
    match body fs with
    | (Failed _, fs') => (Done tt, fs')
    | other => other
    end.

Definition safe_remove (path : Path) (recursive : bool) : FM bool :=
  except_OSError
    (bind (read (path_exists path)) (fun path_exists =>
     if negb path_exists then ret true else
     bind (if is_windows then except_pass (os_chmod path) else ret tt)
       (fun _ =>
     bind (read (path_is_dir path)) (fun is_dir =>
     bind (if is_dir then
             if recursive then shutil_rmtree path else path_rmdir path
           else path_unlink path) (fun _ =>
     ret true)))))
    (fun e =>
       fail (FileOperationError
               ("Cannot delete file " ++ path ++ ": " ++ e))).

Definition safe_copy (src dst : Path) (overwrite preserve_metadata : bool)
  : FM bool :=
  except_OSError
    (bind (read (path_exists src)) (fun src_exists =>
     if negb src_exists then
       fail (FileOperationError
               ("The source file does not exist: " ++ src))
     else
     bind (read (path_is_dir src)) (fun src_is_dir =>
     if src_is_dir then
       bind (read (path_exists dst)) (fun dst_exists =>
       if dst_exists && negb overwrite then
         fail (FileOperationError
                 ("The target directory already exists: " ++ dst))
       else
       bind (shutil_copytree src dst overwrite preserve_metadata) (fun _ =>
       ret true))
     else
       bind (read (path_exists dst)) (fun dst_exists =>
       bind (if dst_exists then
               if negb overwrite then
                 fail (FileOperationError
                         ("The target file already exists: " ++ dst))
               else mkdir_parent dst
             else ret tt) (fun _ =>
       bind (if preserve_metadata then shutil_copy2 src dst
             else shutil_copy src dst) (fun _ =>
       ret true))))))
    (fun e =>
       fail (FileOperationError
               ("Copy failed " ++ src ++ " -> " ++ dst ++ ": " ++ e))).

Definition safe_move (src dst : Path) (overwrite : bool) : FM bool :=
  except_OSError
    (bind (read (path_exists src)) (fun src_exists =>
     if negb src_exists then
       fail (FileOperationError
               ("The source file does not exist: " ++ src))
     else
     bind (read (path_exists dst)) (fun dst_exists =>
     bind (if dst_exists then
             if overwrite then bind (safe_remove dst true) (fun _ => ret tt)
             else fail (FileOperationError
                          ("The target file already exists: " ++ dst))
           else ret tt) (fun _ =>
     bind (shutil_move src dst) (fun _ =>
     ret true)))))
    (fun e =>
       fail (FileOperationError
               ("Move failed " ++ src ++ " -> " ++ dst ++ ": " ++ e))).

(** The loop of [bulk_remove], from the results counted so far. *)
Fixpoint bulk_remove_from (results : BulkResult) (paths : list Path)
    (recursive : bool) (fs : FS) : BulkResult * FS :=
  match paths with
  | [] => (results, fs)
  | path :: paths' =>
      match safe_remove path recursive fs with
      | (Done true, fs') =>
          bulk_remove_from
            {| success := success results + 1; failed := failed results;
               errors := errors results |} paths' recursive fs'
      | (Done false, fs') =>
          bulk_remove_from
            {| success := success results; failed := failed results + 1;
               errors := (errors results
                          ++ [("Failed to remove: " ++ path)%string])%list |}
            paths' recursive fs'
      | (Failed e, fs') =>
          bulk_remove_from
            {| success := success results; failed := failed results + 1;
               errors := (errors results
                          ++ [("Failed to remove " ++ path ++ ": "
                               ++ exc_text e)%string])%list |}
            paths' recursive fs'
      end
  end.

Definition bulk_remove (paths : list Path) (recursive : bool) (fs : FS)
  : BulkResult * FS :=
  bulk_remove_from {| success := 0; failed := 0; errors := [] |}
                   paths recursive fs.

(** The loop of [bulk_copy], from the results counted so far. *)
Fixpoint bulk_copy_from (results : BulkResult)
    (src_dst_pairs : list (Path * Path)) (overwrite : bool) (fs : FS)
  : BulkResult * FS :=
  match src_dst_pairs with
  | [] => (results, fs)
  | (src, dst) :: pairs' =>
      match safe_copy src dst overwrite true fs with
      | (Done true, fs') =>
          bulk_copy_from
            {| success := success results + 1; failed := failed results;
               errors := errors results |} pairs' overwrite fs'
      | (Done false, fs') =>
          bulk_copy_from
            {| success := success results; failed := failed results + 1;
               errors := (errors results
                          ++ [("Failed to copy: " ++ src ++ " -> "
                               ++ dst)%string])%list
            |} pairs' overwrite fs'
      | (Failed e, fs') =>
          bulk_copy_from
            {| success := success results; failed := failed results + 1;
               errors := (errors results
                          ++ [("Failed to copy " ++ src ++ " -> " ++ dst
                               ++ ": " ++ exc_text e)%string])%list |}
            pairs' overwrite fs'
      end
  end.

Definition bulk_copy (src_dst_pairs : list (Path * Path))
    (overwrite : bool) (fs : FS) : BulkResult * FS :=
  bulk_copy_from {| success := 0; failed := 0; errors := [] |}
                 src_dst_pairs overwrite fs.

End Operations.

End Files.

(* ------------------------------------------------------------------ *)
(** ** [fnmatch.fnmatch]

    The pattern is read as [fnmatch.translate] reads it: [*] stands for
    any text, [?] for any character, a bracket expression that is closed
    for one character of a class, and anything else for itself.  Which
    characters a class holds is left to the function [in_class]. *)

Module Fnmatch.

Inductive Item :=
| Star
| AnyChar
| Lit (c : ascii)
| Class (stuff : string).

(** The text before the first [ \] ], and the text after it. *)
Fixpoint until_bracket (s : string) : option (string * string) :=
  match s with
  | EmptyString => None
  | String c s' =>
      if Ascii.eqb c "]" then Some (EmptyString, s')
      else match until_bracket s' with
           | Some (stuff, rest) => Some (String c stuff, rest)
           | None => None
           end
  end.

(** After an opening bracket: a [!] and then a closing bracket, if they
    come first, belong to the class; the class ends at the next closing
    bracket.  [None] when there is none. *)
Definition bracket (s : string) : option (string * string) :=
  let (bang, s1) :=
    match s with
    | String "!" s' => ("!", s')
    | _ => ("", s)
    end in
  let (first, s2) :=
    match s1 with
    | String "]" s' => ("]", s')
    | _ => ("", s1)
    end in
  match until_bracket s2 with
  | Some (stuff, rest) => Some (bang ++ first ++ stuff, rest)
  | None => None
  end.

(** The items of a pattern; [fuel] bounds the number of items. *)
Fixpoint items (fuel : nat) (pat : string) : list Item :=
  match fuel with
  | O => []
  | S fuel' =>
      match pat with
      | EmptyString => []
      | String c rest =>
          if Ascii.eqb c "*" then Star :: items fuel' rest
          else if Ascii.eqb c "?" then AnyChar :: items fuel' rest
          else if Ascii.eqb c "[" then
            match bracket rest with
            | Some (stuff, rest') => Class stuff :: items fuel' rest'
            | None => Lit c :: items fuel' rest
            end
          else Lit c :: items fuel' rest
      end
  end.

Definition translate (pat : string) : list Item :=
  items (String.length pat) pat.

Section Matching.

(** Whether a character belongs to the class written between brackets. *)
Variable in_class : string -> ascii -> bool.

(** [k] holds of [name] or of one of its suffixes. *)
Fixpoint star (k : string -> bool) (name : string) : bool :=
  k name
  || match name with
     | EmptyString => false
     | String _ name' => star k name'
     end.

(** The whole of [name] matches the items. *)
Fixpoint matches (its : list Item) (name : string) : bool :=
  match its with
  | [] => PyStr.is_empty name
  | Star :: its' => star (matches its') name
  | AnyChar :: its' =>
      match name with
      | EmptyString => false
      | String _ name' => matches its' name'
      end
  | Lit c :: its' =>
      match name with
      | EmptyString => false
      | String d name' => Ascii.eqb c d && matches its' name'
      end
  | Class stuff :: its' =>
      match name with
      | EmptyString => false
      | String d name' => in_class stuff d && matches its' name'
      end
  end.

(** [fnmatch.fnmatchcase(name, pat)] *)
Definition fnmatchcase (name pat : string) : bool :=
  matches (translate pat) name.

(** [os.path.normcase] on one character: on Windows a slash becomes a
    backslash and letters are put in lower case. *)
Definition normcase_char (is_windows : bool) (c : ascii) : ascii :=
  if is_windows
  then Platform.lower_char (if Ascii.eqb c "/" then "\" else c)
  else c.

Fixpoint normcase (is_windows : bool) (s : string) : string :=
  match s with
  | EmptyString => EmptyString
  | String c s' =>
      String (normcase_char is_windows c) (normcase is_windows s')
  end.

(** [fnmatch.fnmatch(name, pat)] *)
Definition fnmatch (is_windows : bool) (name pat : string) : bool :=
  fnmatchcase (normcase is_windows name) (normcase is_windows pat).

End Matching.

End Fnmatch.

(* ------------------------------------------------------------------ *)
(** ** [files/operations.py]: [find_files] *)

Module Search.

Section FindFiles.

(** [IS_WINDOWS] *)
Variable is_windows : bool.

Variable FS : Type.

(** [root.rglob(pattern)] and [root.glob(pattern)], run to the end: the
    paths they yield, or the exception they end with.  The search reads
    the file system and does not change it, so its state is not threaded
    through. *)
Variable path_rglob : Path -> string -> FS -> Files.FsOutcome (list Path).
Variable path_glob : Path -> string -> FS -> Files.FsOutcome (list Path).
(** [Path.is_file] *)
Variable path_is_file : Path -> FS -> Files.FsOutcome bool.
(** [Path.name], the last component of a path *)
Variable path_name : Path -> string.
(** The classes of [fnmatch]. *)
Variable in_class : string -> ascii -> bool.
(** [p < q] on paths *)
Variable path_lt : Path -> Path -> bool.

(** [sorted]: a stable sort that uses [<] only.  A path goes behind the
    paths that are smaller and before the others, which come later in
    the list that is sorted. *)
Fixpoint insert (p : Path) (l : list Path) : list Path :=
  match l with
  | [] => [p]
  | q :: l' => if path_lt q p then q :: insert p l' else p :: l
  end.

Fixpoint sorted (l : list Path) : list Path :=
  match l with
  | [] => []
  | p :: l' => insert p (sorted l')
  end.

(** The loop of [find_files] over what the glob yields. *)
Fixpoint keep (case_sensitive : bool) (pattern : string)
    (candidates : list Path) (fs : FS) : Files.FsOutcome (list Path) :=
  match candidates with
  | [] => Files.Done []
  | file_path :: candidates' =>
      match path_is_file file_path fs with
      | Files.Failed e => Files.Failed e
      | Files.Done is_file =>
          let append :=
            if is_file then
              if negb case_sensitive then
                Fnmatch.fnmatch in_class is_windows
                  (Platform.lower (path_name file_path))
                  (Platform.lower pattern)
              else true
            else false in
          match keep case_sensitive pattern candidates' fs with
          | Files.Failed e => Files.Failed e
          | Files.Done results =>
              Files.Done (if append then file_path :: results else results)
          end
      end
  end.

Definition find_files (pattern : string) (root_dir : Path)
    (recursive : bool) (case_sensitive : option bool) (fs : FS)
  : Files.FsOutcome (list Path) :=
  let case_sensitive :=
    match case_sensitive with
    | None => negb is_windows
    | Some b => b
    end in
  let pattern :=
    if recursive && negb (Platform.contains "**" pattern)
    then "**/" ++ pattern else pattern in
  match (if recursive then path_rglob root_dir pattern fs
         else path_glob root_dir pattern fs) with
  | Files.Failed e => Files.Failed e
  | Files.Done candidates =>
      match keep case_sensitive pattern candidates fs with
      | Files.Failed e => Files.Failed e
      | Files.Done results => Files.Done (sorted results)
      end
  end.

(** One entry of the list [find_in_files] returns; [matched] is the
    key ['match'] of the dictionary. *)
Record Match := {
  file : Path;
  line : nat;
  content : string;
  matched : string
}.

(** What ends the reading of a file, by what the [except] clause of
    [find_in_files] tells apart: [IOError] stands for [OSError] and its
    subclasses, [OtherReadError] for an exception the clause does not
    catch.  The text is [str(e)]. *)
Inductive ReadExc :=
| UnicodeDecodeError (text : string)
| IOError (text : string)
| OtherReadError (text : string).

(** [open(file_path, 'r', encoding=encoding, errors=...)] read line by
    line: the lines it yields, and the exception that ends the reading,
    at the opening or later, if there is one.  The flag is [true] for
    [errors='ignore'] and [false] for [errors='strict']. *)
Variable open_lines :
  Path -> string -> bool -> FS -> list string * option ReadExc.

Definition is_newline (c : ascii) : bool :=
  (Ascii.eqb c "010" || Ascii.eqb c "013")%char.

(** [line.rstrip('\n\r')] *)
Fixpoint rstrip_newline (s : string) : string :=
  match s with
  | EmptyString => EmptyString
  | String c s' =>
      let r := rstrip_newline s' in
      if PyStr.is_empty r && is_newline c then EmptyString else String c r
  end.

(** The loop over the lines of one file, [line_num] being the number of
    the first of them: the entries it appends. *)
Fixpoint scan (pattern : string) (file_path : Path) (line_num : nat)
    (lines : list string) : list Match :=
  match lines with
  | [] => []
  | text :: lines' =>
      ((if Platform.contains pattern text
        then [{| file := file_path; line := line_num;
                 content := rstrip_newline text; matched := pattern |}]
        else [])
       ++ scan pattern file_path (S line_num) lines')%list
  end.

(** The loop over the files. *)
Fixpoint search (pattern encoding : string) (ignore_errors : bool)
    (files : list Path) (results : list Match) (fs : FS)
  : Files.FsOutcome (list Match) :=
  match files with
  | [] => Files.Done results
  | file_path :: files' =>
      let (lines, ended) := open_lines file_path encoding ignore_errors fs in
      let results := (results ++ scan pattern file_path 1 lines)%list in
      match ended with
      | None => search pattern encoding ignore_errors files' results fs
      | Some (UnicodeDecodeError e) | Some (IOError e) =>
          if negb ignore_errors
          then Files.Failed
                 (Files.FileOperationError
                    ("Failed to read file " ++ file_path ++ ": " ++ e))
          else search pattern encoding ignore_errors files' results fs
      | Some (OtherReadError e) => Files.Failed (Files.OtherError e)
      end
  end.

Definition find_in_files (pattern : string) (root_dir : Path)
    (file_pattern : string) (recursive : bool) (encoding : string)
    (ignore_errors : bool) (fs : FS) : Files.FsOutcome (list Match) :=
  match find_files file_pattern root_dir recursive None fs with
  | Files.Failed e => Files.Failed e
  | Files.Done files => search pattern encoding ignore_errors files [] fs
  end.

End FindFiles.

End Search.

(* ------------------------------------------------------------------ *)
(** ** An example file system *)

Module DemoFS.

(** The state is the list of the regular files; there are no
    directories.  The file [/ro/data] cannot be removed, and [/locked]
    cannot even be examined. *)
Definition FS := list Path.

Definition mem (p : Path) (fs : FS) : bool := existsb (String.eqb p) fs.

Definition without (p : Path) (fs : FS) : FS :=
  filter (fun q => negb (String.eqb p q)) fs.

Definition path_exists (p : Path) (fs : FS) : Files.FsOutcome bool :=
  if String.eqb p "/locked"
  then Files.Failed (Files.OSError "[Errno 13] Permission denied: '/locked'")
  else Files.Done (mem p fs).

Definition path_is_dir (p : Path) (fs : FS) : Files.FsOutcome bool :=
  Files.Done false.

Definition nothing (p : Path) (fs : FS) : Files.FsOutcome unit * FS :=
  (Files.Done tt, fs).

Definition path_unlink (p : Path) (fs : FS) : Files.FsOutcome unit * FS :=
  if String.eqb p "/ro/data"
  then (Files.Failed
          (Files.OSError "[Errno 30] Read-only file system: '/ro/data'"), fs)
  else (Files.Done tt, without p fs).

Definition shutil_copy (src dst : Path) (fs : FS)
  : Files.FsOutcome unit * FS :=
  (Files.Done tt, dst :: without dst fs).

Definition shutil_move (src dst : Path) (fs : FS)
  : Files.FsOutcome unit * FS :=
  (Files.Done tt, dst :: without dst (without src fs)).

Definition copytree (src dst : Path) (dirs_exist_ok metadata : bool)
    (fs : FS) : Files.FsOutcome unit * FS :=
  (Files.Done tt, fs).

Definition safe_remove := Files.safe_remove false FS path_exists path_is_dir
                            nothing nothing nothing path_unlink.

Definition safe_copy := Files.safe_copy FS path_exists path_is_dir copytree
                          nothing shutil_copy shutil_copy.

Definition safe_move := Files.safe_move false FS path_exists path_is_dir
                          nothing nothing nothing path_unlink shutil_move.

Definition bulk_remove := Files.bulk_remove false FS path_exists path_is_dir
                            nothing nothing nothing path_unlink.

Definition disk : FS := ["/tmp/a"; "/tmp/b"; "/ro/data"].

End DemoFS.

(* ------------------------------------------------------------------ *)
(** ** An example of a search *)

Module DemoSearch.

(** The last component of a path written with slashes. *)
Fixpoint name_from (acc : string) (p : string) : string :=
  match p with
  | EmptyString => acc
  | String c p' =>
      if Ascii.eqb c "/" then name_from EmptyString p'
      else name_from (acc ++ String c EmptyString) p'
  end.

Definition path_name (p : Path) : string := name_from EmptyString p.

(** A glob that yields every file of the state, whatever the pattern. *)
Definition everything (root : Path) (pattern : string) (fs : list Path)
  : Files.FsOutcome (list Path) :=
  Files.Done fs.

Definition path_is_file (p : Path) (fs : list Path) : Files.FsOutcome bool :=
  Files.Done true.

Definition no_class (stuff : string) (c : ascii) : bool := false.

Definition find_files :=
  Search.find_files false (list Path) everything everything path_is_file
    path_name no_class String.ltb.

Definition disk : list Path := ["/src/b.txt"; "/src/a.TXT"; "/src/lib/c.py"].

Definition newline : string := String "010" EmptyString.

(** The text of the files: [/src/lib/c.py] cannot be read. *)
Definition open_lines (p : Path) (encoding : string) (ignore : bool)
    (fs : list Path) : list string * option Search.ReadExc :=
  if String.eqb p "/src/a.TXT"
  then (["alpha" ++ newline; "beta" ++ newline; "alphabet"], None)
  else if String.eqb p "/src/b.txt"
  then (["gamma" ++ newline], None)
  else ([], Some (Search.IOError "Permission denied")).

Definition find_in_files :=
  Search.find_in_files false (list Path) everything everything path_is_file
    path_name no_class String.ltb open_lines.

(** The same disk seen from Windows, where both separators end a
    component. *)
Fixpoint win_name_from (acc : string) (p : string) : string :=
  match p with
  | EmptyString => acc
  | String c p' =>
      if (Ascii.eqb c "/" || Ascii.eqb c "\")%char
      then win_name_from EmptyString p'
      else win_name_from (acc ++ String c EmptyString) p'
  end.

Definition win_name (p : Path) : string := win_name_from EmptyString p.

Definition win_find_in_files :=
  Search.find_in_files true (list Path) everything everything path_is_file
    win_name no_class String.ltb open_lines.

End DemoSearch.

(* ------------------------------------------------------------------ *)
(** ** The functions at work *)

Example strip_both_ends : PyStr.strip "  hello  " = "hello".
Proof. reflexivity. Qed.

Example split_on_whitespace :
  PyStr.split " ls  -la 'my file' " = ["ls"; "-la"; "'my"; "file'"].
Proof. reflexivity. Qed.

Example shlex_quotation :
  Shlex.split "ls  -la 'my file' a\ b"
  = Return ["ls"; "-la"; "my file"; "a b"].
Proof. reflexivity. Qed.

Example shlex_empty_quotation : Shlex.split "a '' b" = Return ["a"; ""; "b"].
Proof. reflexivity. Qed.

Example shlex_open_quotation :
  Shlex.split "ls 'my file" = Raise (ValueError "No closing quotation").
Proof. reflexivity. Qed.

Example run_safe_open_quotation :
  raised (run_safe Demo.posix (CmdStr "ls 'my file") default_options
            initial_state)
  = Some (ProcessError
            "Error executing command ls 'my file: No closing quotation"
            "" None).
Proof. reflexivity. Qed.

Example run_safe_shell_list :
  spawns (snd (run_safe Demo.windows (CmdList ["dir"; "/b"])
                 {| cwd := Some ""; env := None; timeout := None;
                    capture_output := false; shell := true;
                    encoding := "utf-8"; errors := "replace";
                    check := true |} initial_state))
  = [(ShellLine "dir /b",
      {| rk_cwd := None; rk_env := None; rk_timeout := None;
         rk_shell := true; rk_stdout := DEVNULL; rk_stderr := DEVNULL;
         rk_text := None; rk_encoding := None; rk_errors := None |})].
Proof. reflexivity. Qed.

Example run_capture_echo :
  returned (run_capture Demo.posix (CmdList ["echo"; "  hello"])
              {| kw_cwd := None; kw_env := None; kw_timeout := None;
                 kw_capture_output := None; kw_shell := None;
                 kw_encoding := None; kw_errors := None; kw_check := None |}
              initial_state)
  = Some "hello".
Proof. reflexivity. Qed.

Example command_exists_which :
  command_exists Demo.posix "ls" initial_state
  = (Return true,
     [ClockRead 0%float;
      SpawnAttempt (Argv ["which"; "ls"]) (lookup_kwargs Demo.posix);
      ClockRead 1%float]).
Proof. reflexivity. Qed.

Example find_executable_first_directory :
  find_executable Demo.posix "probe" (Some ["/opt"; "/bin"; "/usr/bin"])
  = Return (Some "/bin/probe").
Proof. reflexivity. Qed.

Example find_executable_environment :
  find_executable Demo.posix "probe" None = Return (Some "/usr/bin/probe").
Proof. reflexivity. Qed.

Example find_executable_absent :
  find_executable Demo.windows "nonexistent-cmd-x7q9" (Some ["/a"; "/b"])
  = Return None.
Proof. reflexivity. Qed.

(** A list as Python prints it; [q] is the double quote. *)
Example str_of_list_quotes :
  let q := Line.char Shlex.dquote in
  PyStr.str_of_list ["echo"; "it's"; "a\b"; "tab" ++ Line.char (ascii_of_nat 9)]
  = "['echo', " ++ q ++ "it's" ++ q ++ ", 'a\\b', 'tab\t']".
Proof. reflexivity. Qed.

Example find_executable_unsearchable :
  find_executable Demo.posix "probe" (Some ["/opt"; "/secret"; "/bin"])
  = Raise (PermissionError "[Errno 13] Permission denied: '/secret/probe'").
Proof. reflexivity. Qed.

(** Escapes: a backslash outside quotes, inside single quotes and
    inside double quotes, where [q] is the double quote. *)
Example shlex_escapes :
  let q := Line.char Shlex.dquote in
  Shlex.split ("a\ b 'c\d' " ++ q ++ "e\" ++ q ++ "f\g" ++ q ++ " h''i")
  = Return ["a b"; "c\d"; "e" ++ q ++ "f\g"; "hi"].
Proof. reflexivity. Qed.

(* ------------------------------------------------------------------ *)
(** ** Facts about the text primitives *)

Lemma is_empty_true (s : string) : PyStr.is_empty s = true -> s = "".
Proof. destruct s; simpl; congruence. Qed.

Lemma rstrip_idempotent (s : string) :
  PyStr.rstrip (PyStr.rstrip s) = PyStr.rstrip s.
Proof.
  induction s as [|c s IH]; simpl; [reflexivity|].
  destruct (PyStr.is_empty (PyStr.rstrip s)) eqn:He; simpl.
  - destruct (PyStr.isspace c) eqn:Hc; simpl; [reflexivity|].
    rewrite IH, He, Hc. reflexivity.
  - rewrite IH, He. reflexivity.
Qed.

Lemma lstrip_head (c : ascii) (s : string) :
  PyStr.isspace c = false -> PyStr.lstrip (String c s) = String c s.
Proof. intros H; simpl; rewrite H; reflexivity. Qed.

Lemma rstrip_head (c : ascii) (s : string) :
  PyStr.isspace c = false ->
  PyStr.rstrip (String c s) = String c (PyStr.rstrip s).
Proof.
  intros H; simpl; rewrite H, andb_false_r; reflexivity.
Qed.

(** [lstrip s] is empty or starts with a character that is not
    whitespace. *)
Lemma lstrip_cases (s : string) :
  PyStr.lstrip s = "" \/
  exists c t, PyStr.lstrip s = String c t /\ PyStr.isspace c = false.
Proof.
  induction s as [|c s IH]; simpl; [left; reflexivity|].
  destruct (PyStr.isspace c) eqn:Hc; [exact IH|].
  right; exists c, s; split; [reflexivity|exact Hc].
Qed.

Lemma lstrip_idempotent (s : string) :
  PyStr.lstrip (PyStr.lstrip s) = PyStr.lstrip s.
Proof.
  destruct (lstrip_cases s) as [H | (c & t & H & Hc)]; rewrite H.
  - reflexivity.
  - apply lstrip_head; exact Hc.
Qed.

Lemma strip_lstrip (s : string) :
  PyStr.lstrip (PyStr.strip s) = PyStr.strip s.
Proof.
  unfold PyStr.strip.
  destruct (lstrip_cases s) as [H | (c & t & H & Hc)]; rewrite H.
  - reflexivity.
  - rewrite (rstrip_head _ _ Hc). apply lstrip_head; exact Hc.
Qed.

Lemma strip_idempotent (s : string) :
  PyStr.strip (PyStr.strip s) = PyStr.strip s.
Proof.
  unfold PyStr.strip at 1. rewrite strip_lstrip.
  unfold PyStr.strip. apply rstrip_idempotent.
Qed.

Lemma strip_trimmed (s : string) : trimmed (PyStr.strip s).
Proof.
  split; [apply strip_lstrip|].
  unfold PyStr.strip. apply rstrip_idempotent.
Qed.

Lemma lstrip_split (s : string) :
  exists l, s = l ++ PyStr.lstrip s /\ PyStr.all_chars PyStr.isspace l = true.
Proof.
  induction s as [|c s (l & Hl & Hs)]; simpl.
  - exists ""; split; reflexivity.
  - destruct (PyStr.isspace c) eqn:Hc.
    + exists (String c l); simpl; rewrite Hc, Hs, <- Hl; split; reflexivity.
    + exists ""; split; reflexivity.
Qed.

Lemma rstrip_split (s : string) :
  exists r, s = PyStr.rstrip s ++ r /\ PyStr.all_chars PyStr.isspace r = true.
Proof.
  induction s as [|c s (r & Hr & Hs)]; simpl.
  - exists ""; split; reflexivity.
  - destruct (PyStr.is_empty (PyStr.rstrip s)) eqn:He; simpl.
    + apply is_empty_true in He. rewrite He in Hr; simpl in Hr.
      destruct (PyStr.isspace c) eqn:Hc.
      * exists (String c r); simpl; rewrite Hc, Hs, <- Hr; split; reflexivity.
      * exists r; rewrite He; simpl; subst r; split;
          [reflexivity|exact Hs].
    + exists r; simpl; rewrite <- Hr; split; [reflexivity|exact Hs].
Qed.

(** [strip] removes a block of whitespace at each end and nothing else. *)
Lemma strip_split (s : string) :
  exists l r,
    s = l ++ PyStr.strip s ++ r /\
    PyStr.all_chars PyStr.isspace l = true /\
    PyStr.all_chars PyStr.isspace r = true.
Proof.
  destruct (lstrip_split s) as (l & Hl & Hls).
  destruct (rstrip_split (PyStr.lstrip s)) as (r & Hr & Hrs).
  exists l, r; unfold PyStr.strip; rewrite <- Hr, <- Hl; auto.
Qed.

Lemma strip_or_empty_strip (x : option string) :
  strip_or_empty x = match x with Some t => PyStr.strip t | None => "" end.
Proof.
  destruct x as [t|]; simpl; [|reflexivity].
  destruct (PyStr.is_empty t) eqn:He; [|reflexivity].
  apply is_empty_true in He; subst; reflexivity.
Qed.

Lemma append_empty_r (s : string) : s ++ "" = s.
Proof. induction s as [|c s IH]; simpl; [|rewrite IH]; reflexivity. Qed.

Lemma append_assoc (a b c : string) : (a ++ b) ++ c = a ++ (b ++ c).
Proof. induction a as [|x a IH]; simpl; [|rewrite IH]; reflexivity. Qed.

Lemma all_chars_app (p : ascii -> bool) (a b : string) :
  PyStr.all_chars p (a ++ b) = PyStr.all_chars p a && PyStr.all_chars p b.
Proof.
  induction a as [|x a IH]; simpl; [reflexivity|].
  rewrite IH, andb_assoc; reflexivity.
Qed.

(* ------------------------------------------------------------------ *)
(** ** Facts about the POSIX lexer *)

Lemma plain_inv (c : ascii) :
  Shlex.plain c = true ->
  Shlex.is_whitespace c = false /\ Shlex.is_quote c = false
  /\ Shlex.is_escape c = false.
Proof.
  unfold Shlex.plain; intros H.
  apply andb_true_iff in H as [H H3]. apply andb_true_iff in H as [H1 H2].
  rewrite negb_true_iff in H1, H2, H3. auto.
Qed.

(** A run of plain characters read inside a word joins the token. *)
Lemma tokens_word_run (p : string) :
  forall esc quoted tok rest,
    PyStr.all_chars Shlex.plain p = true ->
    Shlex.tokens Shlex.Word esc quoted tok (p ++ rest)
    = Shlex.tokens Shlex.Word esc quoted (tok ++ p) rest.
Proof.
  induction p as [|c p IH]; intros esc quoted tok rest Hp.
  - simpl; rewrite append_empty_r; reflexivity.
  - simpl in Hp. apply andb_true_iff in Hp as [Hc Hp].
    apply plain_inv in Hc as (Hw & Hq & He).
    cbn [append Shlex.tokens]. rewrite Hw, Hq, He.
    rewrite IH by exact Hp. unfold Shlex.snoc.
    rewrite append_assoc; reflexivity.
Qed.

(** Inside a quotation every character up to the closing quote joins the
    token, whitespace included, and the token is marked as quoted. *)
Lemma tokens_quote_run (q : ascii) (body : string) :
  forall esc quoted tok rest,
    PyStr.all_chars (Shlex.inside q) body = true ->
    Shlex.tokens (Shlex.Quote q) esc quoted tok (body ++ String q rest)
    = Shlex.tokens Shlex.Word esc true (tok ++ body) rest.
Proof.
  induction body as [|c body IH]; intros esc quoted tok rest Hb.
  - cbn [append Shlex.tokens]. rewrite Ascii.eqb_refl, append_empty_r.
    reflexivity.
  - simpl in Hb. apply andb_true_iff in Hb as [Hc Hb].
    unfold Shlex.inside in Hc. apply andb_true_iff in Hc as [Hc1 Hc2].
    rewrite negb_true_iff in Hc1, Hc2.
    cbn [append Shlex.tokens]. rewrite Hc1, Hc2.
    rewrite IH by exact Hb. unfold Shlex.snoc.
    rewrite append_assoc; reflexivity.
Qed.

(** A word, a quotation and a word, separated by spaces, are three
    tokens; the quotation is one token without its quotes. *)
Lemma split_word_quotation_word (a body b : string) (q : ascii) :
  a <> "" -> b <> "" ->
  PyStr.all_chars Shlex.plain a = true ->
  PyStr.all_chars Shlex.plain b = true ->
  Shlex.is_quote q = true ->
  PyStr.all_chars (Shlex.inside q) body = true ->
  Shlex.split (a ++ " " ++ String q (body ++ String q (" " ++ b)))
  = Return [a; body; b].
Proof.
  intros Ha Hb Hpa Hpb Hq Hbody.
  destruct a as [|a0 a]; [congruence|]. destruct b as [|b0 b]; [congruence|].
  simpl in Hpa, Hpb.
  apply andb_true_iff in Hpa as [Ha0 Hpa].
  apply andb_true_iff in Hpb as [Hb0 Hpb].
  apply plain_inv in Ha0 as (Hw & Hqa & He).
  apply plain_inv in Hb0 as (Hwb & Hqb & Heb).
  assert (Hqw : Shlex.is_whitespace q = false /\ Shlex.is_escape q = false).
  { unfold Shlex.is_quote in Hq. apply orb_true_iff in Hq as [Hq | Hq];
      apply Ascii.eqb_eq in Hq; subst q; split; reflexivity. }
  destruct Hqw as [Hqw Hqe].
  unfold Shlex.split. cbn [append Shlex.tokens]. rewrite Hw, He, Hqa.
  rewrite tokens_word_run by exact Hpa.
  cbn [append Shlex.tokens Shlex.is_whitespace Ascii.eqb Bool.eqb orb
       PyStr.is_empty negb].
  rewrite Hqw, Hqe, Hq.
  rewrite tokens_quote_run by exact Hbody.
  cbn [append Shlex.tokens Shlex.is_whitespace Ascii.eqb Bool.eqb orb
       PyStr.is_empty negb].
  rewrite orb_true_r. rewrite Hwb, Heb, Hqb.
  rewrite <- (append_empty_r b) at 1.
  rewrite tokens_word_run by exact Hpb.
  reflexivity.
Qed.

(** The lexer raises nothing but the two [ValueError]s of [read_token]. *)
Lemma tokens_raises (input : string) :
  forall state esc quoted tok e,
    Shlex.tokens state esc quoted tok input = Raise e ->
    e = ValueError "No closing quotation"
    \/ e = ValueError "No escaped character".
Proof.
  assert (Hemit : forall tok r e,
             Shlex.emit tok r = Raise e -> r = Raise e).
  { intros tok [l|e'] e He; simpl in He; congruence. }
  induction input as [|c input IH]; intros state esc quoted tok e H.
  - destruct state; simpl in H; inversion H; auto.
  - destruct state; cbn [Shlex.tokens] in H.
    + destruct (Shlex.is_whitespace c).
      * destruct (negb (PyStr.is_empty tok) || quoted);
          [apply Hemit in H|]; eapply IH; exact H.
      * destruct (Shlex.is_escape c); [eapply IH; exact H|].
        destruct (Shlex.is_quote c); eapply IH; exact H.
    + destruct (Shlex.is_whitespace c).
      * destruct (negb (PyStr.is_empty tok) || quoted);
          [apply Hemit in H|]; eapply IH; exact H.
      * destruct (Shlex.is_quote c); [eapply IH; exact H|].
        destruct (Shlex.is_escape c); eapply IH; exact H.
    + destruct (Ascii.eqb c q); [eapply IH; exact H|].
      destruct (Shlex.is_escape c && Shlex.is_escapedquote q);
        eapply IH; exact H.
    + eapply IH; exact H.
Qed.

(* ------------------------------------------------------------------ *)
(** ** How [run_safe] unfolds *)

Lemma ticks_app (s t : State) : ticks (s ++ t)%list = ticks s + ticks t.
Proof.
  induction s as [|[x|a k] s IH]; simpl; [reflexivity| |exact IH].
  rewrite IH; reflexivity.
Qed.

Lemma spawns_app (s t : State) :
  spawns (s ++ t)%list = (spawns s ++ spawns t)%list.
Proof.
  induction s as [|[x|a k] s IH]; simpl; [reflexivity|exact IH|].
  rewrite IH; reflexivity.
Qed.

Ltac unfold_run_safe :=
  cbv beta iota zeta delta
    [run_safe run_safe_body run_safe_handler bind try_except time_time
     lift subprocess_run ret raise raise_if_failed new_ProcessError].

Ltac tidy_trace :=
  repeat rewrite ticks_app; cbn [ticks];
  repeat rewrite <- app_assoc; cbn [app];
  repeat rewrite Nat.add_0_r; repeat rewrite Nat.add_1_r.

(** The spawn completed: [run_safe] returns the result, or raises when
    [check] is set and the exit code is not zero. *)
Lemma run_safe_completed (w : World) (cmd : Command) (o : Options)
    (s : State) (cmd_args : CmdArgs) (process : CompletedProcess) :
  cmd_args_of w cmd (shell o) = Return cmd_args ->
  os_run w cmd_args (kwargs_of o) = Return process ->
  run_safe w cmd o s
  = (if check o && negb (Z.eqb (cp_returncode process) 0)
     then Raise (ProcessError
                   (failure_message w cmd (cp_returncode process)
                      (strip_or_empty
                         (if capture_output o then cp_stderr process
                          else Some ""))) "" None)
     else Return (completed_result w cmd o (clock w (ticks s))
                    (clock w (S (ticks s))) process),
     run_trace w s cmd_args o).
Proof.
  intros Hargs Hrun. unfold_run_safe. rewrite Hargs.
  cbv beta iota. rewrite Hrun. cbv beta iota zeta.
  unfold run_trace, completed_result, failure_message. tidy_trace.
  cbn [success returncode stderr command].
  destruct (check o); cbn [andb].
  - destruct (Z.eqb (cp_returncode process) 0); cbn [negb PyStr.is_empty exc_str];
      reflexivity.
  - reflexivity.
Qed.

(** Tokenisation raised: the handler runs after the first clock reading,
    and nothing is spawned. *)
Lemma run_safe_tokenise_error (w : World) (cmd : Command) (o : Options)
    (s : State) (e : PyExc) :
  cmd_args_of w cmd (shell o) = Raise e ->
  run_safe w cmd o s
  = run_safe_handler w (clock w (ticks s)) cmd o e
      (s ++ [ClockRead (clock w (ticks s))])%list.
Proof.
  intros Hargs.
  cbv beta iota zeta delta [run_safe run_safe_body bind try_except time_time
                            lift].
  rewrite Hargs. reflexivity.
Qed.

(** The spawn raised: the handler runs after the spawn attempt. *)
Lemma run_safe_spawn_error (w : World) (cmd : Command) (o : Options)
    (s : State) (cmd_args : CmdArgs) (e : PyExc) :
  cmd_args_of w cmd (shell o) = Return cmd_args ->
  os_run w cmd_args (kwargs_of o) = Raise e ->
  run_safe w cmd o s
  = run_safe_handler w (clock w (ticks s)) cmd o e
      (s ++ [ClockRead (clock w (ticks s));
             SpawnAttempt cmd_args (kwargs_of o)])%list.
Proof.
  intros Hargs Hrun.
  cbv beta iota zeta delta [run_safe run_safe_body bind try_except time_time
                            lift subprocess_run].
  rewrite Hargs. cbv beta iota. rewrite Hrun. cbv beta iota.
  rewrite <- app_assoc. reflexivity.
Qed.

(** Every [except] clause raises a [ProcessError]. *)
Lemma run_safe_handler_raises (w : World) (start_time : float) (cmd : Command)
    (o : Options) (e : PyExc) (s : State) :
  exists message s',
    run_safe_handler w start_time cmd o e s
    = (Raise (ProcessError message "" None), s').
Proof.
  destruct e; cbv beta iota zeta delta
    [run_safe_handler bind time_time raise new_ProcessError PyStr.is_empty];
    eauto.
Qed.

(** Whatever happens, [run_safe] raises nothing but [ProcessError]. *)
Lemma run_safe_raises_ProcessError (w : World) (cmd : Command) (o : Options)
    (s s' : State) (e : PyExc) :
  run_safe w cmd o s = (Raise e, s') -> exc_type e = TyProcessError.
Proof.
  intros H.
  destruct (cmd_args_of w cmd (shell o)) as [cmd_args|e0] eqn:Hargs.
  - destruct (os_run w cmd_args (kwargs_of o)) as [process|e1] eqn:Hrun.
    + rewrite (run_safe_completed _ _ _ _ _ _ Hargs Hrun) in H.
      destruct (check o && negb (cp_returncode process =? 0)%Z);
        inversion H; reflexivity.
    + rewrite (run_safe_spawn_error _ _ _ _ _ _ Hargs Hrun) in H.
      destruct (run_safe_handler_raises w (clock w (ticks s)) cmd o e1
                  (s ++ [ClockRead (clock w (ticks s));
                         SpawnAttempt cmd_args (kwargs_of o)])%list)
        as (m & s1 & Hh).
      rewrite Hh in H; inversion H; reflexivity.
  - rewrite (run_safe_tokenise_error _ _ _ _ _ Hargs) in H.
    destruct (run_safe_handler_raises w (clock w (ticks s)) cmd o e0
                (s ++ [ClockRead (clock w (ticks s))])%list)
      as (m & s1 & Hh).
    rewrite Hh in H; inversion H; reflexivity.
Qed.

(** A returned result comes from a completed spawn. *)
Lemma run_safe_returned (w : World) (cmd : Command) (o : Options)
    (s s' : State) (r : CommandResult) :
  run_safe w cmd o s = (Return r, s') ->
  exists cmd_args process,
    cmd_args_of w cmd (shell o) = Return cmd_args /\
    os_run w cmd_args (kwargs_of o) = Return process /\
    (check o = false \/ cp_returncode process = 0%Z) /\
    r = completed_result w cmd o (clock w (ticks s))
          (clock w (S (ticks s))) process /\
    s' = run_trace w s cmd_args o.
Proof.
  intros H.
  destruct (cmd_args_of w cmd (shell o)) as [cmd_args|e0] eqn:Hargs.
  - destruct (os_run w cmd_args (kwargs_of o)) as [process|e1] eqn:Hrun.
    + rewrite (run_safe_completed _ _ _ _ _ _ Hargs Hrun) in H.
      exists cmd_args, process.
      destruct (check o) eqn:Hc; cbn [andb] in H.
      * destruct (cp_returncode process =? 0)%Z eqn:Hz; cbn [negb] in H;
          [|discriminate].
        apply Z.eqb_eq in Hz. inversion H; subst. auto 6.
      * inversion H; subst. auto 6.
    + rewrite (run_safe_spawn_error _ _ _ _ _ _ Hargs Hrun) in H.
      destruct (run_safe_handler_raises w (clock w (ticks s)) cmd o e1
                  (s ++ [ClockRead (clock w (ticks s));
                         SpawnAttempt cmd_args (kwargs_of o)])%list)
        as (m & s1 & Hh).
      rewrite Hh in H; discriminate.
  - rewrite (run_safe_tokenise_error _ _ _ _ _ Hargs) in H.
    destruct (run_safe_handler_raises w (clock w (ticks s)) cmd o e0
                (s ++ [ClockRead (clock w (ticks s))])%list)
      as (m & s1 & Hh).
    rewrite Hh in H; discriminate.
Qed.

(* ------------------------------------------------------------------ *)
(** ** Exit code and success flag *)

(** C1.  Whenever [run_safe] returns a [CommandResult], its [success] flag
    is exactly [returncode == 0]; the result comes from a child process
    that completed, [returncode] is the exit code [N] of that process and
    [success] is [N == 0].  Conversely a child process that exits with
    code [N] gives such a result, unless [check] is set and [N] is not
    zero. *)
Theorem run_safe_exit_code (w : World) (cmd : Command) (o : Options)
    (s : State) :
  (forall r s',
     run_safe w cmd o s = (Return r, s') ->
     success r = Z.eqb (returncode r) 0 /\
     exists cmd_args process,
       cmd_args_of w cmd (shell o) = Return cmd_args /\
       os_run w cmd_args (kwargs_of o) = Return process /\
       returncode r = cp_returncode process /\
       success r = Z.eqb (cp_returncode process) 0) /\
  (forall cmd_args process,
     cmd_args_of w cmd (shell o) = Return cmd_args ->
     os_run w cmd_args (kwargs_of o) = Return process ->
     check o = false \/ cp_returncode process = 0%Z ->
     exists r,
       run_safe w cmd o s = (Return r, run_trace w s cmd_args o) /\
       returncode r = cp_returncode process /\
       success r = Z.eqb (cp_returncode process) 0).
Proof.
  split.
  - intros r s' H.
    apply run_safe_returned in H
      as (cmd_args & process & Ha & Hr & _ & -> & _).
    split; [reflexivity|].
    exists cmd_args, process. auto.
  - intros cmd_args process Ha Hr Hok.
    rewrite (run_safe_completed _ _ _ _ _ _ Ha Hr).
    assert (Hc : check o && negb (Z.eqb (cp_returncode process) 0) = false).
    { destruct Hok as [Hc | Hz]; [rewrite Hc; reflexivity|].
      rewrite Hz, andb_false_r; reflexivity. }
    rewrite Hc. eexists. split; [reflexivity|]. split; reflexivity.
Qed.

Lemma run_safe_exit_code_witness :
  exists r s',
    run_safe Demo.posix (CmdList ["false"]) Demo.no_check initial_state
    = (Return r, s') /\
    returncode r = 1%Z /\ success r = false.
Proof.
  eexists; eexists. split; [reflexivity|].
  split; [reflexivity|].
  apply (proj1 (run_safe_exit_code Demo.posix (CmdList ["false"])
                  Demo.no_check initial_state) _ _ eq_refl).
Defined.

(* ------------------------------------------------------------------ *)
(** ** The [check] option *)

(** The text captured on a stream, as [run_safe] keeps it: stripped, and
    empty when the stream was not captured. *)
Lemma kept_text (o : Options) (x : option string) :
  strip_or_empty (if capture_output o then x else Some "")
  = match (if capture_output o then x else None) with
    | Some t => PyStr.strip t
    | None => ""
    end.
Proof. destruct (capture_output o); [apply strip_or_empty_strip|reflexivity]. Qed.

(** [repr] puts a text of literal characters between single quotes. *)
Lemma repr_literal (t : string) :
  PyStr.all_chars literal t = true -> PyStr.repr t = "'" ++ t ++ "'".
Proof.
  intros Ht.
  assert (Hq : PyStr.has_char "'" t = false).
  { induction t as [|c t IH]; [reflexivity|].
    cbn [PyStr.all_chars] in Ht. apply andb_true_iff in Ht as [Hc Ht].
    cbn [PyStr.has_char]. rewrite (IH Ht), orb_false_r.
    unfold literal in Hc. apply andb_true_iff in Hc as [Hc _].
    apply andb_true_iff in Hc as [_ Hc]. rewrite negb_true_iff in Hc.
    rewrite Ascii.eqb_sym. exact Hc. }
  unfold PyStr.repr. rewrite Hq. cbn [andb append]. f_equal. f_equal.
  induction t as [|c t IH]; [reflexivity|].
  cbn [PyStr.all_chars] in Ht. apply andb_true_iff in Ht as [Hc Ht].
  cbn [PyStr.has_char] in Hq. apply orb_false_iff in Hq as [_ Hq].
  cbn [PyStr.repr_chars]. rewrite (IH Ht Hq).
  unfold literal in Hc. apply andb_true_iff in Hc as [Hc Hb].
  apply andb_true_iff in Hc as [Hp Hs]. rewrite negb_true_iff in Hs, Hb.
  unfold PyStr.repr_char. rewrite Hs, Hb, Hp. cbn [orb].
  destruct (Ascii.eqb c (ascii_of_nat 9)) eqn:H9;
    [apply Ascii.eqb_eq in H9; subst c; discriminate Hp|].
  destruct (Ascii.eqb c (ascii_of_nat 10)) eqn:H10;
    [apply Ascii.eqb_eq in H10; subst c; discriminate Hp|].
  destruct (Ascii.eqb c (ascii_of_nat 13)) eqn:H13;
    [apply Ascii.eqb_eq in H13; subst c; discriminate Hp|].
  reflexivity.
Qed.

Lemma str_of_list_literal (l : list string) :
  Forall (fun t => PyStr.all_chars literal t = true) l ->
  PyStr.str_of_list l
  = "[" ++ PyStr.join ", " (map (fun t => "'" ++ t ++ "'") l) ++ "]".
Proof.
  intros Hl. unfold PyStr.str_of_list. f_equal. f_equal. f_equal.
  induction Hl as [|t l Ht Hl IH]; [reflexivity|].
  cbn [map]. rewrite IH, (repr_literal t Ht). reflexivity.
Qed.

(** C2.  When the child process completes with a non-zero exit code:
    with [check] set, [run_safe] raises a [ProcessError] (the one error
    class of the code) whose message is spelled out below: it holds the
    text of the command as it was given, twice, the exit code, and the
    captured stderr stripped at both ends (the empty text when the output
    is not captured); with [check] unset, it returns a [CommandResult]
    whose [success] is false, and raises nothing.  In both cases one
    process was spawned and the clock was read twice.  The text of a
    command given as a string is the string; that of a list is the list
    as Python prints it, which for items made of printable characters
    without single quote or backslash is the items between single
    quotes, separated by commas, between brackets. *)
Theorem run_safe_auto_raise (w : World) (cmd : Command) (o : Options)
    (s : State) (cmd_args : CmdArgs) (process : CompletedProcess) :
  cmd_args_of w cmd (shell o) = Return cmd_args ->
  os_run w cmd_args (kwargs_of o) = Return process ->
  cp_returncode process <> 0%Z ->
  let text :=
    match cmd with
    | CmdStr t => t
    | CmdList l => PyStr.str_of_list l
    end in
  let err :=
    match (if capture_output o then cp_stderr process else None) with
    | Some t => PyStr.strip t
    | None => ""
    end in
  (check o = true ->
   run_safe w cmd o s
   = (Raise (ProcessError
               ("Error executing command " ++ text
                ++ ": Command execution failed (code="
                ++ PyStr.str_of_int (cp_returncode process) ++ "): "
                ++ text ++ PyStr.newline ++ "Error Output: " ++ err)
               "" None),
      (s ++ [ClockRead (clock w (ticks s));
             SpawnAttempt cmd_args (kwargs_of o);
             ClockRead (clock w (S (ticks s)))])%list)) /\
  (check o = false ->
   exists r,
     run_safe w cmd o s
     = (Return r,
        (s ++ [ClockRead (clock w (ticks s));
               SpawnAttempt cmd_args (kwargs_of o);
               ClockRead (clock w (S (ticks s)))])%list) /\
     success r = false /\
     returncode r = cp_returncode process /\
     stderr r = err /\
     command r = text) /\
  (forall l,
     cmd = CmdList l ->
     Forall (fun t => PyStr.all_chars literal t = true) l ->
     text = "[" ++ PyStr.join ", " (map (fun t => "'" ++ t ++ "'") l) ++ "]").
Proof.
  intros Hargs Hrun Hcode text err.
  split; [|split];
    [| |intros l -> Hl; apply str_of_list_literal; exact Hl].
  all: revert text err; intros text err.
  all: assert (Htext : str_of_command cmd = text)
         by (destruct cmd; reflexivity).
  all: rewrite (run_safe_completed _ _ _ _ _ _ Hargs Hrun).
  all: apply Z.eqb_neq in Hcode; rewrite Hcode; cbn [negb].
  all: rewrite kept_text; fold err.
  all: unfold run_trace.
  all: intros Hcheck; rewrite Hcheck; cbn [andb].
  - unfold failure_message. rewrite Htext.
    repeat rewrite append_assoc. reflexivity.
  - eexists; split; [reflexivity|].
    cbn [completed_result success returncode stderr command].
    rewrite kept_text. auto.
Qed.

Lemma run_safe_auto_raise_witness :
  run_safe Demo.posix (CmdStr "false --now") default_options initial_state
  = (Raise (ProcessError
              ("Error executing command false --now: "
               ++ "Command execution failed (code=1): false --now"
               ++ PyStr.newline ++ "Error Output: boom")
              "" None),
     [ClockRead 0%float;
      SpawnAttempt (Argv ["false"; "--now"]) (kwargs_of default_options);
      ClockRead 1%float]).
Proof.
  destruct (run_safe_auto_raise Demo.posix (CmdStr "false --now")
              default_options initial_state (Argv ["false"; "--now"])
              Demo.exit_1 eq_refl eq_refl) as [Hraise _].
  - discriminate.
  - exact (Hraise eq_refl).
Defined.

(* ------------------------------------------------------------------ *)
(** ** The errors raised by [run_safe] *)

(** The executable was not found. *)
Lemma run_safe_not_found (w : World) (cmd : Command) (o : Options)
    (s : State) (cmd_args : CmdArgs) (text : string) :
  cmd_args_of w cmd (shell o) = Return cmd_args ->
  os_run w cmd_args (kwargs_of o) = Raise (FileNotFoundError text) ->
  run_safe w cmd o s
  = (Raise (ProcessError (not_found_message w cmd) "" None),
     (s ++ [ClockRead (clock w (ticks s));
            SpawnAttempt cmd_args (kwargs_of o)])%list).
Proof.
  intros Hargs Hrun.
  rewrite (run_safe_spawn_error _ _ _ _ _ _ Hargs Hrun). reflexivity.
Qed.

(** The timeout expired. *)
Lemma run_safe_timed_out (w : World) (cmd : Command) (o : Options)
    (s : State) (cmd_args : CmdArgs) (text : string) :
  cmd_args_of w cmd (shell o) = Return cmd_args ->
  os_run w cmd_args (kwargs_of o) = Raise (TimeoutExpired text) ->
  run_safe w cmd o s
  = (Raise (ProcessError
              (timeout_message w cmd (timeout o)
                 (PrimFloat.sub (clock w (S (ticks s))) (clock w (ticks s))))
              "" None),
     run_trace w s cmd_args o).
Proof.
  intros Hargs Hrun.
  rewrite (run_safe_spawn_error _ _ _ _ _ _ Hargs Hrun).
  cbv beta iota zeta delta
    [run_safe_handler bind time_time raise new_ProcessError PyStr.is_empty].
  unfold run_trace, timeout_message. tidy_trace. reflexivity.
Qed.

Lemma prefix_append (p x : string) : String.prefix p (p ++ x) = true.
Proof.
  induction p as [|a p IH]; simpl.
  - destruct x; reflexivity.
  - destruct (ascii_dec a a) as [_|Hne]; [exact IH|congruence].
Qed.

Lemma error_types_coincide :
  exists e1 e2 e3 e4,
    raised (run_safe Demo.posix (CmdList ["missing"]) default_options
              initial_state) = Some e1 /\
    raised (run_safe Demo.posix (CmdList ["locked"]) default_options
              initial_state) = Some e2 /\
    raised (run_safe Demo.posix (CmdList ["false"]) default_options
              initial_state) = Some e3 /\
    raised (run_safe Demo.posix (CmdList ["sleep"; "60"]) Demo.two_seconds
              initial_state) = Some e4 /\
    os_run Demo.posix (Argv ["missing"]) (kwargs_of default_options)
    = Raise (FileNotFoundError
               "[Errno 2] No such file or directory: 'missing'") /\
    os_run Demo.posix (Argv ["locked"]) (kwargs_of default_options)
    = Raise (PermissionError "[Errno 13] Permission denied: 'locked'") /\
    os_run Demo.posix (Argv ["false"]) (kwargs_of default_options)
    = Return Demo.exit_1 /\
    os_run Demo.posix (Argv ["sleep"; "60"]) (kwargs_of Demo.two_seconds)
    = Raise (TimeoutExpired
               "Command '['sleep', '60']' timed out after 2.0 seconds") /\
    exc_type e1 = TyProcessError /\ exc_type e2 = TyProcessError /\
    exc_type e3 = TyProcessError /\ exc_type e4 = TyProcessError.
Proof.
  do 4 eexists. repeat split; reflexivity.
Qed.

(** Tokenisation raises nothing but a [ValueError]. *)
Lemma cmd_args_of_raises (w : World) (cmd : Command) (shell : bool)
    (e : PyExc) :
  cmd_args_of w cmd shell = Raise e -> exists text, e = ValueError text.
Proof.
  unfold cmd_args_of. destruct cmd as [t|l], shell; try discriminate.
  destruct (IS_WINDOWS w); [discriminate|].
  destruct (Shlex.split t) as [l|e'] eqn:Hsplit; [discriminate|].
  intros H. inversion H; subst.
  destruct (tokens_raises _ _ _ _ _ _ Hsplit) as [-> | ->]; eauto.
Qed.

(** C3, as the code has it.  Whatever goes wrong, [run_safe] raises
    nothing but the one class [ProcessError], with the [command] and
    [exit_code] attributes not set; the cases differ by the message
    only.  A [FileNotFoundError] of the spawn (the executable cannot be
    located) gives [Command not found: ] and the text of the command; a
    timeout gives [Command execution timed out (], the configured
    timeout, the text of the command and the elapsed time, which is the
    difference of the two clock readings formatted with two decimals;
    any other exception of the spawn (an executable that cannot be
    started) gives [Error executing command ], the text of the command
    and the text of the exception, and so does a command that cannot be
    tokenised; and a non-zero exit code under [check] gives
    [Error executing command ] as well, followed by the exit code, the
    command and the kept stderr.  The first two messages start with texts
    of their own; the others start alike. *)
Theorem run_safe_error_messages (w : World) (cmd : Command) (o : Options)
    (s : State) :
  let text :=
    match cmd with
    | CmdStr t => t
    | CmdList l => PyStr.str_of_list l
    end in
  let start_time := clock w (ticks s) in
  let now := clock w (S (ticks s)) in
  match cmd_args_of w cmd (shell o) with
  | Raise e =>
      run_safe w cmd o s
      = (Raise (ProcessError
                  ("Error executing command " ++ text ++ ": " ++ exc_str e)
                  "" None),
         (s ++ [ClockRead start_time])%list)
  | Return cmd_args =>
      let spawned :=
        (s ++ [ClockRead start_time;
               SpawnAttempt cmd_args (kwargs_of o)])%list in
      match os_run w cmd_args (kwargs_of o) with
      | Raise (FileNotFoundError _) =>
          run_safe w cmd o s
          = (Raise (ProcessError
                      ("Command not found: " ++ text ++ PyStr.newline
                       ++ "Please ensure the command is installed and in PATH")
                      "" None),
             spawned)
      | Raise (TimeoutExpired _) =>
          run_safe w cmd o s
          = (Raise (ProcessError
                      ("Command execution timed out ("
                       ++ match timeout o with
                          | None => "None"
                          | Some t => str_of_float w t
                          end
                       ++ "sec ): " ++ text ++ PyStr.newline
                       ++ "Elapsed Time: "
                       ++ format_2f w (now - start_time)%float ++ "sec")
                      "" None),
             (spawned ++ [ClockRead now])%list)
      | Raise e =>
          run_safe w cmd o s
          = (Raise (ProcessError
                      ("Error executing command " ++ text ++ ": "
                       ++ exc_str e)
                      "" None),
             spawned)
      | Return process =>
          if check o && negb (Z.eqb (cp_returncode process) 0)
          then
            run_safe w cmd o s
            = (Raise (ProcessError
                        ("Error executing command " ++ text
                         ++ ": Command execution failed (code="
                         ++ PyStr.str_of_int (cp_returncode process) ++ "): "
                         ++ text ++ PyStr.newline ++ "Error Output: "
                         ++ match (if capture_output o
                                   then cp_stderr process else None) with
                            | Some t => PyStr.strip t
                            | None => ""
                            end)
                        "" None),
               (spawned ++ [ClockRead now])%list)
          else
            exists r,
              run_safe w cmd o s
              = (Return r, (spawned ++ [ClockRead now])%list)
      end
  end /\
  (forall a b c : string,
     "Command not found: " ++ a <> "Command execution timed out (" ++ b /\
     "Command not found: " ++ a <> "Error executing command " ++ c /\
     "Command execution timed out (" ++ b <> "Error executing command " ++ c).
Proof.
  intros text start_time now.
  assert (Htext : str_of_command cmd = text) by (destruct cmd; reflexivity).
  split; [|intros a b c; repeat split; intros H; discriminate H].
  destruct (cmd_args_of w cmd (shell o)) as [cmd_args|e0] eqn:Hargs.
  - cbv zeta.
    set (spawned := (s ++ [ClockRead start_time;
                           SpawnAttempt cmd_args (kwargs_of o)])%list).
    destruct (os_run w cmd_args (kwargs_of o)) as [process|e] eqn:Hrun.
    + rewrite (run_safe_completed _ _ _ _ _ _ Hargs Hrun).
      unfold run_trace, spawned. rewrite <- app_assoc. cbn [app].
      destruct (check o && negb (Z.eqb (cp_returncode process) 0)).
      * unfold failure_message. rewrite Htext, kept_text.
        repeat rewrite append_assoc. reflexivity.
      * eexists. reflexivity.
    + assert (Hother :
        run_safe_handler w start_time cmd o e spawned
        = (Raise (ProcessError
                    ("Error executing command " ++ text ++ ": " ++ exc_str e)
                    "" None), spawned) ->
        run_safe w cmd o s
        = (Raise (ProcessError
                    ("Error executing command " ++ text ++ ": " ++ exc_str e)
                    "" None), spawned)).
      { intros H. rewrite (run_safe_spawn_error _ _ _ _ _ _ Hargs Hrun).
        exact H. }
      destruct e; try (apply Hother; unfold run_safe_handler, raise,
                         new_ProcessError; rewrite Htext; reflexivity).
      * rewrite (run_safe_timed_out _ _ _ _ _ _ Hargs Hrun).
        unfold timeout_message, str_of_timeout, run_trace, spawned.
        rewrite Htext, <- app_assoc. reflexivity.
      * rewrite (run_safe_not_found _ _ _ _ _ _ Hargs Hrun).
        unfold not_found_message. rewrite Htext. reflexivity.
  - rewrite (run_safe_tokenise_error _ _ _ _ _ Hargs).
    destruct (cmd_args_of_raises _ _ _ _ Hargs) as [t ->].
    unfold run_safe_handler, raise, new_ProcessError. rewrite Htext.
    reflexivity.
Qed.

(** The four failures of the spawn, on the example machine. *)
Example run_safe_messages_at_work :
  let message r := option_map exc_str (raised r) in
  message (run_safe Demo.posix (CmdStr "missing --now") default_options
             initial_state)
  = Some ("Command not found: missing --now" ++ PyStr.newline
          ++ "Please ensure the command is installed and in PATH") /\
  message (run_safe Demo.posix (CmdStr "locked --now") default_options
             initial_state)
  = Some ("Error executing command locked --now: "
          ++ "[Errno 13] Permission denied: 'locked'") /\
  message (run_safe Demo.posix (CmdStr "false --now") default_options
             initial_state)
  = Some ("Error executing command false --now: "
          ++ "Command execution failed (code=1): false --now"
          ++ PyStr.newline ++ "Error Output: boom") /\
  message (run_safe Demo.posix (CmdStr "sleep 60") Demo.two_seconds
             initial_state)
  = Some ("Command execution timed out (2.0sec ): sleep 60"
          ++ PyStr.newline ++ "Elapsed Time: 1.00sec").
Proof. repeat split; reflexivity. Qed.

(* ------------------------------------------------------------------ *)
(** ** Tokenisation *)

(** The [except] clauses spawn nothing. *)
Lemma run_safe_handler_spawns (w : World) (start_time : float) (cmd : Command)
    (o : Options) (e : PyExc) (s : State) :
  spawns (snd (run_safe_handler w start_time cmd o e s)) = spawns s.
Proof.
  destruct e; cbv beta iota zeta delta
    [run_safe_handler bind time_time raise new_ProcessError PyStr.is_empty
     snd]; try reflexivity.
  rewrite spawns_app; cbn [spawns]. apply app_nil_r.
Qed.

(** Once the command is tokenised, [run_safe] makes one spawn attempt,
    with the tokens and the keyword arguments built from the options. *)
Lemma run_safe_spawns_once (w : World) (cmd : Command) (o : Options)
    (s : State) (cmd_args : CmdArgs) :
  cmd_args_of w cmd (shell o) = Return cmd_args ->
  spawns (snd (run_safe w cmd o s))
  = (spawns s ++ [(cmd_args, kwargs_of o)])%list.
Proof.
  intros Hargs.
  destruct (os_run w cmd_args (kwargs_of o)) as [process|e] eqn:Hrun.
  - rewrite (run_safe_completed _ _ _ _ _ _ Hargs Hrun). cbn [snd].
    unfold run_trace. rewrite spawns_app. reflexivity.
  - rewrite (run_safe_spawn_error _ _ _ _ _ _ Hargs Hrun).
    rewrite run_safe_handler_spawns, spawns_app. reflexivity.
Qed.

(** C4.  An explicit list of arguments, with shell mode not requested, is
    used as it is on every platform: the tokenisation step returns the same
    list, and the one process [run_safe] spawns gets exactly that list. *)
Theorem explicit_list_unchanged (w : World) (l : list string) (o : Options)
    (s : State) :
  shell o = false ->
  cmd_args_of w (CmdList l) (shell o) = Return (Argv l) /\
  spawns (snd (run_safe w (CmdList l) o s))
  = (spawns s ++ [(Argv l, kwargs_of o)])%list.
Proof.
  intros Hshell.
  assert (Hargs : cmd_args_of w (CmdList l) (shell o) = Return (Argv l)).
  { rewrite Hshell. reflexivity. }
  split; [exact Hargs|]. apply run_safe_spawns_once; exact Hargs.
Qed.

Lemma explicit_list_unchanged_witness :
  cmd_args_of Demo.windows (CmdList ["echo"; "a  'b"]) false
  = Return (Argv ["echo"; "a  'b"]) /\
  cmd_args_of Demo.posix (CmdList ["echo"; "a  'b"]) false
  = Return (Argv ["echo"; "a  'b"]).
Proof.
  split.
  - apply (explicit_list_unchanged Demo.windows ["echo"; "a  'b"]
             default_options initial_state eq_refl).
  - apply (explicit_list_unchanged Demo.posix ["echo"; "a  'b"]
             default_options initial_state eq_refl).
Defined.

(** The state the lexer would return to after an escape plays no part
    outside an escape. *)
Lemma tokens_escapedstate (input : string) :
  forall state esc esc' quoted tok,
    match state with Shlex.Escape _ => False | _ => True end ->
    Shlex.tokens state esc quoted tok input
    = Shlex.tokens state esc' quoted tok input.
Proof.
  induction input as [|c input IH]; intros state esc esc' quoted tok Hstate.
  - destruct state; reflexivity.
  - destruct state; cbn [Shlex.tokens]; [| | |destruct Hstate].
    + destruct (Shlex.is_whitespace c).
      * destruct (negb (PyStr.is_empty tok) || quoted);
          [reflexivity|apply IH; exact I].
      * destruct (Shlex.is_escape c); [reflexivity|].
        destruct (Shlex.is_quote c); apply IH; exact I.
    + destruct (Shlex.is_whitespace c).
      * destruct (negb (PyStr.is_empty tok) || quoted);
          [reflexivity|apply IH; exact I].
      * destruct (Shlex.is_quote c); [apply IH; exact I|].
        destruct (Shlex.is_escape c); [reflexivity|apply IH; exact I].
    + destruct (Ascii.eqb c q); [apply IH; exact I|].
      destruct (Shlex.is_escape c && Shlex.is_escapedquote q);
        [reflexivity|apply IH; exact I].
Qed.

(** Between double quotes: each character joins the token, a backslash
    with the character it protects as [Line.quoted_value] says. *)
Lemma tokens_double_quoted (body : list Line.Quoted) :
  forall esc quoted tok rest,
    forallb Line.quoted_ok body = true ->
    Shlex.tokens (Shlex.Quote Shlex.dquote) esc quoted tok
      (Line.concat_map Line.quoted_source body ++ String Shlex.dquote rest)
    = Shlex.tokens Shlex.Word esc true
        (tok ++ Line.concat_map Line.quoted_value body) rest.
Proof.
  induction body as [|x body IH]; intros esc quoted tok rest Hok.
  - cbn [Line.concat_map append Shlex.tokens].
    rewrite Ascii.eqb_refl, append_empty_r. reflexivity.
  - cbn [forallb] in Hok. apply andb_true_iff in Hok as [Hx Hok].
    cbn [Line.concat_map]. rewrite append_assoc.
    destruct x as [c|c]; cbn [Line.quoted_source Line.quoted_value Line.char
                               append Shlex.tokens].
    + cbn [Line.quoted_ok] in Hx. apply andb_true_iff in Hx as [Hq He].
      rewrite negb_true_iff in Hq, He.
      unfold Shlex.is_escape. rewrite Hq, He. cbn [andb].
      rewrite IH by exact Hok. unfold Shlex.snoc.
      rewrite append_assoc. reflexivity.
    + change (Ascii.eqb Shlex.backslash Shlex.dquote) with false.
      change (Shlex.is_escape Shlex.backslash
              && Shlex.is_escapedquote Shlex.dquote) with true.
      cbn iota.
      rewrite (tokens_escapedstate _ (Shlex.Quote Shlex.dquote)
                 (Shlex.Quote Shlex.dquote) esc) by exact I.
      rewrite IH by exact Hok. f_equal.
      unfold Shlex.snoc.
      destruct (Ascii.eqb c Shlex.backslash) eqn:Hb;
        destruct (Ascii.eqb c Shlex.dquote) eqn:Hd;
        cbn [negb andb orb]; rewrite ?append_assoc; reflexivity.
Qed.

(** A piece read inside a word joins the token with its value. *)
Lemma tokens_piece (p : Line.Piece) :
  Line.piece_ok p = true ->
  forall esc quoted tok rest,
    Shlex.tokens Shlex.Word esc quoted tok (Line.source p ++ rest)
    = Shlex.tokens Shlex.Word esc (quoted || Line.is_quotation p)
        (tok ++ Line.value p) rest.
Proof.
  intros Hok esc quoted tok rest.
  destruct p as [c|c|body|body];
    cbn [Line.source Line.value Line.is_quotation Line.char append
         Shlex.tokens]; rewrite ?orb_false_r, ?orb_true_r.
  - cbn [Line.piece_ok] in Hok. apply plain_inv in Hok as (Hw & Hq & He).
    rewrite Hw, Hq, He. reflexivity.
  - change (Shlex.is_whitespace Shlex.backslash) with false.
    change (Shlex.is_quote Shlex.backslash) with false.
    change (Shlex.is_escape Shlex.backslash) with true.
    cbn iota.
    apply (tokens_escapedstate rest Shlex.Word); exact I.
  - change (Shlex.is_whitespace Shlex.squote) with false.
    change (Shlex.is_quote Shlex.squote) with true.
    cbn iota. rewrite append_assoc.
    apply tokens_quote_run.
    cbn [Line.piece_ok] in Hok. unfold free_of in Hok.
    clear - Hok. induction body as [|c body IH]; [reflexivity|].
    cbn [PyStr.all_chars] in *. apply andb_true_iff in Hok as [Hc Hok].
    rewrite (IH Hok), andb_true_r. unfold Shlex.inside.
    rewrite Hc. change (Shlex.is_escapedquote Shlex.squote) with false.
    rewrite andb_false_r. reflexivity.
  - change (Shlex.is_whitespace Shlex.dquote) with false.
    change (Shlex.is_quote Shlex.dquote) with true.
    cbn iota. rewrite append_assoc.
    apply tokens_double_quoted. exact Hok.
Qed.

(** The first piece of a word. *)
Lemma tokens_first_piece (p : Line.Piece) :
  Line.piece_ok p = true ->
  forall esc rest,
    Shlex.tokens Shlex.Space esc false "" (Line.source p ++ rest)
    = Shlex.tokens Shlex.Word esc (Line.is_quotation p) (Line.value p) rest.
Proof.
  intros Hok esc rest.
  pose proof (tokens_piece p Hok esc false "" rest) as Hword.
  cbn [orb append] in Hword. rewrite <- Hword. clear Hword.
  destruct p as [c|c|body|body];
    cbn [Line.source Line.char append Shlex.tokens].
  - cbn [Line.piece_ok] in Hok. apply plain_inv in Hok as (Hw & Hq & He).
    rewrite Hw, Hq, He. reflexivity.
  - reflexivity.
  - reflexivity.
  - reflexivity.
Qed.

Lemma tokens_pieces (word : Line.Word) :
  forallb Line.piece_ok word = true ->
  forall esc quoted tok rest,
    Shlex.tokens Shlex.Word esc quoted tok (Line.word_source word ++ rest)
    = Shlex.tokens Shlex.Word esc
        (quoted || existsb Line.is_quotation word)
        (tok ++ Line.word_value word) rest.
Proof.
  unfold Line.word_source, Line.word_value.
  induction word as [|p word IH]; intros Hok esc quoted tok rest.
  - cbn. rewrite orb_false_r, append_empty_r. reflexivity.
  - cbn [forallb] in Hok. apply andb_true_iff in Hok as [Hp Hok].
    cbn [Line.concat_map existsb]. rewrite append_assoc.
    rewrite (tokens_piece p Hp), (IH Hok).
    rewrite orb_assoc, append_assoc. reflexivity.
Qed.

(** A word read from between two words: the lexer is inside the word,
    with its value as the token, when the source has been read. *)
Lemma tokens_word (word : Line.Word) :
  Line.word_ok word = true ->
  forall esc rest,
    exists quoted,
      Shlex.tokens Shlex.Space esc false "" (Line.word_source word ++ rest)
      = Shlex.tokens Shlex.Word esc quoted (Line.word_value word) rest /\
      negb (PyStr.is_empty (Line.word_value word)) || quoted = true.
Proof.
  intros Hok esc rest. destruct word as [|p word]; [discriminate|].
  cbn [Line.word_ok forallb] in Hok. apply andb_true_iff in Hok as [Hp Hok].
  exists (Line.is_quotation p || existsb Line.is_quotation word).
  split.
  - unfold Line.word_source, Line.word_value. cbn [Line.concat_map].
    rewrite append_assoc, (tokens_first_piece p Hp).
    apply (tokens_pieces word Hok).
  - unfold Line.word_value. cbn [Line.concat_map].
    destruct p as [c|c|body|body]; cbn [Line.is_quotation Line.value Line.char
                                         append PyStr.is_empty negb orb];
      rewrite ?orb_true_r; reflexivity.
Qed.

(** Whitespace between two words is skipped. *)
Lemma tokens_gap (gap : string) :
  PyStr.all_chars Shlex.is_whitespace gap = true ->
  forall esc rest,
    Shlex.tokens Shlex.Space esc false "" (gap ++ rest)
    = Shlex.tokens Shlex.Space esc false "" rest.
Proof.
  induction gap as [|c gap IH]; intros Hgap esc rest; [reflexivity|].
  cbn [PyStr.all_chars] in Hgap. apply andb_true_iff in Hgap as [Hc Hgap].
  cbn [append Shlex.tokens]. rewrite Hc. cbn. apply IH; exact Hgap.
Qed.

(** Whitespace after a word ends the token. *)
Lemma tokens_word_end (gap : string) :
  PyStr.all_chars Shlex.is_whitespace gap = true ->
  forall esc quoted tok rest,
    negb (PyStr.is_empty tok) || quoted = true ->
    (PyStr.is_empty gap = true -> rest = "") ->
    Shlex.tokens Shlex.Word esc quoted tok (gap ++ rest)
    = Shlex.emit tok (Shlex.tokens Shlex.Space Shlex.Space false "" rest).
Proof.
  intros Hgap esc quoted tok rest Htok Hlast.
  destruct gap as [|c gap].
  - rewrite (Hlast eq_refl). cbn [append Shlex.tokens].
    unfold Shlex.at_end, Shlex.emit. cbn [outcome_map PyStr.is_empty negb andb].
    destruct (PyStr.is_empty tok), quoted; try discriminate; reflexivity.
  - cbn [PyStr.all_chars] in Hgap. apply andb_true_iff in Hgap as [Hc Hgap].
    cbn [append Shlex.tokens]. rewrite Hc, Htok.
    rewrite (tokens_gap gap Hgap). reflexivity.
Qed.

(** The POSIX lexer on a line written as words and gaps: the tokens are
    the values of the words. *)
Lemma tokens_layout (words : list (Line.Word * string)) :
  forallb (fun x => Line.word_ok (fst x)) words = true ->
  Line.spaced Shlex.is_whitespace words = true ->
  forall esc,
    Shlex.tokens Shlex.Space esc false ""
      (Line.layout Line.word_source words)
    = Return (map (fun x => Line.word_value (fst x)) words).
Proof.
  induction words as [|[word gap] words IH]; intros Hok Hsp esc;
    [reflexivity|].
  cbn [forallb fst] in Hok. apply andb_true_iff in Hok as [Hword Hok].
  cbn [Line.spaced] in Hsp. apply andb_true_iff in Hsp as [Hsp Hrest].
  apply andb_true_iff in Hsp as [Hgap Hne].
  cbn [Line.layout map fst].
  destruct (tokens_word word Hword esc (gap ++ Line.layout Line.word_source words))
    as (quoted & -> & Htok).
  rewrite (tokens_word_end gap Hgap esc quoted _ _ Htok).
  - rewrite (IH Hok Hrest). reflexivity.
  - intros Hempty. destruct words as [|x words]; [reflexivity|].
    rewrite Hempty in Hne. discriminate.
Qed.

(** [str.split()] on a line written as words and gaps. *)
Lemma split_from_text (t : string) :
  no_space t = true ->
  forall tok rest,
    PyStr.split_from tok (t ++ rest) = PyStr.split_from (tok ++ t) rest.
Proof.
  unfold no_space.
  induction t as [|c t IH]; intros Ht tok rest.
  - rewrite append_empty_r. reflexivity.
  - cbn [PyStr.all_chars] in Ht. apply andb_true_iff in Ht as [Hc Ht].
    rewrite negb_true_iff in Hc.
    cbn [append PyStr.split_from]. rewrite Hc, (IH Ht), append_assoc.
    reflexivity.
Qed.

Lemma split_from_gap (gap : string) :
  PyStr.all_chars PyStr.isspace gap = true ->
  forall rest,
    PyStr.split_from "" (gap ++ rest) = PyStr.split_from "" rest.
Proof.
  induction gap as [|c gap IH]; intros Hgap rest; [reflexivity|].
  cbn [PyStr.all_chars] in Hgap. apply andb_true_iff in Hgap as [Hc Hgap].
  cbn [append PyStr.split_from PyStr.is_empty]. rewrite Hc.
  apply IH; exact Hgap.
Qed.

Lemma split_from_text_end (gap : string) :
  PyStr.all_chars PyStr.isspace gap = true ->
  forall tok rest,
    PyStr.is_empty tok = false ->
    (PyStr.is_empty gap = true -> rest = "") ->
    PyStr.split_from tok (gap ++ rest) = tok :: PyStr.split_from "" rest.
Proof.
  intros Hgap tok rest Htok Hlast.
  destruct gap as [|c gap].
  - rewrite (Hlast eq_refl). cbn [append PyStr.split_from]. rewrite Htok.
    reflexivity.
  - cbn [PyStr.all_chars] in Hgap. apply andb_true_iff in Hgap as [Hc Hgap].
    cbn [append PyStr.split_from]. rewrite Hc, Htok.
    rewrite (split_from_gap gap Hgap). reflexivity.
Qed.

Lemma split_from_layout (words : list (string * string)) :
  forallb (fun x => Line.text_ok (fst x)) words = true ->
  Line.spaced PyStr.isspace words = true ->
  PyStr.split_from "" (Line.layout (fun t => t) words) = map fst words.
Proof.
  induction words as [|[t gap] words IH]; intros Hok Hsp; [reflexivity|].
  cbn [forallb fst] in Hok. apply andb_true_iff in Hok as [Ht Hok].
  unfold Line.text_ok in Ht. apply andb_true_iff in Ht as [Hne Ht].
  rewrite negb_true_iff in Hne.
  cbn [Line.spaced] in Hsp. apply andb_true_iff in Hsp as [Hsp Hrest].
  apply andb_true_iff in Hsp as [Hgap Hlast].
  cbn [Line.layout map fst].
  rewrite (split_from_text t Ht). cbn [append].
  rewrite (split_from_text_end gap Hgap t _ Hne).
  - rewrite (IH Hok Hrest). reflexivity.
  - intros Hempty. destruct words as [|x words]; [reflexivity|].
    rewrite Hempty in Hlast. discriminate.
Qed.

(** What is whitespace for the lexer is whitespace for [str.split()]. *)
Lemma is_whitespace_isspace (c : ascii) :
  Shlex.is_whitespace c = true -> PyStr.isspace c = true.
Proof.
  unfold Shlex.is_whitespace. intros H.
  repeat (apply orb_true_iff in H as [H | H]);
    apply Ascii.eqb_eq in H; subst c; reflexivity.
Qed.

(** A text without whitespace, quote or backslash is made of characters
    that are plain for the lexer. *)
Lemma unquoted_text_plain (t : string) :
  no_space t = true -> PyStr.all_chars unquoted t = true ->
  PyStr.all_chars Shlex.plain t = true.
Proof.
  unfold no_space. induction t as [|c t IH]; intros Hs Hu; [reflexivity|].
  cbn [PyStr.all_chars] in *.
  apply andb_true_iff in Hs as [Hc Hs]. apply andb_true_iff in Hu as [Hq Hu].
  rewrite (IH Hs Hu), andb_true_r.
  unfold unquoted in Hq. apply andb_true_iff in Hq as [Hq He].
  unfold Shlex.plain. rewrite Hq, He, !andb_true_r.
  destruct (Shlex.is_whitespace c) eqn:Hw; [|reflexivity].
  rewrite (is_whitespace_isspace c Hw) in Hc. discriminate.
Qed.

Lemma unquoted_text_inside (q : ascii) (t : string) :
  Shlex.is_quote q = true -> PyStr.all_chars unquoted t = true ->
  PyStr.all_chars (Shlex.inside q) t = true.
Proof.
  intros Hq. induction t as [|c t IH]; intros Hu; [reflexivity|].
  cbn [PyStr.all_chars] in *. apply andb_true_iff in Hu as [Hc Hu].
  rewrite (IH Hu), andb_true_r.
  unfold unquoted in Hc. apply andb_true_iff in Hc as [Hcq Hce].
  rewrite negb_true_iff in Hcq, Hce.
  unfold Shlex.inside. rewrite Hce. cbn [andb negb]. rewrite andb_true_r.
  destruct (Ascii.eqb c q) eqn:Heq; [|reflexivity].
  apply Ascii.eqb_eq in Heq. subst c. congruence.
Qed.

(** C5.  A raw command string, with shell mode not requested.  On a POSIX
    platform the string goes through [shlex.split], which reads it by the
    quoting rules of the shell: for every line written as words and gaps
    of whitespace, where a word is made of plain characters, of
    characters protected by a backslash, of texts between single quotes
    and of texts between double quotes in which a backslash protects a
    backslash or a double quote, the tokens are the values of the words,
    so that a quotation is one token, whitespace and all, without its
    quotes.  On Windows the string goes through [str.split()]: the
    tokens are the runs of characters between whitespace, quotes and
    backslashes being characters like the others.  So a quotation of two
    texts separated by a space, standing between two words, is one token
    on a POSIX platform and two tokens on Windows, the quote characters
    left in them.  In all cases the tokens are what the spawned process
    gets. *)
Theorem raw_string_tokenisation (w : World) (o : Options) (s : State) :
  shell o = false ->
  (IS_WINDOWS w = false ->
   forall (lead : string) (words : list (Line.Word * string)),
     PyStr.all_chars Shlex.is_whitespace lead = true ->
     forallb (fun x => Line.word_ok (fst x)) words = true ->
     Line.spaced Shlex.is_whitespace words = true ->
     cmd_args_of w (CmdStr (lead ++ Line.layout Line.word_source words))
       (shell o)
     = Return (Argv (map (fun x => Line.word_value (fst x)) words)) /\
     spawns (snd (run_safe w
                    (CmdStr (lead ++ Line.layout Line.word_source words))
                    o s))
     = (spawns s
        ++ [(Argv (map (fun x => Line.word_value (fst x)) words),
             kwargs_of o)])%list) /\
  (IS_WINDOWS w = true ->
   forall (lead : string) (words : list (string * string)),
     PyStr.all_chars PyStr.isspace lead = true ->
     forallb (fun x => Line.text_ok (fst x)) words = true ->
     Line.spaced PyStr.isspace words = true ->
     cmd_args_of w (CmdStr (lead ++ Line.layout (fun t => t) words)) (shell o)
     = Return (Argv (map fst words)) /\
     spawns (snd (run_safe w
                    (CmdStr (lead ++ Line.layout (fun t => t) words)) o s))
     = (spawns s ++ [(Argv (map fst words), kwargs_of o)])%list) /\
  (forall q a x y b,
     Shlex.is_quote q = true ->
     Forall (fun t => Line.text_ok t = true
                      /\ PyStr.all_chars unquoted t = true) [a; x; y; b] ->
     cmd_args_of w
       (CmdStr (a ++ " " ++ String q (x ++ " " ++ y ++ String q (" " ++ b))))
       (shell o)
     = Return (Argv (if IS_WINDOWS w
                     then [a; String q x; y ++ String q ""; b]
                     else [a; x ++ " " ++ y; b]))).
Proof.
  intros Hshell.
  assert (Hposix : IS_WINDOWS w = false -> forall text,
            cmd_args_of w (CmdStr text) (shell o)
            = outcome_map Argv (Shlex.split text)).
  { intros Hwin text. unfold cmd_args_of. rewrite Hshell, Hwin. reflexivity. }
  assert (Hwindows : IS_WINDOWS w = true -> forall text,
            cmd_args_of w (CmdStr text) (shell o)
            = Return (Argv (PyStr.split text))).
  { intros Hwin text. unfold cmd_args_of. rewrite Hshell, Hwin. reflexivity. }
  split; [|split].
  - intros Hwin lead words Hlead Hok Hsp.
    assert (Hargs : cmd_args_of w
                      (CmdStr (lead ++ Line.layout Line.word_source words))
                      (shell o)
                    = Return (Argv (map (fun x => Line.word_value (fst x))
                                        words))).
    { rewrite (Hposix Hwin). unfold Shlex.split.
      rewrite (tokens_gap lead Hlead), (tokens_layout words Hok Hsp).
      reflexivity. }
    split; [exact Hargs|]. apply run_safe_spawns_once; exact Hargs.
  - intros Hwin lead words Hlead Hok Hsp.
    assert (Hargs : cmd_args_of w
                      (CmdStr (lead ++ Line.layout (fun t => t) words))
                      (shell o)
                    = Return (Argv (map fst words))).
    { rewrite (Hwindows Hwin). unfold PyStr.split.
      rewrite (split_from_gap lead Hlead), (split_from_layout words Hok Hsp).
      reflexivity. }
    split; [exact Hargs|]. apply run_safe_spawns_once; exact Hargs.
  - intros q a x y b Hq Hall.
    inversion Hall as [|? ? [Ha Hau] Hall1]; subst.
    inversion Hall1 as [|? ? [Hx Hxu] Hall2]; subst.
    inversion Hall2 as [|? ? [Hy Hyu] Hall3]; subst.
    inversion Hall3 as [|? ? [Hb Hbu] _]; subst.
    assert (Hparts : forall t, Line.text_ok t = true ->
              t <> "" /\ no_space t = true).
    { intros t Ht. unfold Line.text_ok in Ht.
      apply andb_true_iff in Ht as [Hne Hns]. split; [|exact Hns].
      destruct t; [discriminate|discriminate]. }
    destruct (Hparts a Ha) as [Hane Has]. destruct (Hparts b Hb) as [Hbne Hbs].
    destruct (Hparts x Hx) as [Hxne Hxs]. destruct (Hparts y Hy) as [Hyne Hys].
    destruct (IS_WINDOWS w) eqn:Hwin.
    + rewrite (Hwindows eq_refl).
      assert (Hqs : PyStr.isspace q = false).
      { unfold Shlex.is_quote in Hq. apply orb_true_iff in Hq as [Hq | Hq];
          apply Ascii.eqb_eq in Hq; subst q; reflexivity. }
      assert (Heq : a ++ " " ++ String q (x ++ " " ++ y
                                          ++ String q (" " ++ b))
                    = Line.layout (fun t => t)
                        [(a, " "); (String q x, " ");
                         (y ++ String q "", " "); (b, "")]).
      { cbn [Line.layout append]. rewrite append_assoc. cbn [append].
        rewrite append_empty_r. reflexivity. }
      rewrite Heq. unfold PyStr.split.
      rewrite split_from_layout; [reflexivity| |reflexivity].
      cbn [forallb fst]. rewrite Ha, Hb, !andb_true_r.
      unfold Line.text_ok, no_space. cbn [PyStr.is_empty negb PyStr.all_chars].
      rewrite Hqs. cbn [negb andb].
      fold (no_space x). rewrite Hxs. cbn [andb].
      rewrite all_chars_app. fold (no_space y). rewrite Hys.
      cbn [PyStr.all_chars andb]. rewrite Hqs. cbn [negb andb].
      rewrite andb_true_r.
      destruct y; [congruence|reflexivity].
    + rewrite (Hposix eq_refl).
      pose proof (split_word_quotation_word a (x ++ " " ++ y) b q Hane Hbne
                    (unquoted_text_plain a Has Hau)
                    (unquoted_text_plain b Hbs Hbu) Hq) as Hsplit.
      cbn [append] in Hsplit. rewrite append_assoc in Hsplit.
      cbn [append] in Hsplit. cbn [append].
      rewrite Hsplit; [reflexivity|].
      rewrite all_chars_app, (unquoted_text_inside q x Hq Hxu).
      cbn [PyStr.all_chars andb].
      rewrite (unquoted_text_inside q y Hq Hyu), andb_true_r.
      unfold Shlex.inside.
      unfold Shlex.is_quote in Hq. apply orb_true_iff in Hq as [Hq | Hq];
        apply Ascii.eqb_eq in Hq; subst q; reflexivity.
Qed.

Lemma raw_string_tokenisation_witness :
  cmd_args_of Demo.posix (CmdStr " cp a\ b  'c d'\e") false
  = Return (Argv ["cp"; "a b"; "c de"]) /\
  cmd_args_of Demo.windows (CmdStr " cp a\ b  'c d'\e") false
  = Return (Argv ["cp"; "a\"; "b"; "'c"; "d'\e"]).
Proof.
  split.
  - destruct (raw_string_tokenisation Demo.posix default_options
                initial_state eq_refl) as [Hposix _].
    apply (Hposix eq_refl " "
             [([Line.Plain "c"; Line.Plain "p"], " ");
              ([Line.Plain "a"; Line.Escaped " "; Line.Plain "b"], "  ");
              ([Line.SingleQuoted "c d"; Line.Escaped "e"], "")]);
      reflexivity.
  - destruct (raw_string_tokenisation Demo.windows default_options
                initial_state eq_refl) as (_ & Hwindows & _).
    apply (Hwindows eq_refl " "
             [("cp", " "); ("a\", " "); ("b", "  "); ("'c", " ");
              ("d'\e", "")]);
      reflexivity.
Defined.

(* ------------------------------------------------------------------ *)
(** ** Looking up an executable *)

(** The inner loop goes through the probes of one directory and ends at
    the first that is returned or on which [is_file] raises. *)
Lemma find_in_dir_first (w : World) (path_dir : string) (names : list string) :
  find_in_dir w path_dir names
  = first_probe w (map (path_join w path_dir) names).
Proof.
  induction names as [|n names IH]; [reflexivity|].
  cbn [find_in_dir map first_probe]. unfold probe, access_raises.
  destruct (is_file w (path_join w path_dir n)) as [[|]|e];
    [|exact IH|reflexivity].
  destruct (os_access_X_OK w (path_join w path_dir n)); [reflexivity|exact IH].
Qed.

Lemma first_probe_app (w : World) (l1 l2 : list Path) :
  first_probe w (l1 ++ l2)%list
  = match first_probe w l1 with
    | Return None => first_probe w l2
    | r => r
    end.
Proof.
  induction l1 as [|p l1 IH]; [reflexivity|].
  cbn [app first_probe]. unfold probe.
  destruct (is_file w p) as [[|]|e]; [|exact IH|reflexivity].
  destruct (access_raises w p); [exact IH|reflexivity].
Qed.

(** The two loops together go through all the probes. *)
Lemma find_in_paths_first (w : World) (paths names : list string) :
  find_in_paths w paths names
  = first_probe w (flat_map (fun d => map (path_join w d) names) paths).
Proof.
  induction paths as [|d paths IH]; [reflexivity|].
  cbn [find_in_paths flat_map].
  rewrite first_probe_app, find_in_dir_first, IH.
  destruct (first_probe w (map (path_join w d) names)) as [[p|]|e];
    reflexivity.
Qed.










(* ------------------------------------------------------------------ *)
(** ** Checking that a command exists *)

(** A [run_safe] call with [check=False]: one spawn attempt, whose outcome
    decides between a result and an exception. *)
Lemma run_safe_unchecked (w : World) (cmd : Command) (o : Options)
    (s : State) (cmd_args : CmdArgs) :
  check o = false ->
  cmd_args_of w cmd (shell o) = Return cmd_args ->
  exists s',
    spawns s' = (spawns s ++ [(cmd_args, kwargs_of o)])%list /\
    match os_run w cmd_args (kwargs_of o) with
    | Return process =>
        run_safe w cmd o s
        = (Return (completed_result w cmd o (clock w (ticks s))
                     (clock w (S (ticks s))) process), s')
    | Raise _ => exists e, run_safe w cmd o s = (Raise e, s')
    end.
Proof.
  intros Hcheck Hargs.
  pose proof (run_safe_spawns_once w cmd o s cmd_args Hargs) as Hsp.
  destruct (os_run w cmd_args (kwargs_of o)) as [process|e] eqn:Hrun.
  - rewrite (run_safe_completed _ _ _ _ _ _ Hargs Hrun) in *.
    rewrite Hcheck in *. cbn [andb snd] in *. eauto.
  - rewrite (run_safe_spawn_error _ _ _ _ _ _ Hargs Hrun) in *.
    destruct (run_safe_handler_raises w (clock w (ticks s)) cmd o e
                (s ++ [ClockRead (clock w (ticks s));
                       SpawnAttempt cmd_args (kwargs_of o)])%list)
      as (m & s1 & Hh).
    rewrite Hh in *. cbn [snd] in Hsp. eauto.
Qed.

Lemma command_exists_no_path_scan :
  os_run Demo.bare (lookup_args Demo.bare "probe") (lookup_kwargs Demo.bare)
  = Raise (FileNotFoundError "[Errno 2] No such file or directory") /\
  find_executable Demo.bare "probe" None = Return (Some "/usr/bin/probe") /\
  returned (command_exists Demo.bare "probe" initial_state) = Some false.
Proof. repeat split; reflexivity. Qed.

(** C7, as the code has it.  [command_exists] makes one spawn, of the
    platform's lookup helper ([which name]; on Windows [where name] through
    the shell), and never raises.  Its answer is read off that spawn alone:
    true when the helper exits with code 0 (and, on Windows, printed
    something other than whitespace), false otherwise; when the helper
    cannot be run, or fails in any other way, the answer is false.  The
    search path is not scanned. *)
Theorem command_exists_lookup_only (w : World) (name : string) (s : State) :
  exists s',
    command_exists w name s
    = (Return (lookup_answer w
                 (os_run w (lookup_args w name) (lookup_kwargs w))), s') /\
    spawns s' = (spawns s ++ [(lookup_args w name, lookup_kwargs w)])%list.
Proof.
  unfold command_exists, try_except, bind, ret, lookup_args, lookup_kwargs,
    lookup_answer.
  cbn [encoding errors shell default_options].
  destruct (IS_WINDOWS w) eqn:Hwin.
  - match goal with
    | |- context [run_safe w ?c ?o s] =>
        destruct (run_safe_unchecked w c o s (ShellLine ("where " ++ name))
                    eq_refl eq_refl) as (s' & Hsp & Hrun)
    end.
    cbn [kwargs_of capture_output cwd env timeout shell encoding errors]
      in Hsp, Hrun.
    exists s'. split; [|exact Hsp].
    destruct (os_run w (ShellLine ("where " ++ name)) _) as [process|e].
    + rewrite Hrun.
      cbn [completed_result success stdout capture_output].
      rewrite strip_or_empty_strip.
      destruct (cp_stdout process) as [t|].
      * rewrite strip_idempotent. reflexivity.
      * cbn. rewrite andb_false_r. reflexivity.
    + destruct Hrun as (e' & Hrun). rewrite Hrun. reflexivity.
  - match goal with
    | |- context [run_safe w ?c ?o s] =>
        destruct (run_safe_unchecked w c o s (Argv ["which"; name])
                    eq_refl eq_refl) as (s' & Hsp & Hrun)
    end.
    cbn [kwargs_of capture_output cwd env timeout shell encoding errors]
      in Hsp, Hrun.
    exists s'. split; [|exact Hsp].
    destruct (os_run w (Argv ["which"; name]) _) as [process|e].
    + rewrite Hrun. cbn [completed_result success].
      rewrite andb_true_r. reflexivity.
    + destruct Hrun as (e' & Hrun). rewrite Hrun. reflexivity.
Qed.

(* ------------------------------------------------------------------ *)
(** ** Captured output *)

Lemma leading_whitespace_is_stripped :
  exists r s',
    run_safe Demo.posix (CmdList ["echo"; "  hello"]) default_options
      initial_state = (Return r, s') /\
    os_run Demo.posix (Argv ["echo"; "  hello"]) (kwargs_of default_options)
    = Return Demo.exit_0 /\
    cp_stdout Demo.exit_0 = Some ("  hello" ++ PyStr.newline) /\
    PyStr.rstrip ("  hello" ++ PyStr.newline) = "  hello" /\
    stdout r = "hello" /\
    stdout r <> PyStr.rstrip ("  hello" ++ PyStr.newline).
Proof.
  do 2 eexists. repeat split; try reflexivity. discriminate.
Qed.

(** C8, as the code has it.  In a returned [CommandResult], [stdout] and
    [stderr] are the texts of the two streams, which the spawn was asked to
    pipe and to decode with the configured encoding and error policy, with
    the whitespace removed at both ends, the leading whitespace as well as
    the trailing: the kept text neither starts nor ends with whitespace and
    the decoded text is the kept text between two blocks of whitespace.
    Both fields are the empty string when the output is not captured. *)
Theorem run_safe_output_stripped (w : World) (cmd : Command) (o : Options)
    (s s' : State) (r : CommandResult) :
  run_safe w cmd o s = (Return r, s') ->
  exists cmd_args process,
    cmd_args_of w cmd (shell o) = Return cmd_args /\
    os_run w cmd_args (kwargs_of o) = Return process /\
    (capture_output o = false -> stdout r = "" /\ stderr r = "") /\
    (capture_output o = true ->
     (rk_stdout (kwargs_of o) = PIPE /\ rk_stderr (kwargs_of o) = PIPE /\
      rk_encoding (kwargs_of o) = Some (encoding o) /\
      rk_errors (kwargs_of o) = Some (errors o)) /\
     (cp_stdout process = None -> stdout r = "") /\
     (cp_stderr process = None -> stderr r = "") /\
     (forall t, cp_stdout process = Some t ->
        stdout r = PyStr.strip t /\ trimmed (stdout r) /\
        exists before after,
          t = before ++ stdout r ++ after /\
          PyStr.all_chars PyStr.isspace before = true /\
          PyStr.all_chars PyStr.isspace after = true) /\
     (forall t, cp_stderr process = Some t ->
        stderr r = PyStr.strip t /\ trimmed (stderr r) /\
        exists before after,
          t = before ++ stderr r ++ after /\
          PyStr.all_chars PyStr.isspace before = true /\
          PyStr.all_chars PyStr.isspace after = true)).
Proof.
  intros H.
  apply run_safe_returned in H as (cmd_args & process & Ha & Hr & _ & -> & _).
  exists cmd_args, process. split; [exact Ha|]. split; [exact Hr|].
  cbn [completed_result stdout stderr].
  split; intros Hcap; unfold kwargs_of; rewrite Hcap.
  - split; reflexivity.
  - split; [repeat split|].
    split; [intros Hn; rewrite Hn; reflexivity|].
    split; [intros Hn; rewrite Hn; reflexivity|].
    split; intros t Ht; rewrite Ht, strip_or_empty_strip;
      (split; [reflexivity|]); (split; [apply strip_trimmed|]);
      apply strip_split.
Qed.

Lemma run_safe_output_stripped_witness :
  exists r s',
    run_safe Demo.posix (CmdList ["echo"; "  hello"]) default_options
      initial_state = (Return r, s') /\
    exists cmd_args process,
      os_run Demo.posix cmd_args (kwargs_of default_options)
      = Return process /\
      forall t, cp_stdout process = Some t -> stdout r = PyStr.strip t.
Proof.
  do 2 eexists. split; [reflexivity|].
  destruct (run_safe_output_stripped Demo.posix
              (CmdList ["echo"; "  hello"]) default_options initial_state
              _ _ eq_refl)
    as (cmd_args & process & _ & Hrun & _ & Hcap).
  exists cmd_args, process. split; [exact Hrun|].
  intros t Ht. destruct (Hcap eq_refl) as (_ & _ & _ & Hout & _).
  apply (Hout t Ht).
Defined.

(* ------------------------------------------------------------------ *)
(** ** Execution time *)

(** *** Subtracting two floats

    The difference of two finite floats has the sign of their
    comparison: rounding does not take a difference across zero, and a
    difference that is not zero does not round to zero. *)

Section FloatFacts.

Local Open Scope Z_scope.

Lemma digits2_size (p : positive) : digits2_pos p = Pos.size p.
Proof. induction p as [p IH|p IH|]; simpl; [rewrite IH..|]; reflexivity. Qed.

Lemma digits2_log2 (p : positive) :
  Zpos (digits2_pos p) = Z.log2 (Zpos p) + 1.
Proof.
  destruct p as [p|p|]; cbn [digits2_pos Z.log2]; rewrite ?digits2_size; lia.
Qed.

Lemma digits2_bounds (p : positive) :
  2 ^ (Zpos (digits2_pos p) - 1) <= Zpos p < 2 ^ Zpos (digits2_pos p).
Proof.
  rewrite digits2_log2.
  replace (Z.log2 (Zpos p) + 1 - 1) with (Z.log2 (Zpos p)) by lia.
  apply Z.log2_spec. lia.
Qed.

Lemma canonical_bounds (m : positive) (e : Z) :
  canonical_mantissa prec emax m e = true ->
  Ieee.emin <= e /\ Zpos (digits2_pos m) <= prec /\
  (Ieee.emin < e -> Zpos (digits2_pos m) = prec).
Proof.
  unfold canonical_mantissa, fexp, Ieee.emin, SpecFloat.emin.
  intros H. apply Z.eqb_eq in H. lia.
Qed.

Lemma iter_xO (m d : positive) :
  Zpos (Pos.iter xO m d) = Zpos m * 2 ^ Zpos d.
Proof.
  induction d as [|d IH] using Pos.peano_ind.
  - simpl. lia.
  - rewrite Pos.iter_succ, Pos2Z.inj_succ, Z.pow_succ_r by lia.
    rewrite Pos2Z.inj_xO, IH. lia.
Qed.

Lemma shl_align_value (m : positive) (e e' : Z) :
  e' <= e ->
  Zpos (fst (shl_align m e e')) = Zpos m * 2 ^ (e - e').
Proof.
  intros He. unfold shl_align.
  destruct (e' - e) as [|d|d] eqn:Hd.
  - replace (e - e') with 0 by lia. simpl. lia.
  - lia.
  - cbn [fst]. rewrite iter_xO. f_equal. f_equal. lia.
Qed.


(** The aligned mantissas of two canonical numbers compare as the
    numbers do. *)
Lemma aligned_compare (m1 m2 : positive) (e1 e2 : Z) :
  canonical_mantissa prec emax m1 e1 = true ->
  canonical_mantissa prec emax m2 e2 = true ->
  match Z.compare e1 e2 with
  | Lt => Lt
  | Gt => Gt
  | Eq => Pos.compare_cont Eq m1 m2
  end
  = Z.compare (Zpos (fst (shl_align m1 e1 (Z.min e1 e2))))
              (Zpos (fst (shl_align m2 e2 (Z.min e1 e2)))).
Proof.
  intros H1 H2.
  apply canonical_bounds in H1 as (Hmin1 & Hd1 & Hn1).
  apply canonical_bounds in H2 as (Hmin2 & Hd2 & Hn2).
  rewrite !shl_align_value by lia.
  pose proof (digits2_bounds m1) as B1. pose proof (digits2_bounds m2) as B2.
  assert (Hp : forall d, Zpos d <= prec -> 2 ^ Zpos d <= 2 ^ prec)
    by (intros d Hd; apply Z.pow_le_mono_r; lia).
  assert (Hhalf : 2 ^ prec = 2 * 2 ^ (prec - 1)) by reflexivity.
  destruct (Z.compare e1 e2) eqn:Hc.
  - apply Z.compare_eq in Hc. subst e2.
    rewrite Z.min_id, Z.sub_diag. cbn [Z.pow]. rewrite !Z.mul_1_r.
    reflexivity.
  - rewrite Z.compare_lt_iff in Hc. symmetry. rewrite Z.compare_lt_iff.
    rewrite Z.min_l by lia. rewrite Z.sub_diag. cbn [Z.pow].
    rewrite Z.mul_1_r.
    assert (Hpow : 2 <= 2 ^ (e2 - e1)).
    { change 2 with (2 ^ 1) at 1. apply Z.pow_le_mono_r; lia. }
    rewrite (Hn2 ltac:(lia)) in B2. specialize (Hp _ Hd1). nia.
  - rewrite Z.compare_gt_iff in Hc. symmetry. rewrite Z.compare_gt_iff.
    rewrite Z.min_r by lia. rewrite Z.sub_diag. cbn [Z.pow].
    rewrite Z.mul_1_r.
    assert (Hpow : 2 <= 2 ^ (e1 - e2)).
    { change 2 with (2 ^ 1) at 1. apply Z.pow_le_mono_r; lia. }
    rewrite (Hn1 ltac:(lia)) in B1. specialize (Hp _ Hd2). nia.
Qed.

(** Shifting a mantissa to the right. *)
Lemma shr_1_m (r : shr_record) :
  0 <= shr_m r -> shr_m (shr_1 r) = Z.shiftr (shr_m r) 1.
Proof.
  destruct r as [m b s]. cbn [shr_m]. intros Hm.
  rewrite <- Z.div2_spec.
  destruct m as [|[p|p|]|p]; try reflexivity. lia.
Qed.

Lemma shr_m_iter (n : positive) :
  forall r, 0 <= shr_m r ->
    shr_m (iter_pos shr_1 n r) = Z.shiftr (shr_m r) (Zpos n).
Proof.
  induction n as [n IH|n IH|]; intros r Hr; cbn [iter_pos].
  - assert (H1 : 0 <= shr_m (shr_1 r))
      by (rewrite shr_1_m by exact Hr; apply Z.shiftr_nonneg; exact Hr).
    assert (H2 : 0 <= shr_m (iter_pos shr_1 n (shr_1 r)))
      by (rewrite IH by exact H1; apply Z.shiftr_nonneg; exact H1).
    rewrite IH by exact H2. rewrite IH by exact H1.
    rewrite shr_1_m by exact Hr.
    rewrite !Z.shiftr_shiftr by lia. f_equal. lia.
  - assert (H1 : 0 <= shr_m (iter_pos shr_1 n r))
      by (rewrite IH by exact Hr; apply Z.shiftr_nonneg; exact Hr).
    rewrite IH by exact H1. rewrite IH by exact Hr.
    rewrite Z.shiftr_shiftr by lia. f_equal. lia.
  - apply shr_1_m; exact Hr.
Qed.

Lemma shr_record_of_loc_m (m : Z) (l : location) :
  shr_m (shr_record_of_loc m l) = m.
Proof. destruct l as [|[| |]]; reflexivity. Qed.

(** Rounding a positive mantissa whose exponent is not below the least
    one leaves a positive mantissa. *)
Lemma shr_fexp_pos (m e : Z) (l : location) :
  0 < m -> Ieee.emin <= e ->
  0 < shr_m (fst (shr_fexp prec emax m e l)) /\
  Ieee.emin <= snd (shr_fexp prec emax m e l).
Proof.
  intros Hm He. unfold shr_fexp, shr.
  destruct (fexp prec emax (Zdigits2 m + e) - e) as [|p|p] eqn:Hn;
    cbn [fst snd]; rewrite ?shr_record_of_loc_m; try (split; lia).
  rewrite shr_m_iter by (rewrite shr_record_of_loc_m; lia).
  rewrite shr_record_of_loc_m.
  split; [|lia].
  destruct (Z.eq_dec (Z.shiftr m (Zpos p)) 0) as [H0|H0].
  - apply Z.shiftr_eq_0_iff in H0 as [H0 | [_ H0]]; [lia|].
    destruct m as [|q|q]; try lia. cbn [Zdigits2] in Hn.
    rewrite digits2_log2 in Hn.
    unfold fexp, Ieee.emin, SpecFloat.emin, prec, emax in *. lia.
  - pose proof (Z.shiftr_nonneg m (Zpos p)) as Hs. lia.
Qed.

Lemma round_nearest_even_pos (m : Z) (l : location) :
  0 < m -> 0 < round_nearest_even m l.
Proof.
  intros Hm. destruct l as [|[| |]]; cbn [round_nearest_even]; try lia.
  destruct (Z.even m); lia.
Qed.

Lemma binary_round_aux_sign (sx : bool) (m e : Z) (l : location) :
  0 < m -> Ieee.emin <= e ->
  (exists m' e', binary_round_aux prec emax sx m e l = S754_finite sx m' e')
  \/ binary_round_aux prec emax sx m e l = S754_infinity sx.
Proof.
  intros Hm He. unfold binary_round_aux.
  destruct (shr_fexp_pos m e l Hm He) as [H1 H1e].
  destruct (shr_fexp prec emax m e l) as [r1 e1]. cbn [fst snd] in H1, H1e.
  pose proof (round_nearest_even_pos _ (loc_of_shr_record r1) H1) as H2.
  destruct (shr_fexp_pos _ e1 loc_Exact H2 H1e) as [H3 _].
  destruct (shr_fexp prec emax _ e1 loc_Exact) as [r2 e2]. cbn [fst] in H3.
  destruct (shr_m r2) as [|q|q]; try lia.
  destruct (e2 <=? emax - prec); eauto.
Qed.

Lemma binary_round_sign (sx : bool) (m : positive) (e : Z) :
  Ieee.emin <= e ->
  (exists m' e', binary_round prec emax sx m e = S754_finite sx m' e')
  \/ binary_round prec emax sx m e = S754_infinity sx.
Proof.
  intros He. unfold binary_round.
  destruct (shl_align m e _) as [mz ez] eqn:Ha.
  apply binary_round_aux_sign; [lia|].
  unfold shl_align in Ha.
  destruct (fexp prec emax (Zpos (digits2_pos m) + e) - e) eqn:Hd;
    inversion Ha; subst; try lia.
  unfold fexp, Ieee.emin, SpecFloat.emin. lia.
Qed.

Lemma SFsub_sign (x y : spec_float) :
  valid_binary x = true -> valid_binary y = true ->
  Ieee.SFfinite x = true -> Ieee.SFfinite y = true ->
  Ieee.SFsign (SF64sub x y) = SFcompare x y.
Proof.
  intros Vx Vy Fx Fy.
  destruct x as [sx| |  |sx mx ex]; try discriminate;
    destruct y as [sy| | |sy my ey]; try discriminate.
  - destruct sx, sy; reflexivity.
  - destruct sy; reflexivity.
  - destruct sx; reflexivity.
  - cbn [valid_binary] in Vx, Vy. unfold bounded in Vx, Vy.
    apply andb_true_iff in Vx as [Cx _]. apply andb_true_iff in Vy as [Cy _].
    pose proof (aligned_compare mx my ex ey Cx Cy) as Hcmp.
    apply canonical_bounds in Cx as (Hx & _). apply canonical_bounds in Cy as (Hy & _).
    unfold SF64sub, SFsub, Ieee.SFsign. cbn [SFcompare].
    set (X := Zpos (fst (shl_align mx ex (Z.min ex ey)))) in *.
    set (Y := Zpos (fst (shl_align my ey (Z.min ex ey)))) in *.
    assert (HX : 0 < X) by (unfold X; lia).
    assert (HY : 0 < Y) by (unfold Y; lia).
    clearbody X Y.
    assert (Hmin : Ieee.emin <= Z.min ex ey) by lia.
    assert (Hround : forall s (d : positive),
              SFcompare (binary_round prec emax s d (Z.min ex ey))
                        (S754_zero false)
              = Some (if s then Lt else Gt)).
    { intros s d.
      destruct (binary_round_sign s d _ Hmin) as [(m' & e' & ->) | ->];
        reflexivity. }
    destruct sx, sy; cbn [cond_Zopp].
    + assert (Hopp : match Z.compare ex ey with
                     | Lt => Gt
                     | Gt => Lt
                     | Eq => CompOpp (Pos.compare_cont Eq mx my)
                     end = CompOpp (Z.compare X Y))
        by (rewrite <- Hcmp; destruct (Z.compare ex ey); reflexivity).
      rewrite Hopp.
      destruct (Z.compare_spec X Y) as [H|H|H]; cbn [CompOpp].
      * replace (- X - - Y) with 0 by lia. reflexivity.
      * destruct (- X - - Y) as [|d|d] eqn:Hd; try lia.
        cbn [binary_normalize]. apply Hround.
      * destruct (- X - - Y) as [|d|d] eqn:Hd; try lia.
        cbn [binary_normalize]. apply Hround.
    + destruct (- X - Y) as [|d|d] eqn:Hd; try lia.
      cbn [binary_normalize]. apply Hround.
    + destruct (X - - Y) as [|d|d] eqn:Hd; try lia.
      cbn [binary_normalize]. apply Hround.
    + rewrite Hcmp.
      destruct (Z.compare_spec X Y) as [H|H|H].
      * replace (X - Y) with 0 by lia. reflexivity.
      * destruct (X - Y) as [|d|d] eqn:Hd; try lia.
        cbn [binary_normalize]. apply Hround.
      * destruct (X - Y) as [|d|d] eqn:Hd; try lia.
        cbn [binary_normalize]. apply Hround.
Qed.


Lemma SFcompare_swap (x y : spec_float) :
  SFcompare y x = option_map CompOpp (SFcompare x y).
Proof.
  destruct x as [sx|sx| |sx mx ex], y as [sy|sy| |sy my ey];
    cbn [SFcompare option_map];
    try reflexivity;
    try (destruct sx; reflexivity); try (destruct sy; reflexivity);
    try (destruct sx, sy; reflexivity).
  assert (Hm : Pos.compare_cont Eq my mx
               = CompOpp (Pos.compare_cont Eq mx my)).
  { change (Pos.compare my mx = CompOpp (Pos.compare mx my)).
    apply Pos.compare_antisym. }
  destruct sx, sy; cbn [CompOpp]; try reflexivity;
    rewrite (Z.compare_antisym ex ey);
    destruct (Z.compare ex ey); cbn [CompOpp]; try reflexivity;
    rewrite Hm, ?CompOpp_involutive; reflexivity.
Qed.

Lemma SFcompare_refl (x : spec_float) :
  SFcompare x x = if Ieee.SFfinite x then Some Eq
                  else match x with S754_nan => None | _ => Some Eq end.
Proof.
  destruct x as [s|s| |s m e]; cbn; try reflexivity;
    try (destruct s; reflexivity).
  rewrite Z.compare_refl.
  change (Pos.compare_cont Eq m m) with (Pos.compare m m).
  rewrite Pos.compare_refl. destruct s; reflexivity.
Qed.

Lemma is_finite_spec (x : float) :
  is_finite x = Ieee.SFfinite (Prim2SF x).
Proof.
  unfold is_finite, is_nan, is_infinity.
  rewrite !eqb_spec, abs_spec. unfold SFeqb.
  rewrite SFcompare_refl.
  change (Prim2SF infinity) with (S754_infinity false).
  destruct (Prim2SF x) as [s|s| |s m e]; try reflexivity; destruct s; reflexivity.
Qed.

(** Subtracting two finite floats: the difference is below zero exactly
    when the first is below the second, and zero or above exactly when
    the second is not above the first. *)
Lemma sub_sign (x y : float) :
  is_finite x = true -> is_finite y = true ->
  (x - y <? 0)%float = (x <? y)%float /\
  (0 <=? x - y)%float = (y <=? x)%float.
Proof.
  intros Fx Fy. rewrite is_finite_spec in Fx, Fy.
  pose proof (SFsub_sign (Prim2SF x) (Prim2SF y)
                (Prim2SF_valid x) (Prim2SF_valid y) Fx Fy) as Hs.
  unfold Ieee.SFsign in Hs.
  rewrite !ltb_spec, !leb_spec, sub_spec.
  change (Prim2SF 0) with (S754_zero false).
  unfold SFltb, SFleb.
  rewrite (SFcompare_swap (SF64sub (Prim2SF x) (Prim2SF y)) (S754_zero false)).
  rewrite (SFcompare_swap (Prim2SF x) (Prim2SF y)).
  rewrite Hs. split; reflexivity.
Qed.

End FloatFacts.

Example float_subtraction_rounds :
  (1e16 - 0x1.999999999999ap-4)%float = 1e16%float.
Proof. reflexivity. Qed.

Lemma execution_time_can_be_negative :
  exists r s',
    run_safe Demo.unsteady (CmdList ["echo"]) default_options initial_state
    = (Return r, s') /\
    s' = [ClockRead 5%float;
          SpawnAttempt (Argv ["echo"]) (kwargs_of default_options);
          ClockRead 3%float] /\
    execution_time r = (-2)%float /\
    (execution_time r <? 0)%float = true.
Proof.
  do 2 eexists. repeat split; reflexivity.
Qed.

(** The execution time is rounded: readings [0.1] and [1e16] give
    [1e16]. *)
Example execution_time_is_rounded :
  exists r s',
    run_safe Demo.jumpy (CmdList ["echo"]) default_options initial_state
    = (Return r, s') /\
    execution_time r = 1e16%float.
Proof. do 2 eexists. split; reflexivity. Qed.

(** C9, as the code has it.  [run_safe] reads [time.time()] once before
    the command is tokenised and spawned and once after the child has
    completed; [execution_time] is the second reading minus the first,
    subtracted as floats.  The readings being finite, it is zero or
    above exactly when the second reading is not below the first, and
    below zero exactly when the second reading is below the first:
    [time.time()] is the wall clock, not a monotonic one, and nothing in
    [run_safe] keeps the value from being negative. *)
Theorem run_safe_execution_time (w : World) (cmd : Command) (o : Options)
    (s s' : State) (r : CommandResult) :
  run_safe w cmd o s = (Return r, s') ->
  let start_time := clock w (ticks s) in
  let now := clock w (S (ticks s)) in
  (exists cmd_args,
     s' = (s ++ [ClockRead start_time;
                 SpawnAttempt cmd_args (kwargs_of o);
                 ClockRead now])%list) /\
  execution_time r = (now - start_time)%float /\
  (is_finite start_time = true -> is_finite now = true ->
   (0 <=? execution_time r)%float = (start_time <=? now)%float /\
   (execution_time r <? 0)%float = (now <? start_time)%float).
Proof.
  intros H start_time now.
  apply run_safe_returned in H as (cmd_args & process & _ & _ & _ & -> & ->).
  split; [exists cmd_args; reflexivity|].
  cbn [completed_result execution_time]. fold start_time now.
  split; [reflexivity|].
  intros Hstart Hnow.
  destruct (sub_sign now start_time Hnow Hstart) as [Hlt Hle]. auto.
Qed.

Lemma run_safe_execution_time_witness :
  exists r s',
    run_safe Demo.posix (CmdList ["echo"]) default_options initial_state
    = (Return r, s') /\
    execution_time r = 1%float /\
    (0 <=? execution_time r)%float = true.
Proof.
  do 2 eexists. split; [reflexivity|].
  destruct (run_safe_execution_time Demo.posix (CmdList ["echo"])
              default_options initial_state _ _ eq_refl)
    as (_ & Htime & Hsign).
  split; [exact Htime|].
  destruct (Hsign eq_refl eq_refl) as [Hle _]. exact Hle.
Defined.

(* ------------------------------------------------------------------ *)
(** ** [run_capture] *)

(** C10.  [run_capture(command, **kwargs)] gives what
    [run_safe(command, capture_output=True, **kwargs)] gives, reduced to
    its [stdout]: [run_safe] is called once, with [capture_output] set
    and with the keyword arguments given (the defaults of [run_safe] for
    the others); the trace is that of the call, an exception it raises
    goes through, and otherwise the text returned is the [stdout] of the
    result, unchanged, because that text is already stripped and
    stripping twice changes nothing.  A [capture_output] among the
    keyword arguments makes the call itself a [TypeError], before
    anything is run. *)
Theorem run_capture_is_stdout (w : World) (cmd : Command) (kwargs : Kwargs)
    (s : State) :
  match kw_capture_output kwargs with
  | Some _ =>
      exists text, run_capture w cmd kwargs s = (Raise (TypeError text), s)
  | None =>
      run_capture w cmd kwargs s
      = match run_safe w cmd
                {| cwd := kw_cwd kwargs;
                   env := kw_env kwargs;
                   timeout := kw_timeout kwargs;
                   capture_output := true;
                   shell := match kw_shell kwargs with
                            | Some b => b
                            | None => false
                            end;
                   encoding := match kw_encoding kwargs with
                               | Some e => e
                               | None => "utf-8"
                               end;
                   errors := match kw_errors kwargs with
                             | Some e => e
                             | None => "replace"
                             end;
                   check := match kw_check kwargs with
                            | Some b => b
                            | None => true
                            end |} s with
        | (Return result, s') => (Return (stdout result), s')
        | (Raise e, s') => (Raise e, s')
        end
  end.
Proof.
  unfold run_capture, bind, ret, run_safe_capture_call.
  destruct (kw_capture_output kwargs); [eexists; reflexivity|].
  change (or_default (kw_shell kwargs) (shell default_options))
    with (match kw_shell kwargs with Some b => b | None => false end).
  change (or_default (kw_encoding kwargs) (encoding default_options))
    with (match kw_encoding kwargs with Some e => e | None => "utf-8" end).
  change (or_default (kw_errors kwargs) (errors default_options))
    with (match kw_errors kwargs with Some e => e | None => "replace" end).
  change (or_default (kw_check kwargs) (check default_options))
    with (match kw_check kwargs with Some b => b | None => true end).
  match goal with
  | |- context [run_safe w cmd ?o s] =>
      destruct (run_safe w cmd o s) as [[r|e] s'] eqn:Hcall
  end; [|reflexivity].
  f_equal. f_equal.
  apply run_safe_returned in Hcall
    as (cmd_args & process & _ & _ & _ & -> & _).
  cbn [completed_result stdout capture_output].
  rewrite strip_or_empty_strip.
  destruct (cp_stdout process); [apply strip_idempotent|reflexivity].
Qed.

(* ------------------------------------------------------------------ *)
(** ** One spawn per call *)

(** X1.  [run_safe] never retries: when the command can be tokenised it
    makes exactly one spawn attempt, with the tokens and the keyword
    arguments built from the options, whatever the attempt gives (a
    result, a non-zero exit code, a timeout, a missing executable); when
    the command cannot be tokenised it makes none. *)
Theorem run_safe_spawns_at_most_once (w : World) (cmd : Command)
    (o : Options) (s : State) :
  spawns (snd (run_safe w cmd o s))
  = (spawns s
     ++ match cmd_args_of w cmd (shell o) with
        | Return cmd_args => [(cmd_args, kwargs_of o)]
        | Raise _ => []
        end)%list.
Proof.
  destruct (cmd_args_of w cmd (shell o)) as [cmd_args|e] eqn:Hargs.
  - apply run_safe_spawns_once; exact Hargs.
  - rewrite (run_safe_tokenise_error _ _ _ _ _ Hargs).
    rewrite run_safe_handler_spawns, spawns_app. reflexivity.
Qed.

(* ------------------------------------------------------------------ *)
(** ** What a raised error carries *)

(** The message built by an [except] clause starts with one of three
    fixed texts. *)
Lemma run_safe_handler_message (w : World) (start_time : float) (cmd : Command)
    (o : Options) (e : PyExc) (s : State) :
  exists message s',
    run_safe_handler w start_time cmd o e s
    = (Raise (ProcessError message "" None), s') /\
    known_start message = true.
Proof.
  unfold known_start.
  destruct e; cbv beta iota zeta delta
    [run_safe_handler bind time_time raise new_ProcessError PyStr.is_empty];
    do 2 eexists; (split; [reflexivity|]);
    rewrite prefix_append; rewrite ?orb_true_r; reflexivity.
Qed.

(** X2.  Whatever goes wrong, [run_safe] raises a [ProcessError] built
    from a message alone: its [command] attribute is the empty string and
    its [exit_code] attribute is [None], also for a non-zero exit code, so
    the exit code and the command are found in the text of the message
    only.  [str(e)] is that message, and it starts with one of
    [Command not found: ], [Command execution timed out (] and
    [Error executing command ]. *)
Theorem run_safe_error_fields (w : World) (cmd : Command) (o : Options)
    (s s' : State) (e : PyExc) :
  run_safe w cmd o s = (Raise e, s') ->
  exists message,
    e = ProcessError message "" None /\
    exc_str e = message /\
    known_start message = true.
Proof.
  intros H.
  destruct (cmd_args_of w cmd (shell o)) as [cmd_args|e0] eqn:Hargs.
  - destruct (os_run w cmd_args (kwargs_of o)) as [process|e1] eqn:Hrun.
    + rewrite (run_safe_completed _ _ _ _ _ _ Hargs Hrun) in H.
      destruct (check o && negb (cp_returncode process =? 0)%Z);
        inversion H; subst.
      eexists. split; [reflexivity|]. split; [reflexivity|].
      unfold known_start, failure_message.
      rewrite (prefix_append "Error executing command "), orb_true_r.
      reflexivity.
    + rewrite (run_safe_spawn_error _ _ _ _ _ _ Hargs Hrun) in H.
      destruct (run_safe_handler_message w (clock w (ticks s)) cmd o e1
                  (s ++ [ClockRead (clock w (ticks s));
                         SpawnAttempt cmd_args (kwargs_of o)])%list)
        as (m & s1 & Hh & Hm).
      rewrite Hh in H; inversion H; subst. eauto.
  - rewrite (run_safe_tokenise_error _ _ _ _ _ Hargs) in H.
    destruct (run_safe_handler_message w (clock w (ticks s)) cmd o e0
                (s ++ [ClockRead (clock w (ticks s))])%list)
      as (m & s1 & Hh & Hm).
    rewrite Hh in H; inversion H; subst. eauto.
Qed.

Lemma run_safe_error_fields_witness :
  raised (run_safe Demo.posix (CmdList ["false"]) default_options
            initial_state)
  = Some (ProcessError
            (failure_message Demo.posix (CmdList ["false"]) 1 "boom")
            "" None) /\
  known_start (failure_message Demo.posix (CmdList ["false"]) 1 "boom")
  = true.
Proof.
  split; [reflexivity|].
  destruct (run_safe_error_fields Demo.posix (CmdList ["false"])
              default_options initial_state
              (run_trace Demo.posix initial_state (Argv ["false"])
                 default_options)
              (ProcessError
                 (failure_message Demo.posix (CmdList ["false"]) 1 "boom")
                 "" None)
              eq_refl)
    as (message & He & _ & Hm).
  injection He as <-. exact Hm.
Defined.

(* ------------------------------------------------------------------ *)
(** ** A command string that cannot be tokenised *)

(** A quotation that is never closed. *)
Lemma tokens_quote_open (q : ascii) (body : string) :
  forall esc quoted tok,
    PyStr.all_chars (Shlex.inside q) body = true ->
    Shlex.tokens (Shlex.Quote q) esc quoted tok body
    = Raise (ValueError "No closing quotation").
Proof.
  induction body as [|c body IH]; intros esc quoted tok Hb; [reflexivity|].
  simpl in Hb. apply andb_true_iff in Hb as [Hc Hb].
  unfold Shlex.inside in Hc. apply andb_true_iff in Hc as [Hc1 Hc2].
  rewrite negb_true_iff in Hc1, Hc2.
  cbn [Shlex.tokens]. rewrite Hc1, Hc2. apply IH; exact Hb.
Qed.

Lemma quote_not_whitespace (q : ascii) :
  Shlex.is_quote q = true ->
  Shlex.is_whitespace q = false /\ Shlex.is_escape q = false.
Proof.
  unfold Shlex.is_quote. intros Hq.
  apply orb_true_iff in Hq as [Hq | Hq];
    apply Ascii.eqb_eq in Hq; subst q; split; reflexivity.
Qed.

(** Words without quotes or backslashes, then a quotation that is never
    closed. *)
Lemma tokens_open_quotation (a body : string) (q : ascii) :
  Shlex.is_quote q = true ->
  PyStr.all_chars (Shlex.inside q) body = true ->
  PyStr.all_chars unquoted a = true ->
  forall state esc quoted tok,
    state = Shlex.Space \/ state = Shlex.Word ->
    Shlex.tokens state esc quoted tok (a ++ String q body)
    = Raise (ValueError "No closing quotation").
Proof.
  intros Hq Hbody. destruct (quote_not_whitespace q Hq) as [Hqw Hqe].
  induction a as [|c a IH]; intros Ha state esc quoted tok Hstate.
  - destruct Hstate as [-> | ->]; cbn [append Shlex.tokens];
      rewrite Hqw, ?Hqe, Hq; apply tokens_quote_open; exact Hbody.
  - simpl in Ha. apply andb_true_iff in Ha as [Hc Ha].
    unfold unquoted in Hc. apply andb_true_iff in Hc as [Hc1 Hc2].
    rewrite negb_true_iff in Hc1, Hc2.
    destruct Hstate as [-> | ->]; cbn [append Shlex.tokens];
      rewrite Hc1, Hc2;
      destruct (Shlex.is_whitespace c);
      try destruct (negb (PyStr.is_empty tok) || quoted);
      rewrite IH by auto; reflexivity.
Qed.

(** X3.  A command string with shell mode not requested.  On a POSIX
    platform, when [shlex.split] rejects the string, [run_safe] raises a
    [ProcessError] whose message is [Error executing command], the string,
    and the text of the [ValueError], which is [No closing quotation] or
    [No escaped character]; it has read the clock once and has spawned
    nothing.  Words without quotes or backslashes followed by a quotation
    that is never closed are such a string.  On Windows no string is
    rejected. *)
Theorem run_safe_untokenisable (w : World) (o : Options) (s : State)
    (text : string) :
  shell o = false ->
  (IS_WINDOWS w = false ->
   (forall e,
      Shlex.split text = Raise e ->
      run_safe w (CmdStr text) o s
      = (Raise (ProcessError
                  ("Error executing command " ++ text ++ ": " ++ exc_str e)
                  "" None),
         (s ++ [ClockRead (clock w (ticks s))])%list) /\
      (exc_str e = "No closing quotation"
       \/ exc_str e = "No escaped character")) /\
   (forall a body q,
      PyStr.all_chars unquoted a = true ->
      Shlex.is_quote q = true ->
      PyStr.all_chars (Shlex.inside q) body = true ->
      text = a ++ String q body ->
      Shlex.split text = Raise (ValueError "No closing quotation"))) /\
  (IS_WINDOWS w = true ->
   exists cmd_args, cmd_args_of w (CmdStr text) (shell o) = Return cmd_args).
Proof.
  intros Hshell. split; intros Hwin.
  - split.
    + intros e He.
      assert (Hargs : cmd_args_of w (CmdStr text) (shell o) = Raise e).
      { unfold cmd_args_of. rewrite Hshell, Hwin, He. reflexivity. }
      rewrite (run_safe_tokenise_error _ _ _ _ _ Hargs).
      destruct (tokens_raises _ _ _ _ _ _ He) as [-> | ->];
        (split; [reflexivity|]); [left|right]; reflexivity.
    + intros a body q Ha Hq Hbody ->.
      apply tokens_open_quotation; auto.
  - unfold cmd_args_of. rewrite Hshell, Hwin. eauto.
Qed.

Lemma run_safe_untokenisable_witness :
  run_safe Demo.posix (CmdStr "ls 'my file") default_options initial_state
  = (Raise (ProcessError
              "Error executing command ls 'my file: No closing quotation"
              "" None),
     [ClockRead 0%float]).
Proof.
  destruct (run_safe_untokenisable Demo.posix default_options initial_state
              "ls 'my file" eq_refl) as [Hposix _].
  destruct (Hposix eq_refl) as [Hraise Hopen].
  apply (Hraise (ValueError "No closing quotation")).
  apply (Hopen "ls " "my file" "'"%char); reflexivity.
Defined.

(* ------------------------------------------------------------------ *)
(** ** Where the two tokenisers agree *)

(** On simple characters the POSIX lexer does what [str.split()] does,
    between two words as well as inside one. *)
Lemma tokens_simple (input : string) :
  PyStr.all_chars simple input = true ->
  forall esc,
    Shlex.tokens Shlex.Space esc false "" input
    = Return (PyStr.split_from "" input) /\
    forall tok,
      tok <> "" ->
      Shlex.tokens Shlex.Word esc false tok input
      = Return (PyStr.split_from tok input).
Proof.
  induction input as [|c input IH]; intros Hs esc.
  - split; [reflexivity|]. intros tok Htok.
    destruct tok; [congruence|reflexivity].
  - simpl in Hs. apply andb_true_iff in Hs as [Hc Hs].
    unfold simple in Hc. apply andb_true_iff in Hc as [Hc Hws].
    apply andb_true_iff in Hc as [Hq He].
    rewrite negb_true_iff in Hq, He.
    specialize (IH Hs).
    destruct (Shlex.is_whitespace c) eqn:Hw.
    + pose proof (is_whitespace_isspace c Hw) as Hsp.
      split.
      * cbn [Shlex.tokens PyStr.split_from PyStr.is_empty negb orb].
        rewrite Hw, Hsp. apply IH.
      * intros tok Htok. cbn [Shlex.tokens PyStr.split_from].
        rewrite Hw, Hsp.
        destruct tok as [|t0 tok]; [congruence|].
        cbn [PyStr.is_empty negb orb].
        rewrite (proj1 (IH Shlex.Space)). reflexivity.
    + simpl in Hws. rewrite negb_true_iff in Hws.
      split.
      * cbn [Shlex.tokens PyStr.split_from]. rewrite Hw, He, Hq, Hws.
        apply (proj2 (IH esc)). discriminate.
      * intros tok Htok. cbn [Shlex.tokens PyStr.split_from].
        rewrite Hw, He, Hq, Hws.
        apply (proj2 (IH esc)). unfold Shlex.snoc.
        destruct tok; discriminate.
Qed.

Lemma split_from_blank (input : string) :
  PyStr.all_chars PyStr.isspace input = true ->
  PyStr.split_from "" input = [].
Proof.
  induction input as [|c input IH]; intros H; [reflexivity|].
  simpl in H. apply andb_true_iff in H as [Hc H].
  simpl. rewrite Hc. apply IH; exact H.
Qed.

(** X4.  A command string, with shell mode not requested, that holds no
    quote and no backslash and whose whitespace is made of spaces, tabs,
    carriage returns and line feeds is tokenised alike on every platform:
    into its runs of characters between whitespace.  In particular an
    empty or blank string gives the empty argument list on every
    platform, and [run_safe] still makes its spawn attempt with it. *)
Theorem tokenisation_platform_independent (w : World) (o : Options)
    (s : State) (text : string) :
  shell o = false ->
  PyStr.all_chars simple text = true ->
  cmd_args_of w (CmdStr text) (shell o) = Return (Argv (PyStr.split text)) /\
  (PyStr.all_chars PyStr.isspace text = true ->
   cmd_args_of w (CmdStr text) (shell o) = Return (Argv []) /\
   spawns (snd (run_safe w (CmdStr text) o s))
   = (spawns s ++ [(Argv [], kwargs_of o)])%list).
Proof.
  intros Hshell Hsimple.
  assert (Hargs : cmd_args_of w (CmdStr text) (shell o)
                  = Return (Argv (PyStr.split text))).
  { unfold cmd_args_of. rewrite Hshell.
    destruct (IS_WINDOWS w); [reflexivity|].
    unfold Shlex.split.
    rewrite (proj1 (tokens_simple text Hsimple Shlex.Space)). reflexivity. }
  split; [exact Hargs|].
  intros Hblank. unfold PyStr.split in Hargs.
  rewrite (split_from_blank text Hblank) in Hargs.
  split; [exact Hargs|]. apply run_safe_spawns_once; exact Hargs.
Qed.

Lemma tokenisation_platform_independent_witness :
  cmd_args_of Demo.posix (CmdStr " git  log --oneline ") false
  = Return (Argv ["git"; "log"; "--oneline"]) /\
  cmd_args_of Demo.windows (CmdStr " git  log --oneline ") false
  = Return (Argv ["git"; "log"; "--oneline"]).
Proof.
  split.
  - apply (tokenisation_platform_independent Demo.posix default_options
             initial_state " git  log --oneline " eq_refl eq_refl).
  - apply (tokenisation_platform_independent Demo.windows default_options
             initial_state " git  log --oneline " eq_refl eq_refl).
Defined.

(* ------------------------------------------------------------------ *)
(** ** Shell mode *)

Lemma join_cons (sep x : string) (l : list string) :
  l <> [] -> PyStr.join sep (x :: l) = x ++ sep ++ PyStr.join sep l.
Proof. destruct l; [congruence|reflexivity]. Qed.

(** Joining with a space does not tell one argument holding a space from
    two arguments. *)
Lemma join_space_merges (l1 l2 : list string) (a b : string) :
  PyStr.join " " (l1 ++ (a ++ " " ++ b)%string :: l2)%list
  = PyStr.join " " (l1 ++ a :: b :: l2)%list.
Proof.
  induction l1 as [|x l1 IH].
  - cbn [app]. destruct l2 as [|y l2].
    + reflexivity.
    + rewrite !join_cons by discriminate. rewrite !append_assoc.
      reflexivity.
  - cbn [app]. rewrite !join_cons by (destruct l1; discriminate).
    rewrite IH. reflexivity.
Qed.

(** X5.  In shell mode nothing is tokenised and nothing can fail before
    the spawn, on any platform: a command string is handed to the shell
    as it is, and a list is handed over as its items joined by single
    spaces, with no quoting.  The boundaries between the items are
    therefore lost: a list with the item [a b] and the list with the two
    items [a] and [b] in its place give the same shell line. *)
Theorem shell_mode_command_line (w : World) (o : Options) (s : State) :
  shell o = true ->
  (forall text,
     cmd_args_of w (CmdStr text) (shell o) = Return (ShellLine text) /\
     spawns (snd (run_safe w (CmdStr text) o s))
     = (spawns s ++ [(ShellLine text, kwargs_of o)])%list) /\
  (forall l,
     cmd_args_of w (CmdList l) (shell o)
     = Return (ShellLine (PyStr.join " " l)) /\
     spawns (snd (run_safe w (CmdList l) o s))
     = (spawns s ++ [(ShellLine (PyStr.join " " l), kwargs_of o)])%list) /\
  (forall l1 l2 a b,
     cmd_args_of w (CmdList (l1 ++ (a ++ " " ++ b)%string :: l2)%list)
       (shell o)
     = cmd_args_of w (CmdList (l1 ++ a :: b :: l2)%list) (shell o)) /\
  rk_shell (kwargs_of o) = true.
Proof.
  intros Hshell.
  assert (Hstr : forall text,
             cmd_args_of w (CmdStr text) (shell o) = Return (ShellLine text)).
  { intros text. unfold cmd_args_of. rewrite Hshell. reflexivity. }
  assert (Hlist : forall l,
             cmd_args_of w (CmdList l) (shell o)
             = Return (ShellLine (PyStr.join " " l))).
  { intros l. unfold cmd_args_of. rewrite Hshell. reflexivity. }
  split; [intros text; split; [apply Hstr|]; apply run_safe_spawns_once;
          apply Hstr|].
  split; [intros l; split; [apply Hlist|]; apply run_safe_spawns_once;
          apply Hlist|].
  split; [intros l1 l2 a b; rewrite !Hlist, join_space_merges; reflexivity|].
  unfold kwargs_of. destruct (capture_output o); exact Hshell.
Qed.

Lemma shell_mode_command_line_witness :
  cmd_args_of Demo.posix (CmdList ["rm"; "my file"]) true
  = cmd_args_of Demo.posix (CmdList ["rm"; "my"; "file"]) true.
Proof.
  destruct (shell_mode_command_line Demo.posix
              {| cwd := None; env := None; timeout := None;
                 capture_output := true; shell := true;
                 encoding := "utf-8"; errors := "replace"; check := true |}
              initial_state eq_refl) as (_ & _ & Hmerge & _).
  apply (Hmerge ["rm"] [] "my" "file").
Defined.

(* ------------------------------------------------------------------ *)
(** ** What [run_capture] returns *)

Lemma strip_or_empty_trimmed (x : option string) : trimmed (strip_or_empty x).
Proof.
  rewrite strip_or_empty_strip. destruct x; [apply strip_trimmed|].
  split; reflexivity.
Qed.

(** X6.  When [run_capture] returns a text, no [capture_output] keyword
    was passed, the child process completed, and the text is its decoded
    standard output stripped at both ends, so it neither starts nor ends
    with whitespace.  Unless [check=False] was passed, the exit code of the
    child was 0: a text returned by a plain [run_capture] is the output of
    a command that succeeded. *)
Theorem run_capture_returns (w : World) (cmd : Command) (kwargs : Kwargs)
    (s s' : State) (text : string) :
  run_capture w cmd kwargs s = (Return text, s') ->
  kw_capture_output kwargs = None /\
  trimmed text /\
  exists cmd_args process,
    cmd_args_of w cmd (shell (capture_options kwargs)) = Return cmd_args /\
    os_run w cmd_args (kwargs_of (capture_options kwargs)) = Return process /\
    text = match cp_stdout process with
           | Some t => PyStr.strip t
           | None => ""
           end /\
    (kw_check kwargs <> Some false -> cp_returncode process = 0%Z) /\
    s' = run_trace w s cmd_args (capture_options kwargs).
Proof.
  unfold run_capture, bind, ret, run_safe_capture_call.
  destruct (kw_capture_output kwargs) eqn:Hcap; [discriminate|].
  change (run_safe w cmd _ s) with (run_safe w cmd (capture_options kwargs) s).
  destruct (run_safe w cmd (capture_options kwargs) s) as [[r|e] s1] eqn:Hrun;
    [|discriminate].
  intros H; inversion H; subst; clear H.
  apply run_safe_returned in Hrun
    as (cmd_args & process & Ha & Hr & Hok & -> & ->).
  split; [reflexivity|].
  cbn [completed_result stdout capture_options capture_output].
  rewrite strip_or_empty_strip.
  assert (Hidem : PyStr.strip
                    match cp_stdout process with
                    | Some t => PyStr.strip t
                    | None => ""
                    end
                  = match cp_stdout process with
                    | Some t => PyStr.strip t
                    | None => ""
                    end).
  { destruct (cp_stdout process); [apply strip_idempotent|reflexivity]. }
  rewrite Hidem.
  split; [rewrite <- Hidem; apply strip_trimmed|].
  exists cmd_args, process. repeat split; auto.
  intros Hcheck. destruct Hok as [Hc | Hz]; [|exact Hz].
  cbn [capture_options check] in Hc.
  destruct (kw_check kwargs) as [[|]|]; simpl in Hc; congruence.
Qed.

Lemma run_capture_returns_witness :
  run_capture Demo.posix (CmdList ["echo"; "  hello"]) no_kwargs
    initial_state
  = (Return "hello",
     run_trace Demo.posix initial_state (Argv ["echo"; "  hello"])
       (capture_options no_kwargs)) /\
  trimmed "hello".
Proof.
  split; [reflexivity|].
  apply (run_capture_returns Demo.posix (CmdList ["echo"; "  hello"])
           no_kwargs initial_state
           (run_trace Demo.posix initial_state (Argv ["echo"; "  hello"])
              (capture_options no_kwargs))
           "hello" eq_refl).
Defined.

(* ------------------------------------------------------------------ *)
(** ** [CommandResult.output] *)

Lemma rstrip_append (a b : string) :
  PyStr.rstrip b <> "" -> PyStr.rstrip (a ++ b) = a ++ PyStr.rstrip b.
Proof.
  intros Hb. induction a as [|c a IH]; [reflexivity|].
  cbn [append PyStr.rstrip]. rewrite IH.
  destruct (a ++ PyStr.rstrip b) eqn:Hab; [|reflexivity].
  destruct a; simpl in Hab; congruence.
Qed.

(** X7.  For a result returned by [run_safe], [output] is [stdout] alone
    when [stderr] is empty, and otherwise [stdout], a line feed and
    [stderr].  It never ends with whitespace.  It is not stripped at the
    start, though: when [stdout] is empty and [stderr] is not, [output]
    starts with the line feed. *)
Theorem run_safe_output_text (w : World) (cmd : Command) (o : Options)
    (s s' : State) (r : CommandResult) :
  run_safe w cmd o s = (Return r, s') ->
  (stderr r = "" -> output r = stdout r) /\
  (stderr r <> "" -> output r = stdout r ++ PyStr.newline ++ stderr r) /\
  PyStr.rstrip (output r) = output r /\
  (stdout r = "" -> stderr r <> "" ->
   output r = PyStr.newline ++ stderr r /\
   PyStr.lstrip (output r) = stderr r).
Proof.
  intros H.
  apply run_safe_returned in H as (cmd_args & process & _ & _ & _ & -> & _).
  unfold output, completed_result. cbn [stdout stderr].
  set (out := strip_or_empty
                (if capture_output o then cp_stdout process else Some "")).
  set (err := strip_or_empty
                (if capture_output o then cp_stderr process else Some "")).
  destruct (strip_or_empty_trimmed
              (if capture_output o then cp_stdout process else Some ""))
    as [_ Hout].
  destruct (strip_or_empty_trimmed
              (if capture_output o then cp_stderr process else Some ""))
    as [Herr_l Herr].
  fold out in Hout. fold err in Herr, Herr_l.
  assert (Hne : err <> "" -> PyStr.is_empty err = false).
  { destruct err; [congruence|reflexivity]. }
  split; [intros ->; apply append_empty_r|].
  split; [intros He; rewrite (Hne He); reflexivity|].
  split.
  - destruct err as [|e0 err'] eqn:Eerr.
    + cbn [PyStr.is_empty negb]. rewrite append_empty_r. exact Hout.
    + cbn [PyStr.is_empty negb]. rewrite <- Eerr in *.
      assert (Hnl : PyStr.rstrip (PyStr.newline ++ err)
                    = PyStr.newline ++ err).
      { rewrite rstrip_append; rewrite Herr; [reflexivity|].
        rewrite Eerr; discriminate. }
      rewrite rstrip_append; rewrite Hnl; [reflexivity|discriminate].
  - intros Ho He. rewrite Ho, (Hne He). cbn [negb append].
    split; [reflexivity|]. exact Herr_l.
Qed.

Lemma run_safe_output_text_witness :
  exists r s',
    run_safe Demo.posix (CmdList ["false"]) Demo.no_check initial_state
    = (Return r, s') /\
    output r = PyStr.newline ++ "boom".
Proof.
  do 2 eexists. split; [reflexivity|].
  destruct (run_safe_output_text Demo.posix (CmdList ["false"])
              Demo.no_check initial_state _ _ eq_refl)
    as (_ & _ & _ & Hstart).
  apply Hstart; [reflexivity|discriminate].
Defined.

(* ------------------------------------------------------------------ *)
(** ** [run_background] *)

(** X8.  [run_background] either returns the very object
    [subprocess.Popen] gave, obtained with both streams piped, text mode,
    UTF-8 and a new session, or raises a [ProcessError].  Every failure,
    of the tokenisation as well as of the spawn, becomes a [ProcessError]
    whose message is [Unable to start background process], the command and
    the text of the original exception, and whose [command] and
    [exit_code] attributes are not set. *)
Theorem run_background_outcome (w : World) (Popen : Type)
    (os_popen : PopenArgs -> PopenKwargs -> Outcome Popen)
    (cmd : Command) (cwd : option string) (env : option Env) :
  (forall process,
     run_background w Popen os_popen cmd cwd env = Return process ->
     exists cmd_args,
       background_args w cmd = Return cmd_args /\
       os_popen cmd_args (background_kwargs cwd env) = Return process /\
       pk_start_new_session (background_kwargs cwd env) = true /\
       pk_stdout (background_kwargs cwd env) = PIPE /\
       pk_stderr (background_kwargs cwd env) = PIPE /\
       pk_encoding (background_kwargs cwd env) = "utf-8") /\
  (forall e,
     run_background w Popen os_popen cmd cwd env = Raise e ->
     exists cause,
       e = ProcessError (background_message w cmd cause) "" None /\
       (background_args w cmd = Raise cause \/
        exists cmd_args,
          background_args w cmd = Return cmd_args /\
          os_popen cmd_args (background_kwargs cwd env) = Raise cause)).
Proof.
  unfold run_background.
  destruct (background_args w cmd) as [cmd_args|e0] eqn:Hargs.
  - destruct (os_popen cmd_args (background_kwargs cwd env))
      as [process|e1] eqn:Hp.
    + split; [|discriminate].
      intros p H; inversion H; subst. exists cmd_args. auto 7.
    + split; [discriminate|].
      intros e H; inversion H; subst. exists e1. split; [reflexivity|].
      right; exists cmd_args; auto.
  - split; [discriminate|].
    intros e H; inversion H; subst. exists e0. auto.
Qed.

(** X9.  The argument [run_background] hands to [subprocess.Popen],
    compared with the one [run_safe] (shell mode not requested) hands to
    [subprocess.run].  For a list they are the same list on every
    platform.  For a string they are the same on a POSIX platform, where
    both go through [shlex.split].  On Windows they differ: [run_safe]
    splits the string on whitespace, [run_background] hands it over
    whole. *)
Theorem run_background_arguments (w : World) (cmd : Command) :
  (forall l, cmd = CmdList l ->
     background_args w cmd = Return (ArgList l) /\
     cmd_args_of w cmd false = Return (Argv l)) /\
  (IS_WINDOWS w = false ->
   background_args w cmd
   = outcome_map as_popen_args (cmd_args_of w cmd false)) /\
  (IS_WINDOWS w = true ->
   forall text, cmd = CmdStr text ->
     background_args w cmd = Return (ArgText text) /\
     cmd_args_of w cmd false = Return (Argv (PyStr.split text)) /\
     background_args w cmd
     <> outcome_map as_popen_args (cmd_args_of w cmd false)).
Proof.
  split; [intros l ->; split; reflexivity|].
  split; intros Hwin.
  - destruct cmd as [text|l]; unfold background_args, cmd_args_of;
      rewrite ?Hwin; [|reflexivity].
    destruct (Shlex.split text); reflexivity.
  - intros text ->. unfold background_args, cmd_args_of. rewrite Hwin.
    repeat split. discriminate.
Qed.

(* ------------------------------------------------------------------ *)
(** ** [find_executable] and the search path *)

Lemma split_sep_from_field (sep : ascii) (d : string) :
  free_of sep d = true ->
  forall tok rest,
    PyStr.split_sep_from sep tok (d ++ rest)
    = PyStr.split_sep_from sep (tok ++ d) rest.
Proof.
  induction d as [|c d IH]; intros Hd tok rest.
  - simpl; rewrite append_empty_r; reflexivity.
  - simpl in Hd. apply andb_true_iff in Hd as [Hc Hd].
    rewrite negb_true_iff in Hc.
    cbn [append PyStr.split_sep_from]. rewrite Hc, (IH Hd), append_assoc.
    reflexivity.
Qed.

(** Splitting what was joined gives the fields back. *)
Lemma split_sep_join (sep : ascii) (l : list string) :
  l <> [] ->
  Forall (fun d => free_of sep d = true) l ->
  PyStr.split_sep sep (PyStr.join (String sep "") l) = l.
Proof.
  unfold PyStr.split_sep.
  induction l as [|x l IH]; intros Hne Hall; [congruence|].
  inversion Hall as [|? ? Hx Hl]; subst.
  destruct l as [|y l].
  - cbn [PyStr.join]. rewrite <- (append_empty_r x) at 1.
    rewrite (split_sep_from_field sep x Hx). reflexivity.
  - rewrite join_cons by discriminate.
    rewrite (split_sep_from_field sep x Hx).
    cbn [append PyStr.split_sep_from]. rewrite Ascii.eqb_refl.
    rewrite IH; [reflexivity|discriminate|exact Hl].
Qed.

(** X10.  When no directory list is given, [find_executable] searches the
    directories of [PATH]: if [PATH] is the directories [dirs] joined by
    [os.pathsep], none of them containing that separator, the search is
    the one made for the explicit list [dirs].  On Windows the separator
    is the semicolon, elsewhere the colon. *)
Theorem find_executable_default_path (w : World) (name : string)
    (dirs : list string) :
  dirs <> [] ->
  Forall (fun d => free_of (pathsep w) d = true) dirs ->
  environ_PATH w = Some (PyStr.join (String (pathsep w) "") dirs) ->
  find_executable w name None = find_executable w name (Some dirs) /\
  pathsep w = (if IS_WINDOWS w then ";" else ":")%char.
Proof.
  intros Hne Hfree Hpath. split; [|reflexivity].
  unfold find_executable. rewrite Hpath. cbn [or_default].
  rewrite (split_sep_join _ _ Hne Hfree). reflexivity.
Qed.

Lemma find_executable_default_path_witness :
  find_executable Demo.posix "probe" None
  = find_executable Demo.posix "probe" (Some ["/usr/bin"; "/bin"]).
Proof.
  apply (find_executable_default_path Demo.posix "probe"
           ["/usr/bin"; "/bin"]).
  - discriminate.
  - repeat constructor.
  - reflexivity.
Defined.

(** X11.  When [PATH] is not set, or is empty, the default search of
    [find_executable] still probes one directory, the one named by the
    empty string: the candidate names are looked up as they are, that is
    relative to the current directory.  More generally an empty field of
    [PATH] (two separators in a row, a leading or a trailing separator) is
    searched as that directory. *)
Theorem find_executable_empty_path (w : World) (name : string) :
  (environ_PATH w = None \/ environ_PATH w = Some "" ->
   find_executable w name None = find_executable w name (Some [""])) /\
  (forall before after,
     environ_PATH w
     = Some (before ++ String (pathsep w) (String (pathsep w) after)) ->
     free_of (pathsep w) before = true ->
     find_executable w name None
     = find_executable w name
         (Some (before :: "" :: PyStr.split_sep (pathsep w) after))).
Proof.
  split.
  - intros [H | H]; unfold find_executable; rewrite H; reflexivity.
  - intros before after Hpath Hfree.
    assert (Hnext : forall tok rest',
               PyStr.split_sep_from (pathsep w) tok
                 (String (pathsep w) rest')
               = tok :: PyStr.split_sep_from (pathsep w) "" rest').
    { intros tok rest'. cbn [PyStr.split_sep_from]. rewrite Ascii.eqb_refl.
      reflexivity. }
    unfold find_executable. rewrite Hpath. cbn [or_default].
    unfold PyStr.split_sep.
    rewrite (split_sep_from_field _ _ Hfree), !Hnext. reflexivity.
Qed.

Example run_background_missing :
  run_background Demo.posix nat demo_popen (CmdStr "missing --now") None None
  = Raise (ProcessError
             (background_message Demo.posix (CmdStr "missing --now")
                (FileNotFoundError
                   "[Errno 2] No such file or directory: 'missing'"))
             "" None).
Proof. reflexivity. Qed.

Example run_background_windows_string :
  background_args Demo.windows (CmdStr "notepad my file.txt")
  = Return (ArgText "notepad my file.txt") /\
  cmd_args_of Demo.windows (CmdStr "notepad my file.txt") false
  = Return (Argv ["notepad"; "my"; "file.txt"]).
Proof. split; reflexivity. Qed.

(** With an [os.access] that does not raise, what a probe does to the
    search depends on [is_file] alone. *)
Lemma probe_with_access (w : World) (f : Path -> bool) (p : Path) :
  probe (with_access w f) p
  = match is_file w p with
    | Raise e => Some (Raise e)
    | Return true => Some (Return (Some p))
    | Return false => None
    end.
Proof. unfold probe, access_raises. cbn. reflexivity. Qed.

Lemma first_probe_with_access (w : World) (f g : Path -> bool)
    (l : list Path) :
  first_probe (with_access w f) l = first_probe (with_access w g) l.
Proof.
  induction l as [|p l IH]; [reflexivity|].
  cbn [first_probe]. rewrite !probe_with_access, IH. reflexivity.
Qed.

Lemma first_probe_file (w : World) (f : Path -> bool) (l : list Path)
    (p : Path) :
  first_probe (with_access w f) l = Return (Some p) ->
  is_file w p = Return true.
Proof.
  induction l as [|q l IH]; cbn [first_probe]; [discriminate|].
  rewrite probe_with_access.
  destruct (is_file w q) as [[|]|e] eqn:Hq; [|exact IH|discriminate].
  intros H. inversion H; subst. exact Hq.
Qed.

(** X12.  The answer of [os.access] plays no part in [find_executable]:
    whatever [os.access] answers, for the same files the same path is
    returned, and the path returned is an existing file.  A file that is
    not executable is therefore returned like any other. *)
Theorem find_executable_ignores_access (w : World) (f g : Path -> bool)
    (name : string) (paths : option (list string)) :
  find_executable (with_access w f) name paths
  = find_executable (with_access w g) name paths /\
  (forall p,
     find_executable (with_access w f) name paths = Return (Some p) ->
     is_file w p = Return true) /\
  (forall path_dir,
     is_file w (path_join w path_dir name) = Return true ->
     find_executable (with_access w (fun _ => false)) name (Some [path_dir])
     = Return (Some (path_join w path_dir name))).
Proof.
  assert (H : forall h l,
             find_executable (with_access w h) name l
             = first_probe (with_access w h)
                 (flat_map (fun d => map (path_join w d)
                                         (possible_names w name))
                    (match l with
                     | Some l => l
                     | None => PyStr.split_sep (pathsep w)
                                 (or_default (environ_PATH w) "")
                     end))).
  { intros h l. unfold find_executable. rewrite find_in_paths_first.
    destruct l; reflexivity. }
  split; [rewrite !H; apply first_probe_with_access|].
  split.
  - intros p Hp. rewrite H in Hp. apply first_probe_file in Hp. exact Hp.
  - intros path_dir Hfile. rewrite H. unfold possible_names.
    cbn [flat_map map app first_probe]. rewrite probe_with_access, Hfile.
    reflexivity.
Qed.

(* ------------------------------------------------------------------ *)
(** ** The platform flags *)

Lemma lower_char_idempotent (c : ascii) :
  Platform.lower_char (Platform.lower_char c) = Platform.lower_char c.
Proof.
  destruct c as [b0 b1 b2 b3 b4 b5 b6 b7].
  destruct b0, b1, b2, b3, b4, b5, b6, b7; reflexivity.
Qed.



Example platform_flags_freebsd :
  Platform.IS_WINDOWS "freebsd13" = false /\
  Platform.IS_LINUX "freebsd13" = false /\
  Platform.IS_MACOS "freebsd13" = false /\
  Platform.IS_UNIX "freebsd13" = true /\
  Platform.IS_LINUX "Linux2" = true.
Proof. repeat split; reflexivity. Qed.

(* ------------------------------------------------------------------ *)
(** ** The platform decorators *)

Lemma current_platform_cases (sys_platform : string) :
  (Compat.current_platform sys_platform = "windows"
   /\ Platform.IS_WINDOWS sys_platform = true
   /\ Platform.IS_LINUX sys_platform = false) \/
  (Compat.current_platform sys_platform = "linux"
   /\ Platform.IS_WINDOWS sys_platform = false
   /\ Platform.IS_LINUX sys_platform = true) \/
  (Compat.current_platform sys_platform = "macos"
   /\ Platform.IS_WINDOWS sys_platform = false
   /\ Platform.IS_LINUX sys_platform = false).
Proof.
  unfold Compat.current_platform.
  destruct (Platform.IS_WINDOWS sys_platform) eqn:Hw.
  - left. apply String.eqb_eq in Hw. subst. auto.
  - destruct (Platform.IS_LINUX sys_platform); auto.
Qed.

(** A name is a key that holds exactly when it is the name of the
    current platform. *)
Lemma platform_names_get_current (sys_platform key : string) :
  Compat.platform_names_get sys_platform key
  = String.eqb key (Compat.current_platform sys_platform).
Proof.
  unfold Compat.platform_names_get.
  destruct (current_platform_cases sys_platform)
    as [(-> & -> & ->) | [(-> & -> & ->) | (-> & -> & ->)]];
    destruct (String.eqb key "windows") eqn:E1;
    try (apply String.eqb_eq in E1; subst; reflexivity);
    destruct (String.eqb key "linux") eqn:E2;
    try (apply String.eqb_eq in E2; subst; reflexivity);
    destruct (String.eqb key "macos") eqn:E3;
    try (apply String.eqb_eq in E3; subst; reflexivity);
    reflexivity.
Qed.

(** X14.  A function decorated with [platform_specific(platforms)] runs
    exactly when one of the names in [platforms], put in lower case, is
    the name of the current platform, which is one of [windows], [linux]
    and [macos]; otherwise the call raises a [RuntimeError] naming the
    function, the list and the current platform, and the function is not
    run.  So the names are matched whatever their letter case, a name
    other than the three never matches, an empty list refuses every
    platform, and of [windows_only], [linux_only] and [macos_only] exactly
    the one named after the current platform lets the function run. *)
Theorem platform_specific_runs (sys_platform : string)
    (str_of_list : list string -> string) (platforms : list string) :
  Compat.supported sys_platform platforms
  = existsb (fun p => String.eqb (Platform.lower p)
                        (Compat.current_platform sys_platform)) platforms /\
  (Compat.current_platform sys_platform = "windows"
   \/ Compat.current_platform sys_platform = "linux"
   \/ Compat.current_platform sys_platform = "macos") /\
  (forall (A B : Type) name (func : A -> B) args,
     Compat.platform_specific sys_platform str_of_list platforms name
       func args
     = if Compat.supported sys_platform platforms
       then Compat.Ran (func args)
       else Compat.RuntimeError
              ("Function " ++ name ++ " can only run at "
               ++ str_of_list platforms ++ ",current platform: "
               ++ Compat.current_platform sys_platform)) /\
  Compat.supported sys_platform [] = false /\
  (forall name,
     In name ["windows"; "linux"; "macos"] ->
     Compat.supported sys_platform [name]
     = String.eqb name (Compat.current_platform sys_platform)) /\
  Compat.supported sys_platform [Compat.current_platform sys_platform]
  = true.
Proof.
  assert (Hsup : forall l,
             Compat.supported sys_platform l
             = existsb (fun p => String.eqb (Platform.lower p)
                                   (Compat.current_platform sys_platform))
                 l).
  { intros l. unfold Compat.supported. induction l as [|x l IH];
      simpl; [reflexivity|].
    rewrite platform_names_get_current, IH. reflexivity. }
  split; [apply Hsup|].
  split.
  { destruct (current_platform_cases sys_platform)
      as [(H & _) | [(H & _) | (H & _)]]; auto. }
  split.
  { intros A B name func args. unfold Compat.platform_specific.
    destruct (Compat.supported sys_platform platforms); reflexivity. }
  split; [reflexivity|].
  split.
  { intros name Hin. rewrite Hsup. simpl. rewrite orb_false_r.
    destruct Hin as [<- | [<- | [<- | []]]]; reflexivity. }
  rewrite Hsup. simpl. rewrite orb_false_r.
  destruct (current_platform_cases sys_platform)
    as [(-> & _) | [(-> & _) | (-> & _)]]; reflexivity.
Qed.

(** X15.  [macos_only] does not test for macOS: it lets the function run
    on every platform that is neither [win32] nor named after Linux,
    whether or not [sys.platform] is [darwin], and on no other.  On macOS
    it runs; on a platform that is none of the three, where [IS_MACOS] is
    false, it runs as well. *)
Theorem macos_only_runs (sys_platform : string)
    (str_of_list : list string -> string) (A B : Type) (name : string)
    (func : A -> B) (args : A) :
  (Platform.IS_WINDOWS sys_platform = false ->
   Platform.IS_LINUX sys_platform = false ->
   Compat.macos_only sys_platform str_of_list name func args
   = Compat.Ran (func args)) /\
  (Platform.IS_MACOS sys_platform = true ->
   Compat.macos_only sys_platform str_of_list name func args
   = Compat.Ran (func args)) /\
  (Platform.IS_WINDOWS sys_platform = true
   \/ Platform.IS_LINUX sys_platform = true ->
   exists message,
     Compat.macos_only sys_platform str_of_list name func args
     = Compat.RuntimeError message).
Proof.
  unfold Compat.macos_only, Compat.platform_specific, Compat.supported.
  cbn [existsb Platform.lower Platform.lower_char].
  change (Compat.platform_names_get sys_platform _)
    with (negb (Platform.IS_WINDOWS sys_platform)
          && negb (Platform.IS_LINUX sys_platform)).
  split; [intros -> ->; reflexivity|].
  split.
  - intros Hm. apply String.eqb_eq in Hm. subst. reflexivity.
  - intros [-> | ->]; rewrite ?andb_false_r; simpl; eauto.
Qed.

Example macos_only_on_freebsd :
  Compat.macos_only "freebsd13" PyStr.str_of_list "afplay" (fun x : nat => x) 7
  = Compat.Ran 7 /\
  Platform.IS_MACOS "freebsd13" = false.
Proof. split; reflexivity. Qed.

(* ------------------------------------------------------------------ *)
(** ** Removing, copying and moving files *)

Example safe_remove_missing :
  DemoFS.safe_remove "/tmp/none" true DemoFS.disk
  = (Files.Done true, DemoFS.disk).
Proof. reflexivity. Qed.

Example bulk_remove_mixed :
  DemoFS.bulk_remove ["/tmp/a"; "/ro/data"; "/tmp/none"; "/locked"] true
    DemoFS.disk
  = ({| Files.success := 2; Files.failed := 2;
        Files.errors :=
          ["Failed to remove /ro/data: Cannot delete file /ro/data: [Errno 30] Read-only file system: '/ro/data'";
           "Failed to remove /locked: Cannot delete file /locked: [Errno 13] Permission denied: '/locked'"]
     |},
     ["/tmp/b"; "/ro/data"]).
Proof. reflexivity. Qed.

Example safe_move_overwrites :
  DemoFS.safe_move "/tmp/a" "/tmp/b" true DemoFS.disk
  = (Files.Done true, ["/tmp/b"; "/ro/data"]).
Proof. reflexivity. Qed.

Section FilesFacts.

Variable is_windows : bool.
Variable FS : Type.
Variable path_exists path_is_dir : Path -> FS -> Files.FsOutcome bool.
Variable os_chmod shutil_rmtree path_rmdir path_unlink
  : Path -> FS -> Files.FsOutcome unit * FS.
Variable shutil_copytree
  : Path -> Path -> bool -> bool -> FS -> Files.FsOutcome unit * FS.
Variable mkdir_parent : Path -> FS -> Files.FsOutcome unit * FS.
Variable shutil_copy2 shutil_copy shutil_move
  : Path -> Path -> FS -> Files.FsOutcome unit * FS.

Let safe_remove :=
  Files.safe_remove is_windows FS path_exists path_is_dir os_chmod
     shutil_rmtree path_rmdir path_unlink.
Let safe_copy :=
  Files.safe_copy FS path_exists path_is_dir shutil_copytree mkdir_parent
     shutil_copy2 shutil_copy.
Let safe_move :=
  Files.safe_move is_windows FS path_exists path_is_dir os_chmod
     shutil_rmtree path_rmdir path_unlink shutil_move.
Let bulk_remove :=
  Files.bulk_remove is_windows FS path_exists path_is_dir os_chmod
     shutil_rmtree path_rmdir path_unlink.
Let bulk_remove_from :=
  Files.bulk_remove_from is_windows FS path_exists path_is_dir os_chmod
     shutil_rmtree path_rmdir path_unlink.
Let bulk_copy :=
  Files.bulk_copy FS path_exists path_is_dir shutil_copytree mkdir_parent
     shutil_copy2 shutil_copy.
Let bulk_copy_from :=
  Files.bulk_copy_from FS path_exists path_is_dir shutil_copytree
     mkdir_parent shutil_copy2 shutil_copy.

Ltac fs_unfold :=
  unfold safe_remove, safe_copy, safe_move;
  unfold Files.safe_move;
  unfold Files.safe_remove, Files.safe_copy,
    Files.except_OSError, Files.except_pass, Files.bind, Files.read,
    Files.ret, Files.fail;
  cbv beta iota zeta delta [negb andb].

(** One call of the file system is split into its possible outcomes. *)
Ltac fs_call :=
  match goal with
  | |- context [path_exists ?p ?f] => destruct (path_exists p f) as [[|]|[]]
  | |- context [path_is_dir ?p ?f] => destruct (path_is_dir p f) as [[|]|[]]
  | |- context [os_chmod ?p ?f] => destruct (os_chmod p f) as [[[]|[]] ?]
  | |- context [shutil_rmtree ?p ?f] =>
      destruct (shutil_rmtree p f) as [[[]|[]] ?]
  | |- context [path_rmdir ?p ?f] => destruct (path_rmdir p f) as [[[]|[]] ?]
  | |- context [path_unlink ?p ?f] =>
      destruct (path_unlink p f) as [[[]|[]] ?]
  | |- context [shutil_copytree ?p ?q ?a ?b ?f] =>
      destruct (shutil_copytree p q a b f) as [[[]|[]] ?]
  | |- context [mkdir_parent ?p ?f] =>
      destruct (mkdir_parent p f) as [[[]|[]] ?]
  | |- context [shutil_copy2 ?p ?q ?f] =>
      destruct (shutil_copy2 p q f) as [[[]|[]] ?]
  | |- context [shutil_copy ?p ?q ?f] =>
      destruct (shutil_copy p q f) as [[[]|[]] ?]
  | |- context [shutil_move ?p ?q ?f] =>
      destruct (shutil_move p q f) as [[[]|[]] ?]
  end; cbv beta iota zeta delta [negb andb].

Ltac fs_cases := repeat fs_call.

(** What the three operations have in common: they return [True] or
    raise, and what they raise is not an [OSError]. *)
Lemma safe_remove_sound (path : Path) (recursive : bool) (fs : FS) :
  (forall b fs', safe_remove path recursive fs = (Files.Done b, fs') ->
                 b = true) /\
  (forall e fs', safe_remove path recursive fs = (Files.Failed e, fs') ->
                 forall text, e <> Files.OSError text).
Proof.
  fs_unfold. destruct is_windows, recursive;
    (split; intros x fs'; fs_cases; intros H; inversion H; subst;
     try reflexivity; intros ?; discriminate).
Qed.

Lemma safe_copy_sound (src dst : Path) (overwrite preserve : bool)
    (fs : FS) :
  (forall b fs', safe_copy src dst overwrite preserve fs
                 = (Files.Done b, fs') -> b = true) /\
  (forall e fs', safe_copy src dst overwrite preserve fs
                 = (Files.Failed e, fs') ->
                 forall text, e <> Files.OSError text).
Proof.
  fs_unfold. destruct overwrite, preserve;
    (split; intros x fs'; fs_cases; intros H; inversion H; subst;
     try reflexivity; intros ?; discriminate).
Qed.

(** X16.  [safe_remove] returns [True] or raises, never [False]; what it
    raises is never an [OSError] (an [OSError] of the file system comes
    out as a [FileOperationError]).  For a path that does not exist it
    returns [True] and leaves the file system as it is.  When the
    existence test itself fails with an [OSError], the error is
    [Cannot delete file], the path and the text of the [OSError], and the
    file system is left as it is. *)
Theorem safe_remove_outcome (path : Path) (recursive : bool) (fs : FS) :
  (forall b fs', safe_remove path recursive fs = (Files.Done b, fs') ->
                 b = true) /\
  (forall e fs', safe_remove path recursive fs = (Files.Failed e, fs') ->
                 forall text, e <> Files.OSError text) /\
  (path_exists path fs = Files.Done false ->
   safe_remove path recursive fs = (Files.Done true, fs)) /\
  (forall text,
     path_exists path fs = Files.Failed (Files.OSError text) ->
     safe_remove path recursive fs
     = (Files.Failed
          (Files.FileOperationError
             ("Cannot delete file " ++ path ++ ": " ++ text)), fs)).
Proof.
  destruct (safe_remove_sound path recursive fs) as [Htrue Hexc].
  split; [exact Htrue|]. split; [exact Hexc|].
  split; [intros H|intros text H]; fs_unfold; rewrite H; reflexivity.
Qed.

(** The counts kept by the loop of [bulk_remove]. *)
Lemma bulk_remove_from_counts (recursive : bool) (paths : list Path) :
  forall results fs r fs',
    bulk_remove_from results paths recursive fs = (r, fs') ->
    Files.success r + Files.failed r
    = Files.success results + Files.failed results + length paths /\
    exists new,
      Files.errors r = (Files.errors results ++ new)%list /\
      Files.failed r = Files.failed results + length new /\
      Forall (fun m => exists path text,
                  In path paths /\
                  m = "Failed to remove " ++ path ++ ": " ++ text) new.
Proof.
  unfold bulk_remove_from.
  induction paths as [|path paths IH]; intros results fs r fs1 Hloop.
  - simpl in Hloop. inversion Hloop; subst. split; [simpl; lia|].
    exists []. rewrite app_nil_r. repeat split; [simpl; lia|constructor].
  - cbn [Files.bulk_remove_from] in Hloop.
    destruct (safe_remove_sound path recursive fs) as [Htrue _].
    unfold safe_remove in Htrue.
    destruct (Files.safe_remove is_windows FS path_exists path_is_dir
                os_chmod shutil_rmtree path_rmdir path_unlink path
                recursive fs) as [[b|e] fs'] eqn:Hrm.
    + rewrite (Htrue b fs' eq_refl) in Hloop.
      destruct (IH _ _ _ _ Hloop) as (Hsum & new & Herr & Hfail & Hall).
      cbn [Files.success Files.failed Files.errors] in *.
      split; [simpl; lia|]. exists new.
      repeat split; [exact Herr|exact Hfail|].
      eapply Forall_impl; [|exact Hall].
      intros m (p & t & Hin & ->). exists p, t. split; [right; exact Hin|].
      reflexivity.
    + destruct (IH _ _ _ _ Hloop) as (Hsum & new & Herr & Hfail & Hall).
      cbn [Files.success Files.failed Files.errors] in *.
      split; [simpl; lia|].
      exists (("Failed to remove " ++ path ++ ": " ++ Files.exc_text e)
              :: new).
      rewrite <- app_assoc in Herr.
      repeat split; [exact Herr|simpl; lia|].
      constructor.
      * exists path, (Files.exc_text e). split; [left|]; reflexivity.
      * eapply Forall_impl; [|exact Hall].
        intros m (p & t & Hin & ->). exists p, t.
        split; [right; exact Hin|]. reflexivity.
Qed.

(** X17.  [bulk_remove] never raises, and its counts add up: [success]
    plus [failed] is the number of paths, and [errors] holds one message
    per failure, each of them [Failed to remove], a path of the list and
    the text of the exception [safe_remove] raised (the other message of
    the loop, for a [False] answer, never occurs).  When none of the paths
    exists, they all count as successes and the file system is left as it
    is. *)
Theorem bulk_remove_counts (paths : list Path) (recursive : bool) (fs : FS) :
  let r := fst (bulk_remove paths recursive fs) in
  Files.success r + Files.failed r = length paths /\
  length (Files.errors r) = Files.failed r /\
  Forall (fun m => exists path text,
              In path paths /\
              m = "Failed to remove " ++ path ++ ": " ++ text)
         (Files.errors r) /\
  ((forall path, In path paths -> path_exists path fs = Files.Done false) ->
   bulk_remove paths recursive fs
   = ({| Files.success := length paths; Files.failed := 0;
         Files.errors := [] |}, fs)).
Proof.
  intros r.
  destruct (bulk_remove_from_counts recursive paths
              {| Files.success := 0; Files.failed := 0; Files.errors := [] |}
              fs r (snd (bulk_remove paths recursive fs)))
    as (Hsum & new & Herr & Hfail & Hall).
  { subst r. unfold bulk_remove, Files.bulk_remove, bulk_remove_from.
    apply surjective_pairing. }
  clearbody r. unfold bulk_remove, Files.bulk_remove.
  cbn [Files.success Files.failed Files.errors app] in *.
  split; [lia|]. split; [rewrite Herr, Hfail; reflexivity|].
  split; [rewrite Herr; exact Hall|].
  intros Hmissing.
  assert (Hloop : forall l n,
             (forall path, In path l ->
                path_exists path fs = Files.Done false) ->
             bulk_remove_from
               {| Files.success := n; Files.failed := 0; Files.errors := [] |}
               l recursive fs
             = ({| Files.success := n + length l; Files.failed := 0;
                   Files.errors := [] |}, fs)).
  { unfold bulk_remove_from.
    induction l as [|p l IH]; intros n Hl.
    - simpl. rewrite Nat.add_0_r. reflexivity.
    - cbn [Files.bulk_remove_from].
      assert (Hp : safe_remove p recursive fs = (Files.Done true, fs)).
      { fs_unfold. rewrite (Hl p (or_introl eq_refl)). reflexivity. }
      unfold safe_remove in Hp. rewrite Hp. cbn [Files.success Files.failed Files.errors].
      rewrite IH by (intros q Hq; apply Hl; right; exact Hq).
      simpl. rewrite <- Nat.add_assoc. reflexivity. }
  apply (Hloop paths 0 Hmissing).
Qed.

(** X18.  [safe_copy] returns [True] or raises, never [False], and never
    lets an [OSError] out.  It refuses before touching the file system:
    when the source does not exist, and when the destination exists while
    [overwrite] is off, it raises a [FileOperationError] saying so and
    the file system is left as it is.  When the source is a file and the
    destination does not exist, the copy is attempted at once: the parent
    directory of the destination is not created. *)
Theorem safe_copy_outcome (src dst : Path) (overwrite preserve : bool)
    (fs : FS) :
  (forall b fs', safe_copy src dst overwrite preserve fs
                 = (Files.Done b, fs') -> b = true) /\
  (forall e fs', safe_copy src dst overwrite preserve fs
                 = (Files.Failed e, fs') ->
                 forall text, e <> Files.OSError text) /\
  (path_exists src fs = Files.Done false ->
   safe_copy src dst overwrite preserve fs
   = (Files.Failed
        (Files.FileOperationError
           ("The source file does not exist: " ++ src)), fs)) /\
  (forall src_is_dir,
     path_exists src fs = Files.Done true ->
     path_is_dir src fs = Files.Done src_is_dir ->
     path_exists dst fs = Files.Done true ->
     overwrite = false ->
     safe_copy src dst overwrite preserve fs
     = (Files.Failed
          (Files.FileOperationError
             ((if src_is_dir
               then "The target directory already exists: "
               else "The target file already exists: ") ++ dst)), fs)) /\
  (path_exists src fs = Files.Done true ->
   path_is_dir src fs = Files.Done false ->
   path_exists dst fs = Files.Done false ->
   safe_copy src dst overwrite preserve fs
   = match (if preserve then shutil_copy2 src dst fs
            else shutil_copy src dst fs) with
     | (Files.Done _, fs') => (Files.Done true, fs')
     | (Files.Failed (Files.OSError text), fs') =>
         (Files.Failed
            (Files.FileOperationError
               ("Copy failed " ++ src ++ " -> " ++ dst ++ ": " ++ text)),
          fs')
     | (Files.Failed e, fs') => (Files.Failed e, fs')
     end).
Proof.
  destruct (safe_copy_sound src dst overwrite preserve fs) as [Htrue Hexc].
  split; [exact Htrue|]. split; [exact Hexc|].
  split; [intros H; fs_unfold; rewrite H; reflexivity|].
  split.
  - intros src_is_dir Hs Hd Hdst ->. fs_unfold. rewrite Hs. cbv beta iota.
    rewrite Hd. destruct src_is_dir; cbv beta iota; rewrite Hdst;
      reflexivity.
  - intros Hs Hd Hdst. fs_unfold. rewrite Hs. cbv beta iota. rewrite Hd.
    cbv beta iota. rewrite Hdst. cbv beta iota.
    destruct preserve; cbv beta iota; fs_cases; reflexivity.
Qed.

Lemma safe_move_sound (src dst : Path) (overwrite : bool) (fs : FS) :
  (forall b fs', safe_move src dst overwrite fs = (Files.Done b, fs') ->
                 b = true) /\
  (forall e fs', safe_move src dst overwrite fs = (Files.Failed e, fs') ->
                 forall text, e <> Files.OSError text).
Proof.
  unfold safe_move, Files.safe_move, Files.except_OSError, Files.bind,
    Files.read, Files.ret, Files.fail.
  cbv beta iota zeta delta [negb andb].
  destruct (path_exists src fs) as [[|]|[]]; cbv beta iota;
    try (split; intros ? ? H; inversion H; subst;
         try reflexivity; intros ?; discriminate).
  destruct (path_exists dst fs) as [[|]|[]]; cbv beta iota;
    try (split; intros ? ? H; inversion H; subst;
         try reflexivity; intros ?; discriminate).
  - destruct overwrite; cbv beta iota;
      try (split; intros ? ? H; inversion H; subst;
           try reflexivity; intros ?; discriminate).
    destruct (safe_remove_sound dst true fs) as [_ Hexc].
    unfold safe_remove in Hexc.
    destruct (Files.safe_remove is_windows FS path_exists path_is_dir
                os_chmod shutil_rmtree path_rmdir path_unlink dst true fs)
      as [[b|e] fs1]; cbv beta iota.
    + fs_cases; split; intros ? ? H; inversion H; subst;
        try reflexivity; intros ?; discriminate.
    + specialize (Hexc e fs1 eq_refl).
      destruct e as [t|m|t]; [destruct (Hexc t eq_refl)| |];
        split; intros ? ? H; inversion H; subst; intros ?; discriminate.
  - fs_cases; split; intros ? ? H; inversion H; subst;
      try reflexivity; intros ?; discriminate.
Qed.

(** X19.  [safe_move] returns [True] or raises, never [False], and never
    lets an [OSError] out.  When the source does not exist, and when the
    destination exists while [overwrite] is off, it raises a
    [FileOperationError] saying so and the file system is left as it is.
    With [overwrite] on, an existing destination is removed first, with
    [safe_remove] and recursively; the removal is not undone if the move
    then fails: the error is [Move failed] and the file system is the one
    the removal and the failed move left. *)
Theorem safe_move_outcome (src dst : Path) (overwrite : bool) (fs : FS) :
  (forall b fs', safe_move src dst overwrite fs = (Files.Done b, fs') ->
                 b = true) /\
  (forall e fs', safe_move src dst overwrite fs = (Files.Failed e, fs') ->
                 forall text, e <> Files.OSError text) /\
  (path_exists src fs = Files.Done false ->
   safe_move src dst overwrite fs
   = (Files.Failed
        (Files.FileOperationError
           ("The source file does not exist: " ++ src)), fs)) /\
  (path_exists src fs = Files.Done true ->
   path_exists dst fs = Files.Done true ->
   overwrite = false ->
   safe_move src dst overwrite fs
   = (Files.Failed
        (Files.FileOperationError
           ("The target file already exists: " ++ dst)), fs)) /\
  (forall fs1 fs2 text,
     path_exists src fs = Files.Done true ->
     path_exists dst fs = Files.Done true ->
     overwrite = true ->
     safe_remove dst true fs = (Files.Done true, fs1) ->
     shutil_move src dst fs1 = (Files.Failed (Files.OSError text), fs2) ->
     safe_move src dst overwrite fs
     = (Files.Failed
          (Files.FileOperationError
             ("Move failed " ++ src ++ " -> " ++ dst ++ ": " ++ text)),
        fs2)).
Proof.
  destruct (safe_move_sound src dst overwrite fs) as [Htrue Hexc].
  split; [exact Htrue|]. split; [exact Hexc|].
  unfold safe_move, safe_remove, Files.safe_move, Files.except_OSError,
    Files.bind, Files.read, Files.ret, Files.fail.
  cbv beta iota zeta delta [negb andb].
  split; [intros H; rewrite H; reflexivity|].
  split.
  - intros Hs Hd ->. rewrite Hs. cbv beta iota. rewrite Hd. reflexivity.
  - intros fs1 fs2 text Hs Hd -> Hrm Hmv. rewrite Hs. cbv beta iota.
    rewrite Hd. cbv beta iota. rewrite Hrm. cbv beta iota. rewrite Hmv.
    reflexivity.
Qed.

(** The counts kept by the loop of [bulk_copy]. *)
Lemma bulk_copy_from_counts (overwrite : bool)
    (pairs : list (Path * Path)) :
  forall results fs r fs',
    bulk_copy_from results pairs overwrite fs = (r, fs') ->
    Files.success r + Files.failed r
    = Files.success results + Files.failed results + length pairs /\
    exists new,
      Files.errors r = (Files.errors results ++ new)%list /\
      Files.failed r = Files.failed results + length new /\
      Forall (fun m => exists src dst text,
                  In (src, dst) pairs /\
                  m = "Failed to copy " ++ src ++ " -> " ++ dst ++ ": "
                      ++ text) new.
Proof.
  unfold bulk_copy_from.
  induction pairs as [|[src dst] pairs IH]; intros results fs r fs1 Hloop.
  - simpl in Hloop. inversion Hloop; subst. split; [simpl; lia|].
    exists []. rewrite app_nil_r. repeat split; [simpl; lia|constructor].
  - cbn [Files.bulk_copy_from] in Hloop.
    destruct (safe_copy_sound src dst overwrite true fs) as [Htrue _].
    unfold safe_copy in Htrue.
    destruct (Files.safe_copy FS path_exists path_is_dir shutil_copytree
                mkdir_parent shutil_copy2 shutil_copy src dst overwrite
                true fs) as [[b|e] fs'] eqn:Hcp.
    + rewrite (Htrue b fs' eq_refl) in Hloop.
      destruct (IH _ _ _ _ Hloop) as (Hsum & new & Herr & Hfail & Hall).
      cbn [Files.success Files.failed Files.errors] in *.
      split; [simpl; lia|]. exists new.
      repeat split; [exact Herr|exact Hfail|].
      eapply Forall_impl; [|exact Hall].
      intros m (a & b' & t & Hin & ->). exists a, b', t.
      split; [right; exact Hin|]. reflexivity.
    + destruct (IH _ _ _ _ Hloop) as (Hsum & new & Herr & Hfail & Hall).
      cbn [Files.success Files.failed Files.errors] in *.
      split; [simpl; lia|].
      exists (("Failed to copy " ++ src ++ " -> " ++ dst ++ ": "
               ++ Files.exc_text e) :: new).
      rewrite <- app_assoc in Herr.
      repeat split; [exact Herr|simpl; lia|].
      constructor.
      * exists src, dst, (Files.exc_text e). split; [left|]; reflexivity.
      * eapply Forall_impl; [|exact Hall].
        intros m (a & b' & t & Hin & ->). exists a, b', t.
        split; [right; exact Hin|]. reflexivity.
Qed.

(** The loop of [bulk_copy] adds to the results it starts from. *)
Lemma bulk_copy_from_adds (overwrite : bool) (pairs : list (Path * Path)) :
  forall results fs,
    bulk_copy_from results pairs overwrite fs
    = ({| Files.success :=
            Files.success results
            + Files.success (fst (bulk_copy pairs overwrite fs));
          Files.failed :=
            Files.failed results
            + Files.failed (fst (bulk_copy pairs overwrite fs));
          Files.errors :=
            (Files.errors results
             ++ Files.errors (fst (bulk_copy pairs overwrite fs)))%list |},
       snd (bulk_copy pairs overwrite fs)).
Proof.
  unfold bulk_copy, Files.bulk_copy, bulk_copy_from.
  induction pairs as [|[src dst] pairs IH]; intros [s f e] fs.
  - simpl. rewrite !Nat.add_0_r, app_nil_r. reflexivity.
  - cbn [Files.bulk_copy_from].
    destruct (Files.safe_copy FS path_exists path_is_dir shutil_copytree
                mkdir_parent shutil_copy2 shutil_copy src dst overwrite
                true fs) as [[[|]|x] fs'];
      cbn [Files.success Files.failed Files.errors];
      match goal with
      | |- Files.bulk_copy_from _ _ _ _ _ _ _ ?a _ _ _ = _ =>
          rewrite (IH a fs')
      end;
      match goal with
      | |- context [Files.bulk_copy_from _ _ _ _ _ _ _ ?b pairs overwrite
                      fs'] =>
          lazymatch b with
          | {| Files.success := 0; Files.failed := 0; Files.errors := [] |}
            => fail
          | _ => rewrite (IH b fs')
          end
      end;
      cbn [Files.success Files.failed Files.errors fst snd app];
      f_equal; f_equal; try lia;
      rewrite <- ?app_assoc; reflexivity.
Qed.

(** X20.  [bulk_copy] never raises, and its counts add up: [success]
    plus [failed] is the number of pairs, and [errors] holds one message
    per failure, each of them [Failed to copy], a pair of the list and the
    text of the exception [safe_copy] raised.  A pair whose source does
    not exist is such a failure, and does not stop the loop: the other
    pairs are copied as they would be without it. *)
Theorem bulk_copy_counts (pairs : list (Path * Path)) (overwrite : bool)
    (fs : FS) :
  let r := fst (bulk_copy pairs overwrite fs) in
  Files.success r + Files.failed r = length pairs /\
  length (Files.errors r) = Files.failed r /\
  Forall (fun m => exists src dst text,
              In (src, dst) pairs /\
              m = "Failed to copy " ++ src ++ " -> " ++ dst ++ ": " ++ text)
         (Files.errors r) /\
  (forall src dst rest,
     pairs = (src, dst) :: rest ->
     path_exists src fs = Files.Done false ->
     bulk_copy pairs overwrite fs
     = ({| Files.success :=
             Files.success (fst (bulk_copy rest overwrite fs));
           Files.failed :=
             1 + Files.failed (fst (bulk_copy rest overwrite fs));
           Files.errors :=
             ("Failed to copy " ++ src ++ " -> " ++ dst ++ ": "
              ++ "The source file does not exist: " ++ src)
             :: Files.errors (fst (bulk_copy rest overwrite fs)) |},
        snd (bulk_copy rest overwrite fs))).
Proof.
  intros r.
  destruct (bulk_copy_from_counts overwrite pairs
              {| Files.success := 0; Files.failed := 0; Files.errors := [] |}
              fs r (snd (bulk_copy pairs overwrite fs)))
    as (Hsum & new & Herr & Hfail & Hall).
  { subst r. unfold bulk_copy, Files.bulk_copy, bulk_copy_from.
    apply surjective_pairing. }
  cbn [Files.success Files.failed Files.errors app] in *.
  split; [lia|]. split; [rewrite Herr, Hfail; reflexivity|].
  split; [rewrite Herr; exact Hall|].
  intros src dst rest -> Hsrc.
  assert (Hcp : safe_copy src dst overwrite true fs
                = (Files.Failed
                     (Files.FileOperationError
                        ("The source file does not exist: " ++ src)), fs)).
  { fs_unfold. rewrite Hsrc. reflexivity. }
  unfold safe_copy in Hcp.
  unfold bulk_copy at 1. unfold Files.bulk_copy.
  cbn [Files.bulk_copy_from]. rewrite Hcp.
  cbn [Files.success Files.failed Files.errors app Files.exc_text].
  match goal with
  | |- Files.bulk_copy_from _ _ _ _ _ _ _ ?a _ _ _ = _ =>
      pose proof (bulk_copy_from_adds overwrite rest a fs) as Hadd
  end.
  unfold bulk_copy_from in Hadd. rewrite Hadd.
  cbn [Files.success Files.failed Files.errors app].
  reflexivity.
Qed.

End FilesFacts.

(* ------------------------------------------------------------------ *)
(** ** Searching for files *)

(** A case-sensitive search keeps every file the glob yields (here the
    glob of the example yields the whole disk) and sorts them. *)
Example find_files_case_sensitive :
  DemoSearch.find_files "*.txt" "/src" true None DemoSearch.disk
  = Files.Done ["/src/a.TXT"; "/src/b.txt"; "/src/lib/c.py"].
Proof. reflexivity. Qed.

Example fnmatch_name :
  Fnmatch.fnmatch DemoSearch.no_class false "a.txt" "*.txt" = true /\
  Fnmatch.fnmatch DemoSearch.no_class false "a.txt" "**/*.txt" = false /\
  Fnmatch.fnmatch DemoSearch.no_class true "A.TXT" "a?[.txt" = false /\
  Fnmatch.translate "a?[!]x]*[" 
  = [Fnmatch.Lit "a"; Fnmatch.AnyChar; Fnmatch.Class "!]x"; Fnmatch.Star;
     Fnmatch.Lit "["].
Proof. repeat split; reflexivity. Qed.

(** Putting a character in lower case neither makes nor removes a
    separator. *)
Lemma lower_char_separator (c : ascii) :
  Ascii.eqb (Platform.lower_char c) "/" = Ascii.eqb c "/" /\
  Ascii.eqb (Platform.lower_char c) "\" = Ascii.eqb c "\".
Proof.
  destruct c as [b0 b1 b2 b3 b4 b5 b6 b7].
  destruct b0, b1, b2, b3, b4, b5, b6, b7; split; reflexivity.
Qed.

(** A name without separator, put in lower case and normalised, holds no
    separator of the platform. *)
Lemma normcase_lower_free (is_windows : bool) (name : string) :
  free_of "/" name = true ->
  (is_windows = true -> free_of "\" name = true) ->
  free_of (if is_windows then "\" else "/")
          (Fnmatch.normcase is_windows (Platform.lower name)) = true.
Proof.
  unfold free_of. induction name as [|c name IH]; intros Hs Hb;
    [destruct is_windows; reflexivity|].
  simpl in Hs. apply andb_true_iff in Hs as [Hc Hs].
  rewrite negb_true_iff in Hc.
  destruct (lower_char_separator c) as [L1 L2].
  destruct is_windows.
  - specialize (Hb eq_refl). simpl in Hb.
    apply andb_true_iff in Hb as [Hc' Hb]. rewrite negb_true_iff in Hc'.
    cbn [Platform.lower Fnmatch.normcase PyStr.all_chars].
    rewrite (IH Hs (fun _ => Hb)), andb_true_r.
    unfold Fnmatch.normcase_char. rewrite L1, Hc.
    rewrite lower_char_idempotent, L2, Hc'. reflexivity.
  - cbn [Platform.lower Fnmatch.normcase PyStr.all_chars].
    rewrite (IH Hs (fun H => match Bool.diff_false_true H with end)).
    unfold Fnmatch.normcase_char. rewrite L1, Hc. reflexivity.
Qed.

Section MatchFacts.

Variable in_class : string -> ascii -> bool.

(** A star hands over a suffix of the name. *)
Lemma star_suffix (k : string -> bool) (c : ascii) (name : string) :
  Fnmatch.star k name = true ->
  free_of c name = true ->
  exists suffix, free_of c suffix = true /\ k suffix = true.
Proof.
  induction name as [|d name IH]; intros Hstar Hfree; simpl in Hstar.
  - rewrite orb_false_r in Hstar. exists ""; auto.
  - apply orb_true_iff in Hstar as [Hk | Hrest].
    + exists (String d name); auto.
    + apply IH; [exact Hrest|].
      unfold free_of in *. simpl in Hfree.
      apply andb_true_iff in Hfree. apply Hfree.
Qed.

(** A pattern that asks for the character [c] matches no name without
    it, whatever stars come first. *)
Lemma no_match_without (c : ascii) (its : list Fnmatch.Item)
    (name : string) :
  free_of c name = true ->
  Fnmatch.matches in_class
    (Fnmatch.Star :: Fnmatch.Star :: Fnmatch.Lit c :: its) name = false.
Proof.
  intros Hfree.
  destruct (Fnmatch.matches in_class _ name) eqn:Hm; [|reflexivity].
  cbn [Fnmatch.matches] in Hm.
  apply (star_suffix _ c) in Hm as (s1 & Hf1 & Hm); [|exact Hfree].
  apply (star_suffix _ c) in Hm as (s2 & Hf2 & Hm); [|exact Hf1].
  destruct s2 as [|d s2]; [discriminate|].
  unfold free_of in Hf2. simpl in Hf2.
  apply andb_true_iff in Hf2 as [Hd _]. rewrite negb_true_iff in Hd.
  apply andb_true_iff in Hm as [Hcd _].
  rewrite Ascii.eqb_sym in Hcd. congruence.
Qed.

(** The pattern the recursive search builds matches no file name. *)
Lemma fnmatch_prefixed (is_windows : bool) (name pattern : string) :
  free_of "/" name = true ->
  (is_windows = true -> free_of "\" name = true) ->
  Fnmatch.fnmatch in_class is_windows (Platform.lower name)
    (Platform.lower ("**/" ++ pattern)) = false.
Proof.
  intros Hs Hb.
  pose proof (normcase_lower_free is_windows name Hs Hb) as Hfree.
  unfold Fnmatch.fnmatch, Fnmatch.fnmatchcase, Fnmatch.translate.
  destruct is_windows;
    cbn [append Platform.lower Fnmatch.normcase String.length Fnmatch.items];
    apply no_match_without; exact Hfree.
Qed.

End MatchFacts.

(** The last component of a path holds no slash. *)
Lemma name_from_free (acc p : string) :
  free_of "/" acc = true ->
  free_of "/" (DemoSearch.name_from acc p) = true.
Proof.
  revert acc. induction p as [|c p IH]; intros acc Hacc; [exact Hacc|].
  simpl. destruct (Ascii.eqb c "/") eqn:Hc.
  - apply IH. reflexivity.
  - apply IH. unfold free_of in *. rewrite all_chars_app, Hacc.
    simpl. rewrite Hc. reflexivity.
Qed.

Section SearchFacts.

Variable is_windows : bool.
Variable FS : Type.
Variable path_rglob : Path -> string -> FS -> Files.FsOutcome (list Path).
Variable path_glob : Path -> string -> FS -> Files.FsOutcome (list Path).
Variable path_is_file : Path -> FS -> Files.FsOutcome bool.
Variable path_name : Path -> string.
Variable in_class : string -> ascii -> bool.
Variable path_lt : Path -> Path -> bool.

Let insert := Search.insert path_lt.
Let sorted := Search.sorted path_lt.
Let keep := Search.keep is_windows FS path_is_file path_name in_class.
Let find_files :=
  Search.find_files is_windows FS path_rglob path_glob path_is_file
    path_name in_class path_lt.

(** Sorting moves the paths and neither adds nor drops one. *)
Lemma insert_In (p q : Path) (l : list Path) :
  In q (insert p l) <-> q = p \/ In q l.
Proof.
  unfold insert. induction l as [|r l IH]; simpl.
  - intuition.
  - destruct (path_lt r p); simpl; rewrite ?IH; intuition.
Qed.

Lemma sorted_In (q : Path) (l : list Path) :
  In q (sorted l) <-> In q l.
Proof.
  unfold sorted. induction l as [|p l IH]; simpl; [reflexivity|].
  fold (insert p (Search.sorted path_lt l)).
  rewrite insert_In, IH. intuition.
Qed.

Lemma insert_length (p : Path) (l : list Path) :
  List.length (insert p l) = S (List.length l).
Proof.
  unfold insert. induction l as [|r l IH]; simpl; [reflexivity|].
  destruct (path_lt r p); simpl; [rewrite IH|]; reflexivity.
Qed.

Lemma sorted_length (l : list Path) :
  List.length (sorted l) = List.length l.
Proof.
  unfold sorted. induction l as [|p l IH]; simpl; [reflexivity|].
  fold (insert p (Search.sorted path_lt l)).
  rewrite insert_length, IH. reflexivity.
Qed.

(** What the loop keeps: the files among the candidates, and in a
    case-sensitive search all of them. *)
Lemma keep_sound (case_sensitive : bool) (pattern : string) (fs : FS)
    (candidates results : list Path) :
  keep case_sensitive pattern candidates fs = Files.Done results ->
  forall p, In p results ->
    In p candidates /\ path_is_file p fs = Files.Done true.
Proof.
  unfold keep. revert results.
  induction candidates as [|q candidates IH]; intros results Hk p Hp;
    simpl in Hk.
  - injection Hk as <-. destruct Hp.
  - destruct (path_is_file q fs) as [is_file|] eqn:Hq; [|discriminate].
    destruct (Search.keep _ _ _ _ _ _ _ candidates fs) as [rest|];
      [|discriminate].
    injection Hk as <-.
    assert (Hrest : In p rest ->
              In p (q :: candidates) /\ path_is_file p fs = Files.Done true).
    { intros H. destruct (IH rest eq_refl p H). split; [right|]; auto. }
    destruct is_file; [|auto].
    match goal with
    | H : In p (if ?b then _ else _) |- _ => destruct b
    end; [|auto].
    destruct Hp as [<- | Hp]; [split; [left; reflexivity|exact Hq]|auto].
Qed.

Lemma keep_complete (pattern : string) (fs : FS)
    (candidates results : list Path) :
  keep true pattern candidates fs = Files.Done results ->
  forall p, In p candidates -> path_is_file p fs = Files.Done true ->
    In p results.
Proof.
  unfold keep. revert results.
  induction candidates as [|q candidates IH]; intros results Hk p Hp Hfile;
    simpl in Hk; [destruct Hp|].
  destruct (path_is_file q fs) as [is_file|] eqn:Hq; [|discriminate].
  destruct (Search.keep _ _ _ _ _ _ _ candidates fs) as [rest|];
    [|discriminate].
  injection Hk as <-.
  destruct Hp as [-> | Hp].
  - rewrite Hfile in Hq. injection Hq as <-. left. reflexivity.
  - specialize (IH rest eq_refl p Hp Hfile).
    destruct is_file; simpl; auto.
Qed.

(** With the pattern of the recursive search, a search that ignores the
    case keeps nothing. *)
Lemma keep_prefixed (pattern : string) (fs : FS) (candidates : list Path) :
  (forall p, free_of "/" (path_name p) = true) ->
  (is_windows = true -> forall p, free_of "\" (path_name p) = true) ->
  (forall results,
     keep false ("**/" ++ pattern) candidates fs = Files.Done results ->
     results = []) /\
  ((forall p, In p candidates -> exists b, path_is_file p fs = Files.Done b) ->
   keep false ("**/" ++ pattern) candidates fs = Files.Done []).
Proof.
  intros Hs Hb. unfold keep.
  induction candidates as [|q candidates [IH1 IH2]]; cbn [Search.keep negb].
  - split; [intros results H; injection H as <-|]; reflexivity.
  - rewrite (fnmatch_prefixed in_class is_windows (path_name q) pattern
               (Hs q) (fun H => Hb H q)).
    split.
    + intros results Hk.
      destruct (path_is_file q fs) as [is_file|]; [|discriminate].
      destruct (Search.keep _ _ _ _ _ _ _ candidates fs) as [rest|];
        [|discriminate].
      rewrite (IH1 rest eq_refl) in Hk.
      destruct is_file; injection Hk as <-; reflexivity.
    + intros Hfiles.
      destruct (Hfiles q (or_introl eq_refl)) as [b ->].
      rewrite IH2 by (intros p Hp; apply Hfiles; right; exact Hp).
      destruct b; reflexivity.
Qed.

(** The recursive search that ignores the case, with its pattern
    prefixed. *)
Lemma find_files_prefixed
    (pattern : string) (root_dir : Path) (case_sensitive : option bool)
    (fs : FS) :
  Platform.contains "**" pattern = false ->
  case_sensitive = Some false \/
  (case_sensitive = None /\ is_windows = true) ->
  find_files pattern root_dir true case_sensitive fs
  = match path_rglob root_dir ("**/" ++ pattern) fs with
    | Files.Failed e => Files.Failed e
    | Files.Done candidates =>
        match keep false ("**/" ++ pattern) candidates fs with
        | Files.Failed e => Files.Failed e
        | Files.Done results => Files.Done (sorted results)
        end
    end.
Proof.
  intros Hstars Hcase.
  unfold find_files, Search.find_files. rewrite Hstars.
  destruct Hcase as [-> | [-> ->]]; reflexivity.
Qed.

(** X21.  [find_files], recursive search that ignores the case (asked
    for, or the default on Windows) with a pattern without [**]: the
    pattern is prefixed with [**/] and every file name is then matched
    against the prefixed pattern, which asks for a separator that no
    file name holds.  So the search never finds a file: whenever it
    returns, it returns the empty list, and it does return when the
    glob and [is_file] do. *)
Theorem find_files_case_insensitive_recursive
    (pattern : string) (root_dir : Path) (case_sensitive : option bool)
    (fs : FS) :
  (forall p, free_of "/" (path_name p) = true) ->
  (is_windows = true -> forall p, free_of "\" (path_name p) = true) ->
  Platform.contains "**" pattern = false ->
  case_sensitive = Some false \/
  (case_sensitive = None /\ is_windows = true) ->
  (forall results,
     find_files pattern root_dir true case_sensitive fs = Files.Done results ->
     results = []) /\
  (forall candidates,
     path_rglob root_dir ("**/" ++ pattern) fs = Files.Done candidates ->
     (forall p, In p candidates ->
        exists b, path_is_file p fs = Files.Done b) ->
     find_files pattern root_dir true case_sensitive fs = Files.Done []).
Proof.
  intros Hs Hb Hstars Hcase.
  rewrite (find_files_prefixed pattern root_dir case_sensitive fs
             Hstars Hcase).
  split.
  - intros results H.
    destruct (path_rglob root_dir ("**/" ++ pattern) fs) as [candidates|];
      [|discriminate].
    destruct (keep_prefixed pattern fs candidates Hs Hb) as [Hnone _].
    destruct (keep false ("**/" ++ pattern) candidates fs) as [kept|];
      [|discriminate].
    rewrite (Hnone kept eq_refl) in H. injection H as <-. reflexivity.
  - intros candidates -> Hfiles.
    destruct (keep_prefixed pattern fs candidates Hs Hb) as [_ Hall].
    rewrite (Hall Hfiles). reflexivity.
Qed.

Lemma keep_length (case_sensitive : bool) (pattern : string) (fs : FS)
    (candidates results : list Path) :
  keep case_sensitive pattern candidates fs = Files.Done results ->
  List.length results <= List.length candidates.
Proof.
  unfold keep. revert results.
  induction candidates as [|q candidates IH]; intros results Hk;
    simpl in Hk.
  - injection Hk as <-. reflexivity.
  - destruct (path_is_file q fs) as [is_file|]; [|discriminate].
    destruct (Search.keep _ _ _ _ _ _ _ candidates fs) as [rest|];
      [|discriminate].
    injection Hk as <-. specialize (IH rest eq_refl).
    match goal with
    | |- List.length (if ?b then _ else _) <= _ => destruct b
    end; simpl; lia.
Qed.

(** X22.  [find_files] returns only paths that the glob yielded and that
    are files, never more of them than the glob yielded; a
    case-sensitive search (asked for, or the default off Windows)
    returns every such path, whatever [fnmatch] would say of its
    name. *)
Theorem find_files_results
    (pattern : string) (root_dir : Path) (recursive : bool)
    (case_sensitive : option bool) (fs : FS) (results : list Path) :
  find_files pattern root_dir recursive case_sensitive fs
  = Files.Done results ->
  exists candidates,
    (let globbed :=
       if recursive && negb (Platform.contains "**" pattern)
       then "**/" ++ pattern else pattern in
     if recursive then path_rglob root_dir globbed fs
     else path_glob root_dir globbed fs) = Files.Done candidates /\
    List.length results <= List.length candidates /\
    (forall p, In p results ->
       In p candidates /\ path_is_file p fs = Files.Done true) /\
    (case_sensitive = Some true \/
     (case_sensitive = None /\ is_windows = false) ->
     forall p, In p candidates -> path_is_file p fs = Files.Done true ->
       In p results).
Proof.
  unfold find_files, Search.find_files. cbv zeta.
  set (globbed := if recursive && negb (Platform.contains "**" pattern)
                  then "**/" ++ pattern else pattern).
  set (cs := match case_sensitive with
             | None => negb is_windows
             | Some b => b
             end).
  intros Hfind.
  destruct (if recursive then path_rglob root_dir globbed fs
            else path_glob root_dir globbed fs) as [candidates|];
    [|discriminate].
  exists candidates. split; [reflexivity|].
  fold keep in Hfind.
  destruct (keep cs globbed candidates fs) as [kept|] eqn:Hkeep;
    [|discriminate].
  fold sorted in Hfind. injection Hfind as <-.
  split; [|split].
  - rewrite sorted_length. exact (keep_length _ _ _ _ _ Hkeep).
  - intros p Hp. apply (proj1 (sorted_In p kept)) in Hp.
    exact (keep_sound _ _ _ _ _ Hkeep p Hp).
  - intros Hcase p Hp Hfile. apply (proj2 (sorted_In p kept)).
    assert (Hcs : cs = true)
      by (unfold cs; destruct Hcase as [-> | [-> ->]]; reflexivity).
    rewrite Hcs in Hkeep.
    exact (keep_complete _ _ _ _ Hkeep p Hp Hfile).
Qed.

End SearchFacts.

Section SearchInFacts.

Variable is_windows : bool.
Variable FS : Type.
Variable path_rglob : Path -> string -> FS -> Files.FsOutcome (list Path).
Variable path_glob : Path -> string -> FS -> Files.FsOutcome (list Path).
Variable path_is_file : Path -> FS -> Files.FsOutcome bool.
Variable path_name : Path -> string.
Variable in_class : string -> ascii -> bool.
Variable path_lt : Path -> Path -> bool.
Variable open_lines :
  Path -> string -> bool -> FS -> list string * option Search.ReadExc.

Let find_files :=
  Search.find_files is_windows FS path_rglob path_glob path_is_file
    path_name in_class path_lt.
Let search := Search.search FS open_lines.
Let find_in_files :=
  Search.find_in_files is_windows FS path_rglob path_glob path_is_file
    path_name in_class path_lt open_lines.

(** The text that [rstrip] leaves has nothing more to strip. *)
Lemma rstrip_newline_idempotent (s : string) :
  Search.rstrip_newline (Search.rstrip_newline s) = Search.rstrip_newline s.
Proof.
  induction s as [|c s IH]; [reflexivity|].
  cbn [Search.rstrip_newline].
  destruct (PyStr.is_empty (Search.rstrip_newline s)) eqn:He;
    cbn [andb].
  - destruct (Search.is_newline c) eqn:Hc; [reflexivity|].
    cbn [Search.rstrip_newline]. rewrite IH, He, Hc. reflexivity.
  - cbn [Search.rstrip_newline]. rewrite IH, He. reflexivity.
Qed.

(** The entries of one file. *)
Lemma scan_sound (pattern : string) (file_path : Path)
    (lines : list string) (line_num : nat) (m : Search.Match) :
  In m (Search.scan pattern file_path line_num lines) ->
  Search.file m = file_path /\
  Search.matched m = pattern /\
  line_num <= Search.line m /\
  exists text,
    nth_error lines (Search.line m - line_num) = Some text /\
    Platform.contains pattern text = true /\
    Search.content m = Search.rstrip_newline text.
Proof.
  revert line_num.
  induction lines as [|text lines IH]; intros line_num Hm;
    cbn [Search.scan] in Hm; [destruct Hm|].
  apply in_app_or in Hm as [Hm | Hm].
  - destruct (Platform.contains pattern text) eqn:Hc; [|destruct Hm].
    destruct Hm as [<- | []]. cbn.
    repeat split; [lia|].
    exists text. rewrite Nat.sub_diag. auto.
  - destruct (IH _ Hm) as (Hf & Hp & Hn & t & Ht & Hc & Hcont).
    repeat split; [assumption..|lia|].
    exists t. replace (Search.line m - line_num)
      with (S (Search.line m - S line_num)) by lia.
    auto.
Qed.

(** The entries of the loop over the files: those it started with,
    then entries read from the files. *)
Lemma search_sound (pattern encoding : string) (ignore_errors : bool)
    (fs : FS) (files : list Path) :
  forall results found,
  search pattern encoding ignore_errors files results fs
  = Files.Done found ->
  exists new,
    found = (results ++ new)%list /\
    forall m, In m new ->
      In (Search.file m) files /\
      Search.matched m = pattern /\
      1 <= Search.line m /\
      exists lines ended text,
        open_lines (Search.file m) encoding ignore_errors fs
        = (lines, ended) /\
        nth_error lines (Search.line m - 1) = Some text /\
        Platform.contains pattern text = true /\
        Search.content m = Search.rstrip_newline text.
Proof.
  unfold search.
  induction files as [|f files IH]; intros results found Hs;
    cbn [Search.search] in Hs.
  - injection Hs as <-. exists []. rewrite app_nil_r.
    split; [reflexivity|]. intros m [].
  - destruct (open_lines f encoding ignore_errors fs) as [lines ended] eqn:Ho.
    assert (Hnext :
      Search.search FS open_lines pattern encoding ignore_errors files
        (results ++ Search.scan pattern f 1 lines)%list fs
      = Files.Done found ->
      exists new,
        found = (results ++ new)%list /\
        forall m, In m new ->
          In (Search.file m) (f :: files) /\
          Search.matched m = pattern /\
          1 <= Search.line m /\
          exists lines ended text,
            open_lines (Search.file m) encoding ignore_errors fs
            = (lines, ended) /\
            nth_error lines (Search.line m - 1) = Some text /\
            Platform.contains pattern text = true /\
            Search.content m = Search.rstrip_newline text).
    { intros H. destruct (IH _ _ H) as (new & -> & Hnew).
      exists (Search.scan pattern f 1 lines ++ new)%list.
      split; [rewrite app_assoc; reflexivity|].
      intros m Hm. apply in_app_or in Hm as [Hm | Hm].
      - destruct (scan_sound _ _ _ _ _ Hm)
          as (Hf & Hp & Hn & text & Ht & Hc & Hcont).
        repeat split; [left; symmetry; exact Hf|exact Hp|exact Hn|].
        exists lines, ended, text. rewrite Hf. auto.
      - destruct (Hnew m Hm) as (Hf & Hrest).
        split; [right; exact Hf|exact Hrest]. }
    destruct ended as [[e|e|e]|]; [| |discriminate|auto];
      (destruct ignore_errors; cbn [negb] in Hs; [auto|discriminate]).
Qed.

(** The loop that ignores the errors goes through all the files. *)
Lemma search_ignore (pattern encoding : string) (fs : FS)
    (files : list Path) :
  (forall f, In f files ->
     forall lines e,
       open_lines f encoding true fs
       <> (lines, Some (Search.OtherReadError e))) ->
  forall results,
  exists found, search pattern encoding true files results fs
                = Files.Done found.
Proof.
  unfold search.
  induction files as [|f files IH]; intros Hread results;
    cbn [Search.search].
  - exists results. reflexivity.
  - assert (Hrest : forall g, In g files ->
              forall lines e,
                open_lines g encoding true fs
                <> (lines, Some (Search.OtherReadError e)))
      by (intros g Hg; apply Hread; right; exact Hg).
    destruct (open_lines f encoding true fs) as [lines ended] eqn:Ho.
    destruct ended as [[e|e|e]|]; cbn [negb]; try (apply IH; exact Hrest).
    exfalso. apply (Hread f (or_introl eq_refl) lines e). exact Ho.
Qed.

(** What the strict loop ends with. *)
Lemma search_strict (pattern encoding : string) (fs : FS)
    (files : list Path) :
  forall results,
  match search pattern encoding false files results fs with
  | Files.Done _ =>
      forall f, In f files -> snd (open_lines f encoding false fs) = None
  | Files.Failed e =>
      exists f lines x,
        In f files /\
        open_lines f encoding false fs = (lines, Some x) /\
        e = match x with
            | Search.UnicodeDecodeError text | Search.IOError text =>
                Files.FileOperationError
                  ("Failed to read file " ++ f ++ ": " ++ text)
            | Search.OtherReadError text => Files.OtherError text
            end
  end.
Proof.
  unfold search.
  induction files as [|f files IH]; intros results; cbn [Search.search].
  - intros f [].
  - destruct (open_lines f encoding false fs) as [lines ended] eqn:Ho.
    destruct ended as [x|].
    + assert (Hfail : exists g lines' y,
                In g (f :: files) /\
                open_lines g encoding false fs = (lines', Some y) /\
                match x with
                | Search.UnicodeDecodeError text | Search.IOError text =>
                    Files.FileOperationError
                      ("Failed to read file " ++ f ++ ": " ++ text)
                | Search.OtherReadError text => Files.OtherError text
                end
                = match y with
                  | Search.UnicodeDecodeError text | Search.IOError text =>
                      Files.FileOperationError
                        ("Failed to read file " ++ g ++ ": " ++ text)
                  | Search.OtherReadError text => Files.OtherError text
                  end)
        by (exists f, lines, x; repeat split; [left; reflexivity|exact Ho]).
      destruct x; cbn [negb]; exact Hfail.
    + specialize (IH (results ++ Search.scan pattern f 1 lines)%list).
      destruct (Search.search FS open_lines pattern encoding false files _ fs).
      * intros g [<- | Hg]; [rewrite Ho; reflexivity|apply IH; exact Hg].
      * destruct IH as (g & lines' & y & Hg & Hopen & He).
        exists g, lines', y. repeat split; [right; exact Hg|exact Hopen|exact He].
Qed.

(** X23.  Every entry [find_in_files] returns comes from a file that
    [find_files] found: it carries the pattern that was searched, its
    line number counts the lines of the file from 1, the line of that
    number contains the pattern, and its content is that line with the
    line ends stripped, so that nothing is left to strip. *)
Theorem find_in_files_entries
    (pattern : string) (root_dir : Path) (file_pattern : string)
    (recursive : bool) (encoding : string) (ignore_errors : bool)
    (fs : FS) (results : list Search.Match) :
  find_in_files pattern root_dir file_pattern recursive encoding
    ignore_errors fs = Files.Done results ->
  exists files,
    find_files file_pattern root_dir recursive None fs = Files.Done files /\
    forall m, In m results ->
      In (Search.file m) files /\
      Search.matched m = pattern /\
      1 <= Search.line m /\
      Search.rstrip_newline (Search.content m) = Search.content m /\
      exists lines ended text,
        open_lines (Search.file m) encoding ignore_errors fs
        = (lines, ended) /\
        nth_error lines (Search.line m - 1) = Some text /\
        Platform.contains pattern text = true /\
        Search.content m = Search.rstrip_newline text.
Proof.
  unfold find_in_files, Search.find_in_files. fold find_files.
  destruct (find_files file_pattern root_dir recursive None fs)
    as [files|]; [|discriminate].
  intros Hs. exists files. split; [reflexivity|].
  destruct (search_sound _ _ _ _ _ _ _ Hs) as (new & -> & Hnew).
  intros m Hm. destruct (Hnew m Hm) as (Hf & Hp & Hn & Hline).
  repeat split; [exact Hf|exact Hp|exact Hn| |exact Hline].
  destruct Hline as (lines & ended & text & _ & _ & _ & ->).
  apply rstrip_newline_idempotent.
Qed.

(** X24.  [find_in_files] that ignores the errors (the default): once
    [find_files] has returned its list, a file that cannot be opened or
    decoded is passed over, and the search returns unless a reading
    ends with an exception that is neither [UnicodeDecodeError] nor
    [OSError]. *)
Theorem find_in_files_ignores_errors
    (pattern : string) (root_dir : Path) (file_pattern : string)
    (recursive : bool) (encoding : string) (fs : FS) (files : list Path) :
  find_files file_pattern root_dir recursive None fs = Files.Done files ->
  (forall f, In f files ->
     forall lines e,
       open_lines f encoding true fs
       <> (lines, Some (Search.OtherReadError e))) ->
  exists results,
    find_in_files pattern root_dir file_pattern recursive encoding true fs
    = Files.Done results.
Proof.
  intros Hfiles Hread.
  unfold find_in_files, Search.find_in_files. fold find_files.
  rewrite Hfiles. apply search_ignore. exact Hread.
Qed.

(** X25.  Strict [find_in_files] ([ignore_errors=False]): once
    [find_files] has returned its list, the search returns only if each
    of the files was read to its end; otherwise it stops at a file whose
    reading failed, with [FileOperationError] and the message
    [Failed to read file <path>: <error>] for an error of decoding or
    of the system, and with the exception itself for any other. *)
Theorem find_in_files_strict
    (pattern : string) (root_dir : Path) (file_pattern : string)
    (recursive : bool) (encoding : string) (fs : FS) (files : list Path) :
  find_files file_pattern root_dir recursive None fs = Files.Done files ->
  match find_in_files pattern root_dir file_pattern recursive encoding
          false fs with
  | Files.Done _ =>
      forall f, In f files -> snd (open_lines f encoding false fs) = None
  | Files.Failed e =>
      exists f lines x,
        In f files /\
        open_lines f encoding false fs = (lines, Some x) /\
        e = match x with
            | Search.UnicodeDecodeError text | Search.IOError text =>
                Files.FileOperationError
                  ("Failed to read file " ++ f ++ ": " ++ text)
            | Search.OtherReadError text => Files.OtherError text
            end
  end.
Proof.
  intros Hfiles.
  unfold find_in_files, Search.find_in_files. fold find_files.
  rewrite Hfiles. apply search_strict.
Qed.

(** X26.  On Windows a recursive [find_in_files] whose file pattern has
    no [**] (the default pattern [*] among them) finds nothing: it
    takes its files from [find_files] with the case left to the
    platform, and that search comes back empty. *)
Theorem find_in_files_windows
    (pattern : string) (root_dir : Path) (file_pattern encoding : string)
    (ignore_errors : bool) (fs : FS) (results : list Search.Match) :
  is_windows = true ->
  (forall p, free_of "/" (path_name p) = true) ->
  (forall p, free_of "\" (path_name p) = true) ->
  Platform.contains "**" file_pattern = false ->
  find_in_files pattern root_dir file_pattern true encoding ignore_errors fs
  = Files.Done results ->
  results = [].
Proof.
  intros Hwin Hs Hb Hstars.
  unfold find_in_files, Search.find_in_files. fold find_files.
  unfold find_files.
  rewrite (find_files_prefixed is_windows FS path_rglob path_glob
             path_is_file path_name in_class path_lt
             file_pattern root_dir None fs Hstars
             (or_intror (conj eq_refl Hwin))).
  destruct (path_rglob root_dir ("**/" ++ file_pattern) fs) as [candidates|];
    [|discriminate].
  destruct (keep_prefixed is_windows FS path_is_file path_name in_class
              file_pattern fs candidates Hs (fun _ => Hb)) as [Hnone _].
  destruct (Search.keep is_windows FS path_is_file path_name in_class
              false ("**/" ++ file_pattern) candidates fs) as [kept|];
    [|discriminate].
  rewrite (Hnone kept eq_refl). cbn [Search.sorted Search.search].
  intros H. injection H as <-. reflexivity.
Qed.

End SearchInFacts.

Lemma find_files_case_insensitive_recursive_witness :
  DemoSearch.find_files "*.txt" "/src" true (Some false) DemoSearch.disk
  = Files.Done [].
Proof.
  refine (proj2 (find_files_case_insensitive_recursive
                   false (list Path) DemoSearch.everything
                   DemoSearch.everything DemoSearch.path_is_file
                   DemoSearch.path_name DemoSearch.no_class String.ltb
                   "*.txt" "/src" (Some false) DemoSearch.disk
                   _ _ _ _) DemoSearch.disk _ _).
  - intros p. apply name_from_free. reflexivity.
  - intros H. discriminate H.
  - reflexivity.
  - left. reflexivity.
  - reflexivity.
  - intros p _. exists true. reflexivity.
Defined.

Lemma find_files_results_witness :
  exists candidates,
    DemoSearch.everything "/src" "**/*.txt" DemoSearch.disk
    = Files.Done candidates /\
    3 <= List.length candidates.
Proof.
  destruct (find_files_results
              false (list Path) DemoSearch.everything
              DemoSearch.everything DemoSearch.path_is_file
              DemoSearch.path_name DemoSearch.no_class String.ltb
              "*.txt" "/src" true None DemoSearch.disk
              ["/src/a.TXT"; "/src/b.txt"; "/src/lib/c.py"] eq_refl)
    as (candidates & Hglob & Hlen & _).
  exists candidates. split; [exact Hglob|exact Hlen].
Defined.

Example find_in_files_demo :
  DemoSearch.find_in_files "alpha" "/src" "*" true "utf-8" true
    DemoSearch.disk
  = Files.Done
      [ {| Search.file := "/src/a.TXT"; Search.line := 1;
           Search.content := "alpha"; Search.matched := "alpha" |};
        {| Search.file := "/src/a.TXT"; Search.line := 3;
           Search.content := "alphabet"; Search.matched := "alpha" |} ].
Proof. reflexivity. Qed.

Lemma win_name_from_free (acc p : string) :
  free_of "/" acc = true -> free_of "\" acc = true ->
  free_of "/" (DemoSearch.win_name_from acc p) = true /\
  free_of "\" (DemoSearch.win_name_from acc p) = true.
Proof.
  revert acc. induction p as [|c p IH]; intros acc Hs Hb; [split; assumption|].
  simpl. destruct (Ascii.eqb c "/") eqn:Hc; simpl.
  - apply IH; reflexivity.
  - destruct (Ascii.eqb c "\") eqn:Hc'.
    + apply IH; reflexivity.
    + apply IH; unfold free_of in *; rewrite all_chars_app;
        [rewrite Hs|rewrite Hb]; simpl; [rewrite Hc|rewrite Hc'];
        reflexivity.
Qed.

Lemma find_in_files_entries_witness :
  exists files,
    DemoSearch.find_files "*" "/src" true None DemoSearch.disk
    = Files.Done files /\
    In "/src/a.TXT" files.
Proof.
  destruct (find_in_files_entries
              false (list Path) DemoSearch.everything
              DemoSearch.everything DemoSearch.path_is_file
              DemoSearch.path_name DemoSearch.no_class String.ltb
              DemoSearch.open_lines
              "alpha" "/src" "*" true "utf-8" true DemoSearch.disk
              [ {| Search.file := "/src/a.TXT"; Search.line := 1;
                   Search.content := "alpha"; Search.matched := "alpha" |};
                {| Search.file := "/src/a.TXT"; Search.line := 3;
                   Search.content := "alphabet";
                   Search.matched := "alpha" |} ]
              eq_refl)
    as (files & Hfiles & Hentries).
  exists files. split; [exact Hfiles|].
  exact (proj1 (Hentries _ (or_introl eq_refl))).
Defined.

Lemma find_in_files_ignores_errors_witness :
  exists results,
    DemoSearch.find_in_files "alpha" "/src" "*" true "utf-8" true
      DemoSearch.disk
    = Files.Done results.
Proof.
  apply (find_in_files_ignores_errors
           false (list Path) DemoSearch.everything
           DemoSearch.everything DemoSearch.path_is_file
           DemoSearch.path_name DemoSearch.no_class String.ltb
           DemoSearch.open_lines
           "alpha" "/src" "*" true "utf-8" DemoSearch.disk
           ["/src/a.TXT"; "/src/b.txt"; "/src/lib/c.py"]).
  - reflexivity.
  - intros f _ lines e. unfold DemoSearch.open_lines.
    destruct (String.eqb f "/src/a.TXT"); [discriminate|].
    destruct (String.eqb f "/src/b.txt"); discriminate.
Defined.

Lemma find_in_files_strict_witness :
  exists f lines x,
    In f ["/src/a.TXT"; "/src/b.txt"; "/src/lib/c.py"] /\
    DemoSearch.open_lines f "utf-8" false DemoSearch.disk
    = (lines, Some x) /\
    Files.FileOperationError
      "Failed to read file /src/lib/c.py: Permission denied"
    = match x with
      | Search.UnicodeDecodeError text | Search.IOError text =>
          Files.FileOperationError
            ("Failed to read file " ++ f ++ ": " ++ text)
      | Search.OtherReadError text => Files.OtherError text
      end.
Proof.
  exact (find_in_files_strict
           false (list Path) DemoSearch.everything
           DemoSearch.everything DemoSearch.path_is_file
           DemoSearch.path_name DemoSearch.no_class String.ltb
           DemoSearch.open_lines
           "alpha" "/src" "*" true "utf-8" DemoSearch.disk
           ["/src/a.TXT"; "/src/b.txt"; "/src/lib/c.py"] eq_refl).
Defined.

Lemma find_in_files_windows_witness :
  DemoSearch.win_find_in_files "alpha" "/src" "*" true "utf-8" true
    DemoSearch.disk
  = Files.Done [] /\
  @nil Search.Match = [].
Proof.
  split; [reflexivity|].
  apply (find_in_files_windows
           true (list Path) DemoSearch.everything
           DemoSearch.everything DemoSearch.path_is_file
           DemoSearch.win_name DemoSearch.no_class String.ltb
           DemoSearch.open_lines
           "alpha" "/src" "*" "utf-8" true DemoSearch.disk []).
  - reflexivity.
  - intros p. apply win_name_from_free; reflexivity.
  - intros p. apply win_name_from_free; reflexivity.
  - reflexivity.
  - reflexivity.
Defined.
